(** * Aragon image admission pipeline

    A shallow embedding of the back end's image services
    ([services/image/*.js], [services/imageService.js] and the image
    controller) together with the properties the specification states
    about them.

    Conventions of the embedding.
    - JavaScript integers (pixel dimensions, byte lengths) are [Z];
      JavaScript numbers that come out of statistics (standard deviations,
      ratios, averages) are IEEE-754 binary64 values, [float].
    - JavaScript strings are [string], a character being a code unit
      below 256: the strings of the Latin-1 range.  File names reach the
      program in that range (multer reads the names of uploads as latin1),
      and [toLowerCase] is JavaScript's on it.
    - A call that may reject or throw returns a [Js.Result]; code that also
      talks to the record store runs in the monad [M] over a [World].
    - Calls into the sharp library, the blob store and the clock are
      fields of [Env]: they are collaborators, not code of the repository.
      [detectFaces], the estimator of faceDetection.js, is a field as well:
      the properties below depend on its result only, never on how it
      counts. *)

From Stdlib Require Import ZArith List String Ascii Bool Lia DecimalString.
From Stdlib Require Import Floats.PrimFloat Numbers.Cyclic.Int63.Uint63.
From Stdlib Require Import Sorting.Permutation.
Import ListNotations.
Set Warnings "-inexact-float,-register-all".
Local Open Scope string_scope.
Local Open Scope Z_scope.

(** ** JavaScript values *)

Module Js.

(** An exception object: [new Error(message)], or the repository's
    [ApiError(statusCode, message)]. *)
Record Error := mkError { statusCode : option Z; message : option string }.

Definition error (msg : string) : Error := mkError None (Some msg).
Definition apiError (code : Z) (msg : string) : Error :=
  mkError (Some code) (Some msg).

Inductive Result (A : Type) : Type :=
| Ok (a : A)
| Throw (e : Error).
Arguments Ok {A} a.
Arguments Throw {A} e.

Definition rbind {A B} (r : Result A) (k : A -> Result B) : Result B :=
  match r with
  | Ok a => k a
  | Throw e => Throw e
  end.

(** [`${n}`] for an integer [n]. *)
Definition show_number (z : Z) : string :=
  NilZero.string_of_int (Z.to_int z).

(** [`${error.message}`]: an absent message prints as [undefined]. *)
Definition show_message (m : option string) : string :=
  match m with
  | Some s => s
  | None => "undefined"
  end.

(** ToBoolean on a string. *)
Definition truthy (s : string) : bool := negb (String.eqb s "").

(** [s.includes(needle)]. *)
Fixpoint includes (s needle : string) : bool :=
  prefix needle s ||
  match s with
  | EmptyString => false
  | String _ s' => includes s' needle
  end.

(** [error.message?.includes(needle)], used as a condition. *)
Definition message_includes (e : Error) (needle : string) : bool :=
  match message e with
  | Some m => includes m needle
  | None => false
  end.

(** The lower-case mapping of a code unit below 256.  The letters with a
    lower-case form in that range are [A] to [Z] (65 to 90) and the
    accented capitals from 192 to 222, the multiplication sign (215)
    among them being no letter; the lower-case form is 32 further up.
    Every other code unit is kept. *)
Definition lowerCaseUnit (c : ascii) : ascii :=
  let n := nat_of_ascii c in
  if ((Nat.leb 65 n && Nat.leb n 90)
      || (Nat.leb 192 n && Nat.leb n 222 && negb (Nat.eqb n 215)))%bool
  then ascii_of_nat (n + 32) else c.

(** [s.toLowerCase()]. *)
Fixpoint toLowerCase (s : string) : string :=
  match s with
  | EmptyString => EmptyString
  | String c s' => String (lowerCaseUnit c) (toLowerCase s')
  end.

(** [(len / 1024).toFixed(1)] for a byte length [len >= 0].  The quotient
    is exact in binary64, and [toFixed] picks the integer [n] with
    [n / 10] closest to it, the larger one on a tie. *)
Definition tenths_of_kb (len : Z) : Z := (10 * len + 512) / 1024.

Definition toFixed1_kb (len : Z) : string :=
  let n := tenths_of_kb len in
  show_number (n / 10) ++ "." ++ show_number (n mod 10).

End Js.

Import Js.

(** A [Buffer]: the bytes of an image file. *)
Definition Buffer := list Byte.byte.

Definition buffer_length (b : Buffer) : Z := Z.of_nat (List.length b).

(** ** What sharp returns *)

Module Sharp.

(** [await sharp(buffer).metadata()]. *)
Record Metadata := { width : Z; height : Z; format : string }.

(** One entry of [stats.channels].  sharp names the standard deviation
    [stdev]. *)
Record Channel := { stdev : float; sum : float }.

(** [await sharp(buffer).stats()]. *)
Record Stats := { channels : list Channel }.

(** [{ data, info }] of [.raw().toBuffer({ resolveWithObject: true })]. *)
Record Raw := { data : Buffer; info_width : Z; info_height : Z }.

(** A 3x3 convolution kernel, row by row. *)
Definition Kernel := list Z.

End Sharp.

(** One element of [detectFaces(...).details]. *)
Record FaceRegion := {
  confidence : option float;
  highResolution : bool;
  directAnalysis : bool;
  wideAspectRatio : bool
}.

(** The result of [detectFaces]. *)
Record FaceDetection := {
  fd_faceCount : Z;
  fd_details : list FaceRegion
}.

(** ** Collaborators *)

Record Env := {
  (** [sharp(b).metadata()] *)
  sharp_metadata : Buffer -> Result Sharp.Metadata;
  (** [sharp(b).stats()] *)
  sharp_stats : Buffer -> Result Sharp.Stats;
  (** [sharp(b).grayscale().stats()] *)
  sharp_grayscale_stats : Buffer -> Result Sharp.Stats;
  (** [sharp(b).grayscale().convolve(k).toBuffer()] *)
  sharp_convolve_buffer : Sharp.Kernel -> Buffer -> Result Buffer;
  (** [sharp(b).grayscale().convolve(k).raw().toBuffer({resolveWithObject})] *)
  sharp_convolve_raw : Sharp.Kernel -> Buffer -> Result Sharp.Raw;
  (** [sharp(b).grayscale().convolve(k).stats()] *)
  sharp_convolve_stats : Sharp.Kernel -> Buffer -> Result Sharp.Stats;
  (** [sharp(b).resize(32, 32, {fit: "fill"}).grayscale().raw().toBuffer()] *)
  sharp_thumbnail : Buffer -> Result Buffer;
  (** [sharp(b).resize(800, 800, {fit: "inside", withoutEnlargement: true})
      .jpeg({quality: 80}).toBuffer()] *)
  sharp_derivative : Buffer -> Result Buffer;
  (** [detectFaces(b)] of faceDetection.js, by its result. *)
  detectFaces : Buffer -> Result FaceDetection;
  (** [getImageBuffer(path)]: the blob store's read. *)
  getImageBuffer : string -> Result Buffer;
  (** [saveImageToStorage(buffer, filename, directory)]. *)
  saveImageToStorage : Buffer -> string -> string -> Result string;
  (** [`${path.parse(name).name}-processed-${Date.now()}${path.extname(name)}`] *)
  processedFilename : string -> string;
  (** imageService.js writes the derivative itself, to the local directory
      or to the bucket; given the buffer, the original name and the
      original path, this is the path it stored it under. *)
  writeProcessed : Buffer -> string -> string -> Result string;
  (** [new Date().toISOString()] *)
  nowISO : string;
  (** [process.env.NODE_ENV] *)
  NODE_ENV : option string;
  (** When set, every call on the Prisma client rejects with this error. *)
  prismaFault : option Error
}.

(** ** sizeValidation.js *)

Module SizeValidation.

Record Validation := { isValid : bool; reason : option string }.

Definition MIN_WIDTH : Z := 800.
Definition MIN_HEIGHT : Z := 800.
Definition MIN_SIZE_IN_BYTES : Z := 100 * 1024.

Section WithEnv.
Variable env : Env.

Definition validateImageSize (imageBuffer : Buffer) : Validation :=
  match sharp_metadata env imageBuffer with
  | Ok metadata =>
      if (Sharp.width metadata <? MIN_WIDTH)
         || (Sharp.height metadata <? MIN_HEIGHT)
      then
        {| isValid := false;
           reason := Some ("Image resolution too low. Minimum required: "
             ++ show_number MIN_WIDTH ++ "x" ++ show_number MIN_HEIGHT
             ++ "px, got: " ++ show_number (Sharp.width metadata) ++ "x"
             ++ show_number (Sharp.height metadata) ++ "px") |}
      else if buffer_length imageBuffer <? MIN_SIZE_IN_BYTES
      then
        {| isValid := false;
           reason := Some ("Image file size too small. Minimum required: "
             ++ show_number (MIN_SIZE_IN_BYTES / 1024) ++ "KB, got: "
             ++ toFixed1_kb (buffer_length imageBuffer) ++ "KB") |}
      else {| isValid := true; reason := None |}
  | Throw error =>
      {| isValid := false;
         reason := Some ("Failed to validate image: "
                         ++ show_message (message error)) |}
  end.

End WithEnv.

End SizeValidation.

(** ** Diagnostics carried in [metaData] *)

Module Diagnostics.

(** The [details] object of a face validation.  [faceCount] is the one
    field read again (by the processor); [markers] lists the keys set to
    [true] ("override", "highResolution", ...), [detail_error] is
    [error: error.message].  The renderings of ratios as text
    ([dimensions], [aspectRatio], [megapixels]) are left out. *)
Inductive FaceDetails := mkFaceDetails {
  faceCount : option Z;
  markers : list string;
  detail_error : option (option string);
  faces : option (list FaceRegion);
  regionCount : option Z;
  avgStdDev : option float;
  originalResult : option FaceDetails
}.

Definition faceDetails (count : option Z) (keys : list string) : FaceDetails :=
  {| faceCount := count; markers := keys; detail_error := None; faces := None;
     regionCount := None; avgStdDev := None; originalResult := None |}.

(** The [details] of a blur detection, one constructor per shape the
    source builds. *)
Inductive BlurDetails :=
| BlurMethods (bySharpening byBlockAnalysis byEdgeDistribution byGradient : bool)
              (sharpeningResponse sharpBlockPercentage strongEdgePercentage
               horizGradientSum vertGradientSum : float)
              (motionBlur : bool) (directionalBlurRatio : float)
              (blurryVotes : Z) (imageWidth imageHeight : Z)
| BlurFallback (stdDev : float)
| BlurError (error : option string)
| BlurReason (reason : option string).

End Diagnostics.

Import Diagnostics.

(** ** MD5 (RFC 1321), as [crypto.createHash("md5")] computes it *)

Module Md5.

Definition mask32 (x : Z) : Z := Z.land x 4294967295.
Definition not32 (x : Z) : Z := Z.lxor x 4294967295.
Definition rotl (x c : Z) : Z :=
  mask32 (Z.lor (Z.shiftl x c) (Z.shiftr x (32 - c))).

Definition shifts : list Z :=
  [ 7; 12; 17; 22; 7; 12; 17; 22; 7; 12; 17; 22; 7; 12; 17; 22;
    5; 9; 14; 20; 5; 9; 14; 20; 5; 9; 14; 20; 5; 9; 14; 20;
    4; 11; 16; 23; 4; 11; 16; 23; 4; 11; 16; 23; 4; 11; 16; 23;
    6; 10; 15; 21; 6; 10; 15; 21; 6; 10; 15; 21; 6; 10; 15; 21 ].

Definition K : list Z :=
  [ 3614090360; 3905402710; 606105819; 3250441966;
    4118548399; 1200080426; 2821735955; 4249261313;
    1770035416; 2336552879; 4294925233; 2304563134;
    1804603682; 4254626195; 2792965006; 1236535329;
    4129170786; 3225465664; 643717713; 3921069994;
    3593408605; 38016083; 3634488961; 3889429448;
    568446438; 3275163606; 4107603335; 1163531501;
    2850285829; 4243563512; 1735328473; 2368359562;
    4294588738; 2272392833; 1839030562; 4259657740;
    2763975236; 1272893353; 4139469664; 3200236656;
    681279174; 3936430074; 3572445317; 76029189;
    3654602809; 3873151461; 530742520; 3299628645;
    4096336452; 1126891415; 2878612391; 4237533241;
    1700485571; 2399980690; 4293915773; 2240044497;
    1873313359; 4264355552; 2734768916; 1309151649;
    4149444226; 3174756917; 718787259; 3951481745 ].

(** The four bytes of a 32-bit word, least significant first. *)
Definition word_bytes (w : Z) : list Z :=
  [ Z.land w 255; Z.land (Z.shiftr w 8) 255;
    Z.land (Z.shiftr w 16) 255; Z.land (Z.shiftr w 24) 255 ].

Fixpoint words (bs : list Z) : list Z :=
  match bs with
  | b0 :: b1 :: b2 :: b3 :: rest =>
      (b0 + 256 * b1 + 65536 * b2 + 16777216 * b3) :: words rest
  | _ => []
  end.

Definition pad (msg : list Z) : list Z :=
  let len := Z.of_nat (List.length msg) in
  let bits := 8 * len in
  (msg ++ [128] ++ repeat 0 (Z.to_nat ((55 - len) mod 64))
       ++ word_bytes (mask32 bits) ++ word_bytes (mask32 (Z.shiftr bits 32)))%list.

Fixpoint blocks (n : nat) (bs : list Z) : list (list Z) :=
  match n with
  | O => []
  | S n' => firstn 64 bs :: blocks n' (skipn 64 bs)
  end.

Definition State : Type := Z * Z * Z * Z.

Definition step (M : list Z) (st : State) (i : Z) : State :=
  let '(A, B, C, D) := st in
  let '(F, g) :=
    if i <? 16 then (Z.lor (Z.land B C) (Z.land (not32 B) D), i)
    else if i <? 32 then
      (Z.lor (Z.land D B) (Z.land (not32 D) C), (5 * i + 1) mod 16)
    else if i <? 48 then (Z.lxor B (Z.lxor C D), (3 * i + 5) mod 16)
    else (Z.lxor C (Z.lor B (not32 D)), (7 * i) mod 16) in
  let F' := mask32 (F + A + nth (Z.to_nat i) K 0 + nth (Z.to_nat g) M 0) in
  (D, mask32 (B + rotl F' (nth (Z.to_nat i) shifts 0)), B, C).

Definition compress (st : State) (block : list Z) : State :=
  let '(a0, b0, c0, d0) := st in
  let '(A, B, C, D) :=
    fold_left (step (words block)) (map Z.of_nat (seq 0 64)) st in
  (mask32 (a0 + A), mask32 (b0 + B), mask32 (c0 + C), mask32 (d0 + D)).

Definition init : State := (1732584193, 4023233417, 2562383102, 271733878).

(** The 16 bytes of the digest. *)
Definition digest (msg : list Z) : list Z :=
  let padded := pad msg in
  let '(a, b, c, d) :=
    fold_left compress (blocks (List.length padded / 64) padded) init in
  (word_bytes a ++ word_bytes b ++ word_bytes c ++ word_bytes d)%list.

End Md5.

(** ** Hexadecimal text *)

Module Hex.

(** The lowercase digit of a value below 16. *)
Definition digit (v : Z) : ascii :=
  nth (Z.to_nat v)
    [ "0"; "1"; "2"; "3"; "4"; "5"; "6"; "7";
      "8"; "9"; "a"; "b"; "c"; "d"; "e"; "f" ]%char "0"%char.

(** [parseInt(c, 16)] on a single character: [None] stands for [NaN]. *)
Definition value (c : ascii) : option Z :=
  let n := Z.of_nat (nat_of_ascii c) in
  if (48 <=? n) && (n <=? 57) then Some (n - 48)
  else if (97 <=? n) && (n <=? 102) then Some (n - 87)
  else if (65 <=? n) && (n <=? 70) then Some (n - 55)
  else None.

(** [n.toString(16).padStart(2, "0")] for a byte value [n]. *)
Definition of_byte (n : Z) : string :=
  String (digit (n / 16)) (String (digit (n mod 16)) EmptyString).

(** [.digest("hex")]. *)
Definition encode (bs : list Z) : string :=
  fold_right (fun b acc => of_byte b ++ acc) "" bs.

(** [Buffer.from(text, "hex")]: two digits a byte; decoding stops at the
    first pair that is not hexadecimal, and a trailing single digit is
    dropped. *)
Fixpoint decode (s : string) : list Z :=
  match s with
  | String hi (String lo rest) =>
      match value hi, value lo with
      | Some h, Some l => (16 * h + l) :: decode rest
      | _, _ => []
      end
  | _ => []
  end.

End Hex.

(** ** The record store *)

Module Prisma.

Inductive ImageStatus := PENDING | PROCESSING | PROCESSED | FAILED.

Definition status_eqb (a b : ImageStatus) : bool :=
  match a, b with
  | PENDING, PENDING | PROCESSING, PROCESSING
  | PROCESSED, PROCESSED | FAILED, FAILED => true
  | _, _ => false
  end.

(** The coded tags of [metaData.validationErrors]. *)
Inductive ValidationError :=
| size_validation_failed
| multiple_faces_detected
| blurry_image_detected
| duplicate_image_detected
| format_validation_failed
| processing_error.

(** The [metaData] JSON object; an absent key is [None]. *)
Record MetaData := {
  rejectionReason : option string;
  validationErrors : option (list ValidationError);
  pHash : option string;
  similarTo : option string;
  technicalError : option string;
  width : option Z;
  height : option Z;
  fileSize : option Z;
  format : option string;
  processingTime : option string;
  faceCount : option Z;
  faceData : option FaceDetails;
  blurDetails : option BlurDetails
}.

Definition noMetaData : MetaData :=
  {| rejectionReason := None; validationErrors := None; pHash := None;
     similarTo := None; technicalError := None; width := None;
     height := None; fileSize := None; format := None;
     processingTime := None; faceCount := None; faceData := None;
     blurDetails := None |}.

(** A row of the [Image] table. *)
Record Image := {
  id : string;
  originalName : string;
  originalSize : Z;
  originalPath : string;
  processedPath : option string;
  processedSize : option Z;
  fileType : string;
  status : ImageStatus;
  metaData : option MetaData
}.

(** The [data] object of an update: the columns present are written. *)
Record UpdateData := {
  set_status : option ImageStatus;
  set_metaData : option MetaData;
  set_processedPath : option string;
  set_processedSize : option Z
}.

Definition apply_update (d : UpdateData) (r : Image) : Image :=
  {| id := id r;
     originalName := originalName r;
     originalSize := originalSize r;
     originalPath := originalPath r;
     processedPath :=
       match set_processedPath d with Some p => Some p | None => processedPath r end;
     processedSize :=
       match set_processedSize d with Some n => Some n | None => processedSize r end;
     fileType := fileType r;
     status := match set_status d with Some s => s | None => status r end;
     metaData :=
       match set_metaData d with Some m => Some m | None => metaData r end |}.

(** The analyzer stages, and what a run leaves in the trace: the status
    each update wrote and the analyzers that were called, in order. *)
Inductive Stage := SizeStage | FaceStage | BlurStage | HashStage | DuplicateStage.

Inductive Event :=
| Updated (rowId : string) (written : ImageStatus)
| Invoked (stage : Stage).

Record World := { images : list Image; trace : list Event }.

(** Code that reads and writes the store and may throw. *)
Definition M (A : Type) : Type := World -> Result A * World.

Definition ret {A} (a : A) : M A := fun w => (Ok a, w).

Definition throw {A} (e : Error) : M A := fun w => (Throw e, w).

Definition bind {A B} (m : M A) (k : A -> M B) : M B :=
  fun w =>
    match m w with
    | (Ok a, w') => k a w'
    | (Throw e, w') => (Throw e, w')
    end.

(** [try { m } catch (error) { handler error }]. *)
Definition tryCatch {A} (m : M A) (handler : Error -> M A) : M A :=
  fun w =>
    match m w with
    | (Ok a, w') => (Ok a, w')
    | (Throw e, w') => handler e w'
    end.

(** Awaiting a call that does not touch the store. *)
Definition await {A} (r : Result A) : M A := fun w => (r, w).

Definition log (e : Event) : M unit :=
  fun w => (Ok tt, {| images := images w; trace := (trace w ++ [e])%list |}).

(** Calling an analyzer stage. *)
Definition invoke {A} (s : Stage) (m : M A) : M A :=
  bind (log (Invoked s)) (fun _ => m).

Fixpoint replace_row (rowId : string) (d : UpdateData) (rows : list Image)
  : list Image :=
  match rows with
  | [] => []
  | r :: rest =>
      if String.eqb (id r) rowId then apply_update d r :: rest
      else r :: replace_row rowId d rest
  end.

Section WithEnv.
Variable env : Env.

(** [prisma.image.findUnique({ where: { id } })]. *)
Definition findUnique (rowId : string) : M (option Image) :=
  fun w =>
    match prismaFault env with
    | Some e => (Throw e, w)
    | None => (Ok (find (fun r => String.eqb (id r) rowId) (images w)), w)
    end.

(** [prisma.image.update({ where: { id }, data })]: rejects when no row
    has the id. *)
Definition update (rowId : string) (d : UpdateData) : M Image :=
  fun w =>
    match prismaFault env with
    | Some e => (Throw e, w)
    | None =>
        match find (fun r => String.eqb (id r) rowId) (images w) with
        | None => (Throw (Js.error "Record to update not found."), w)
        | Some r =>
            (Ok (apply_update d r),
             {| images := replace_row rowId d (images w);
                trace := (trace w ++ [Updated rowId (status (apply_update d r))])%list |})
        end
    end.

End WithEnv.

End Prisma.

Declare Scope prisma_scope.
Delimit Scope prisma_scope with prisma.
Notation "x <- m ;; k" := (Prisma.bind m (fun x => k))
  (at level 100, m at next level, right associativity) : prisma_scope.
Notation "m ;;; k" := (Prisma.bind m (fun _ => k))
  (at level 100, right associativity) : prisma_scope.

(** A JavaScript number holding a non-negative integer. *)
Definition float_of_Z (z : Z) : float := of_uint63 (Uint63.of_Z z).

(** ** duplicateDetection.js *)

Module DuplicateDetection.
Import Prisma.

(** A row as the candidate query selects it:
    [select: { id: true, originalName: true, metaData: true }]. *)
Module Candidate.
Record t := {
  id : string;
  originalName : string;
  metaData : option MetaData
}.
End Candidate.

Definition select (r : Image) : Candidate.t :=
  {| Candidate.id := Prisma.id r;
     Candidate.originalName := Prisma.originalName r;
     Candidate.metaData := Prisma.metaData r |}.

Record DuplicateCheck := {
  isDuplicate : bool;
  similarImage : option Candidate.t
}.

Definition byte_value (b : Byte.byte) : Z := Z.of_N (Byte.to_N b).

(** [binaryHash.match(/.{1,8}/g)]: pieces of eight characters, the last
    one shorter when the length is no multiple of eight; [[]] stands for
    the [null] of no match. *)
Fixpoint chunks (fuel : nat) (bits : string) : list string :=
  match fuel with
  | O => []
  | S fuel' =>
      match bits with
      | EmptyString => []
      | _ =>
          substring 0 8 bits
            :: chunks fuel' (substring 8 (String.length bits - 8) bits)
      end
  end.

(** [parseInt(piece, 2)] on a piece of binary digits: the first character
    is the most significant. *)
Fixpoint parseInt2_from (acc : Z) (piece : string) : Z :=
  match piece with
  | EmptyString => acc
  | String c rest =>
      parseInt2_from (2 * acc + (if Ascii.eqb c "1" then 1 else 0)) rest
  end.

Definition parseInt2 (piece : string) : Z := parseInt2_from 0 piece.

(** [sum / resizedImage.length], the sum taken pixel by pixel. *)
Definition average (resizedImage : Buffer) : float :=
  (fold_left (fun acc px => acc + float_of_Z (byte_value px)) resizedImage 0
   / float_of_Z (Z.of_nat (List.length resizedImage)))%float.

(** One character a pixel: ["1"] when [pixel >= avg], else ["0"]. *)
Fixpoint threshold (avg : float) (pixels : Buffer) : string :=
  match pixels with
  | [] => EmptyString
  | px :: rest =>
      String (if PrimFloat.leb avg (float_of_Z (byte_value px))
              then "1"%char else "0"%char)
             (threshold avg rest)
  end.

Definition binaryHash (resizedImage : Buffer) : string :=
  threshold (average resizedImage) resizedImage.

(** [Buffer.from(binaryHash.match(/.{1,8}/g).map(...).join(""), "hex")];
    [match] gives [null] on the empty string, and [null.map] throws. *)
Definition hashBuffer (bits : string) : Result (list Z) :=
  match chunks (String.length bits) bits with
  | [] => Throw (Js.error "Cannot read properties of null (reading 'map')")
  | pieces =>
      Ok (Hex.decode
            (fold_right (fun piece acc => Hex.of_byte (parseInt2 piece) ++ acc)
                        "" pieces))
  end.

(** Eight binary characters as a byte, the first character being the
    highest bit, and the packing of a bit string of whole bytes that way. *)
Definition bit_value (c : ascii) : Z := if Ascii.eqb c "1" then 1 else 0.

Fixpoint pack_msb_first (bits : string) : list Z :=
  match bits with
  | String c0 (String c1 (String c2 (String c3
      (String c4 (String c5 (String c6 (String c7 rest))))))) =>
      (128 * bit_value c0 + 64 * bit_value c1 + 32 * bit_value c2
       + 16 * bit_value c3 + 8 * bit_value c4 + 4 * bit_value c5
       + 2 * bit_value c6 + bit_value c7) :: pack_msb_first rest
  | _ => []
  end.

(** The packing the specification words: the first character of each group
    of eight is the lowest bit of the byte. *)
Fixpoint spec_pack_lsb_first (bits : string) : list Z :=
  match bits with
  | String c0 (String c1 (String c2 (String c3
      (String c4 (String c5 (String c6 (String c7 rest))))))) =>
      (bit_value c0 + 2 * bit_value c1 + 4 * bit_value c2
       + 8 * bit_value c3 + 16 * bit_value c4 + 32 * bit_value c5
       + 64 * bit_value c6 + 128 * bit_value c7) :: spec_pack_lsb_first rest
  | _ => []
  end.

Definition SIMILARITY_THRESHOLD : Z := 3.

(** [parseInt(h, 16).toString(2).padStart(4, "0")] for one character. *)
Definition nibble (h : ascii) : string :=
  match Hex.value h with
  | Some v =>
      let bit (i : Z) : ascii := if Z.testbit v i then "1"%char else "0"%char in
      String (bit 3) (String (bit 2) (String (bit 1) (String (bit 0) EmptyString)))
  | None => "0NaN"
  end.

Fixpoint hexToBinary (hex : string) : string :=
  match hex with
  | EmptyString => EmptyString
  | String h rest => nibble h ++ hexToBinary rest
  end.

(** The loop over [i < Math.min(binary1.length, binary2.length)]. *)
Definition differing (binary1 binary2 : string) : Z :=
  fold_left
    (fun distance i =>
       match get i binary1, get i binary2 with
       | Some c1, Some c2 => if Ascii.eqb c1 c2 then distance else distance + 1
       | _, _ => distance + 1
       end)
    (seq 0 (Nat.min (String.length binary1) (String.length binary2))) 0.

Definition distance (hash existingHash : string) : Z :=
  differing (hexToBinary hash) (hexToBinary existingHash).

(** [image.metaData && image.metaData.pHash]. *)
Definition storedHash (image : Candidate.t) : option string :=
  match Candidate.metaData image with
  | Some m =>
      match pHash m with
      | Some h => if truthy h then Some h else None
      | None => None
      end
  | None => None
  end.

(** The [for ... of processedImages] loop with its [break]. *)
Fixpoint scan (hash : string) (processedImages : list Candidate.t)
  : DuplicateCheck :=
  match processedImages with
  | [] => {| isDuplicate := false; similarImage := None |}
  | image :: rest =>
      match storedHash image with
      | Some existingHash =>
          if distance hash existingHash <=? SIMILARITY_THRESHOLD
          then {| isDuplicate := true; similarImage := Some image |}
          else scan hash rest
      | None => scan hash rest
      end
  end.

(** [excludeId && { id: { not: excludeId } }]. *)
Definition excluded (excludeId : option string) (r : Image) : bool :=
  match excludeId with
  | Some e => truthy e && String.eqb (Prisma.id r) e
  | None => false
  end.

Section WithEnv.
Variable env : Env.

Definition generateImageHash (imageBuffer : Buffer) : Result string :=
  let attempt : Result string :=
    rbind (sharp_thumbnail env imageBuffer) (fun resizedImage =>
      rbind (hashBuffer (binaryHash resizedImage)) (fun bytes =>
        Ok (Hex.encode (Md5.digest bytes)))) in
  match attempt with
  | Ok h => Ok h
  | Throw error =>
      Throw (Js.error ("Failed to generate image hash: "
                       ++ show_message (message error)))
  end.

(** The candidate query:
    [findMany({ where: { status: "PROCESSED", id: { not: excludeId } },
                select: { id, originalName, metaData } })]. *)
Definition findProcessed (excludeId : option string) : M (list Candidate.t) :=
  fun w =>
    match prismaFault env with
    | Some e => (Throw e, w)
    | None =>
        (Ok (map select
               (filter (fun r => status_eqb (status r) PROCESSED
                                 && negb (excluded excludeId r))
                       (images w))), w)
    end.

Definition checkDuplicateImage (hash : string) (excludeId : option string)
           (originalFileName : string) : M DuplicateCheck :=
  tryCatch
    (processedImages <- findProcessed excludeId ;;
     match
       (if truthy originalFileName
        then find (fun img =>
                     String.eqb (toLowerCase (Candidate.originalName img))
                                (toLowerCase originalFileName))
                  processedImages
        else None)
     with
     | Some exactMatch =>
         ret {| isDuplicate := true; similarImage := Some exactMatch |}
     | None => ret (scan hash processedImages)
     end)%prisma
    (fun error => ret {| isDuplicate := false; similarImage := None |}).

End WithEnv.

End DuplicateDetection.

(** ** faceDetection.js *)

Module FaceDetection.

Record Validation := {
  isValid : bool;
  reason : option string;
  details : FaceDetails
}.

(** [channel.stddev]: the channel objects sharp returns have no such key
    (theirs is [stdev]), so the read is [undefined], which is [NaN] in the
    comparison and the sums it enters. *)
Definition stddev (channel : Sharp.Channel) : float := nan.

Section WithEnv.
Variable env : Env.

Definition checkForPortraitWithSolidBackground (buffer : Buffer) : bool :=
  match sharp_stats env buffer with
  | Ok stats =>
      let channels := Sharp.channels stats in
      let colorVariance :=
        fold_left
          (fun acc channel =>
             if PrimFloat.ltb (stddev channel) 35%float
             then (acc + stddev channel)%float else acc)
          channels 0%float in
      let totalContrast :=
        fold_left (fun acc channel => (acc + stddev channel)%float)
                  channels 0%float in
      PrimFloat.ltb colorVariance 80%float
      && PrimFloat.ltb totalContrast 160%float
  | Throw err => false
  end.

(** The [try] block of [validateFaceCount]. *)
Definition validateFaceCount_body (imageBuffer : Buffer) : Result Validation :=
  rbind (sharp_metadata env imageBuffer) (fun metadata =>
    let width := Sharp.width metadata in
    let height := Sharp.height metadata in
    let aspectRatio := (float_of_Z width / float_of_Z height)%float in
    let isLikelyPortrait :=
      PrimFloat.leb 0.68%float aspectRatio
      && PrimFloat.leb aspectRatio 0.82%float in
    if ((3500 <=? width) || (3000 <=? height))
       && PrimFloat.ltb 1.4%float aspectRatio
    then
      Ok {| isValid := false;
            reason := Some "Multiple faces likely in high-resolution group photo. Please upload photos with at most one face.";
            details := faceDetails (Some 2) ["highResolution"] |}
    else if (8000000 <? width * height)
            && ((12000000 <? width * height) && negb isLikelyPortrait)
    then
      Ok {| isValid := false;
            reason := Some "Very large image likely contains multiple people. Please upload a photo with at most one face.";
            details := faceDetails (Some 2) ["veryLargeImage"] |}
    else
      let isSolidBackgroundPortrait :=
        checkForPortraitWithSolidBackground imageBuffer in
      let isPortrait := isLikelyPortrait && isSolidBackgroundPortrait in
      rbind (detectFaces env imageBuffer) (fun faceDetection =>
        let count := fd_faceCount faceDetection in
        let regions := fd_details faceDetection in
        let hasMultipleFaceIndicators :=
          existsb
            (fun d =>
               match confidence d with
               | Some c => PrimFloat.ltb 0.5%float c
               | None => false
               end
               || highResolution d || directAnalysis d || wideAspectRatio d)
            regions in
        if (1 <? count) && isPortrait && (2 <=? count)
        then
          Ok {| isValid := false;
                reason := Some "Multiple faces detected in portrait. Please upload photos with at most one face.";
                details :=
                  {| faceCount := Some count; markers := ["isPortrait"];
                     detail_error := None; faces := Some regions;
                     regionCount := None; avgStdDev := None;
                     originalResult := None |} |}
        else if (1 <? count) && negb isPortrait
                && (hasMultipleFaceIndicators || (2 <=? count))
        then
          Ok {| isValid := false;
                reason := Some "Multiple faces detected. Please upload photos with at most one face.";
                details :=
                  {| faceCount := Some count; markers := [];
                     detail_error := None; faces := Some regions;
                     regionCount := None; avgStdDev := None;
                     originalResult := None |} |}
        else if (PrimFloat.ltb 1.3%float aspectRatio && (1500 <? width)
                 && negb isPortrait)
                && (PrimFloat.ltb 1.5%float aspectRatio && (2000 <? width))
        then
          Ok {| isValid := false;
                reason := Some "Image format suggests multiple people. Please upload a photo with at most one face.";
                details := faceDetails None ["wideFormat"] |}
        else if negb isPortrait
                && ((1800 <? width) || (1800 <? height))
                && (8 <? Z.of_nat (List.length regions))
        then
          Ok {| isValid := false;
                reason := Some "Multiple faces likely in image. Please upload photos with at most one face.";
                details :=
                  {| faceCount := Some 2; markers := ["complexImage"];
                     detail_error := None; faces := Some regions;
                     regionCount := Some (Z.of_nat (List.length regions));
                     avgStdDev := None; originalResult := None |} |}
        else if (15 <? Z.of_nat (List.length regions)) && negb isPortrait
        then
          Ok {| isValid := false;
                reason := Some "Image appears to contain multiple people. Please upload a photo with at most one face.";
                details :=
                  {| faceCount := Some 2; markers := ["manyRegions"];
                     detail_error := None; faces := None;
                     regionCount := Some (Z.of_nat (List.length regions));
                     avgStdDev := None; originalResult := None |} |}
        else
          Ok {| isValid := true;
                reason := None;
                details :=
                  {| faceCount := Some count; markers := [];
                     detail_error := None; faces := Some regions;
                     regionCount := None; avgStdDev := None;
                     originalResult := None |} |})).

Definition validateFaceCount (imageBuffer : Buffer) : Validation :=
  match validateFaceCount_body imageBuffer with
  | Ok result => result
  | Throw error =>
      {| isValid := true;
         reason := None;
         details :=
           {| faceCount := Some 0; markers := ["detectionFailed"];
              detail_error := Some (message error); faces := None;
              regionCount := None; avgStdDev := None;
              originalResult := None |} |}
  end.

(** [channels.reduce((sum, ch) => sum + ch.stdev, 0) / channels.length]. *)
Definition averageStdDev (stats : Sharp.Stats) : float :=
  let channels := Sharp.channels stats in
  (fold_left (fun acc ch => acc + Sharp.stdev ch) channels 0
   / float_of_Z (Z.of_nat (List.length channels)))%float.

(** The [try] block of [validateFacesWithOverride]. *)
Definition validateFacesWithOverride_body (imageBuffer : Buffer)
  : Result Validation :=
  let result := validateFaceCount imageBuffer in
  if negb (isValid result) then
    rbind (sharp_metadata env imageBuffer) (fun metadata =>
      let isPortrait := Sharp.width metadata <? Sharp.height metadata in
      let isSmallImage :=
        (Sharp.width metadata <? 1200) && (Sharp.height metadata <? 1200) in
      if isPortrait || isSmallImage then
        Ok {| isValid := true;
              reason := None;
              details :=
                {| faceCount := Some 1; markers := ["override"];
                   detail_error := None; faces := None; regionCount := None;
                   avgStdDev := None;
                   originalResult := Some (details result) |} |}
      else
        rbind (sharp_stats env imageBuffer) (fun stats =>
          let avg := averageStdDev stats in
          if PrimFloat.ltb avg 60%float then
            Ok {| isValid := true;
                  reason := None;
                  details :=
                    {| faceCount := Some 1; markers := ["override"];
                       detail_error := None; faces := None;
                       regionCount := None; avgStdDev := Some avg;
                       originalResult := Some (details result) |} |}
          else Ok result))
  else Ok result.

Definition validateFacesWithOverride (imageBuffer : Buffer) : Validation :=
  match validateFacesWithOverride_body imageBuffer with
  | Ok result => result
  | Throw error =>
      {| isValid := true;
         reason := None;
         details :=
           {| faceCount := Some 0; markers := ["validationFailed"];
              detail_error := Some (message error); faces := None;
              regionCount := None; avgStdDev := None;
              originalResult := None |} |}
  end.

End WithEnv.

End FaceDetection.

(** ** blurDetection.js *)

Module BlurDetection.

Record Detection := {
  isBlurry : bool;
  reason : option string;
  details : option BlurDetails
}.

Definition SHARPENING_RESPONSE_THRESHOLD : float := 0.2%float.
Definition SHARP_BLOCK_THRESHOLD : float := 15%float.
Definition STRONG_EDGE_THRESHOLD : float := 3%float.

Definition highPassKernel : Sharp.Kernel := [0; -1; 0; -1; 5; -1; 0; -1; 0].
Definition laplacianKernel : Sharp.Kernel := [-1; -1; -1; -1; 8; -1; -1; -1; -1].
Definition sobelXKernel : Sharp.Kernel := [-1; 0; 1; -2; 0; 2; -1; 0; 1].
Definition sobelYKernel : Sharp.Kernel := [-1; -2; -1; 0; 0; 0; 1; 2; 1].

(** [stats.channels[0].stdev]; reading a key of the [undefined] first
    channel throws a TypeError. *)
Definition firstChannel (stats : Sharp.Stats) : Result Sharp.Channel :=
  match Sharp.channels stats with
  | ch :: _ => Ok ch
  | [] => Throw (Js.error "Cannot read properties of undefined")
  end.

(** [data[idx]] as a number: [undefined], hence [NaN], past the end. *)
Definition pixelAt (data : Buffer) (idx : Z) : float :=
  match nth_error data (Z.to_nat idx) with
  | Some b => float_of_Z (Z.of_N (Byte.to_N b))
  | None => nan
  end.

Definition is_nan (x : float) : bool := negb (PrimFloat.eqb x x).

(** [Math.max] and [Math.min] on two numbers. *)
Definition js_max (a b : float) : float :=
  if is_nan a || is_nan b then nan else if PrimFloat.ltb a b then b else a.
Definition js_min (a b : float) : float :=
  if is_nan a || is_nan b then nan else if PrimFloat.ltb b a then b else a.

(** The two inner loops over one block: the sum, the sum of squares and
    the number of pixels of block [(r, c)]. *)
Definition blockSums (data : Buffer) (infoWidth infoHeight blockSize r c : Z)
  : float * float * Z :=
  fold_left
    (fun acc y =>
       fold_left
         (fun acc' x =>
            let '(blockSum, blockSumSq, pixelCount) := acc' in
            let row := r * blockSize + Z.of_nat y in
            let col := c * blockSize + Z.of_nat x in
            if (row <? infoHeight) && (col <? infoWidth) then
              let pixelValue := pixelAt data (row * infoWidth + col) in
              ((blockSum + pixelValue)%float,
               (blockSumSq + pixelValue * pixelValue)%float,
               pixelCount + 1)
            else acc')
         (seq 0 (Z.to_nat blockSize)) acc)
    (seq 0 (Z.to_nat blockSize)) (0%float, 0%float, 0).

(** The two outer loops: [(sharpBlockCount, totalBlockCount)]. *)
Definition countBlocks (data : Buffer) (infoWidth infoHeight blockSize : Z)
  : Z * Z :=
  let blockRows := infoHeight / blockSize in
  let blockCols := infoWidth / blockSize in
  fold_left
    (fun acc r =>
       fold_left
         (fun acc' c =>
            let '(sharpBlockCount, totalBlockCount) := acc' in
            let '(blockSum, blockSumSq, pixelCount) :=
              blockSums data infoWidth infoHeight blockSize
                        (Z.of_nat r) (Z.of_nat c) in
            if 0 <? pixelCount then
              let blockMean := (blockSum / float_of_Z pixelCount)%float in
              let blockVariance :=
                (blockSumSq / float_of_Z pixelCount - blockMean * blockMean)%float in
              ((if PrimFloat.ltb 100%float blockVariance
                then sharpBlockCount + 1 else sharpBlockCount),
               totalBlockCount + 1)
            else acc')
         (seq 0 (Z.to_nat blockCols)) acc)
    (seq 0 (Z.to_nat blockRows)) (0, 0).

(** The histogram of [data] summed over the bins 50 to 255. *)
Definition strongEdges (data : Buffer) : Z :=
  Z.of_nat (List.length (filter (fun b => 50 <=? Z.of_N (Byte.to_N b)) data)).

Section WithEnv.
Variable env : Env.

(** The outer [try] block: the four methods and their vote. *)
Definition advancedDetection (imageBuffer : Buffer) : Result Detection :=
  rbind (sharp_metadata env imageBuffer) (fun metadata =>
  let width := Sharp.width metadata in
  let height := Sharp.height metadata in
  rbind (sharp_grayscale_stats env imageBuffer) (fun grayscaleStats =>
  rbind (sharp_convolve_buffer env highPassKernel imageBuffer) (fun sharpened =>
  rbind (sharp_stats env sharpened) (fun sharpenedStats =>
  rbind (firstChannel grayscaleStats) (fun original0 =>
  rbind (firstChannel sharpenedStats) (fun sharpened0 =>
  let originalStdDev := Sharp.stdev original0 in
  let sharpenedStdDev := Sharp.stdev sharpened0 in
  let sharpeningResponse :=
    ((sharpenedStdDev - originalStdDev) / originalStdDev)%float in
  let isBlurryBySharpening :=
    PrimFloat.ltb SHARPENING_RESPONSE_THRESHOLD sharpeningResponse in
  let blockSize := Z.max (Z.min width height / 20) 10 in
  rbind (sharp_convolve_raw env laplacianKernel imageBuffer) (fun edges =>
  let data := Sharp.data edges in
  let '(sharpBlockCount, totalBlockCount) :=
    countBlocks data (Sharp.info_width edges) (Sharp.info_height edges)
                blockSize in
  let sharpBlockPercentage :=
    (float_of_Z sharpBlockCount / float_of_Z totalBlockCount * 100)%float in
  let isBlurryByBlockAnalysis :=
    PrimFloat.ltb sharpBlockPercentage SHARP_BLOCK_THRESHOLD in
  let totalPixels := width * height in
  let strongEdgePixels := strongEdges data in
  let strongEdgePercentage :=
    (float_of_Z strongEdgePixels / float_of_Z totalPixels * 100)%float in
  let isBlurryByEdgeDistribution :=
    PrimFloat.ltb strongEdgePercentage STRONG_EDGE_THRESHOLD in
  rbind (sharp_convolve_stats env sobelXKernel imageBuffer) (fun horizGradient =>
  rbind (sharp_convolve_stats env sobelYKernel imageBuffer) (fun vertGradient =>
  let GRADIENT_THRESHOLD := float_of_Z (width * height * 5) in
  rbind (firstChannel horizGradient) (fun horiz0 =>
  rbind (firstChannel vertGradient) (fun vert0 =>
  let horizGradientSum := Sharp.sum horiz0 in
  let vertGradientSum := Sharp.sum vert0 in
  let isBlurryByGradient :=
    PrimFloat.ltb horizGradientSum GRADIENT_THRESHOLD
    && PrimFloat.ltb vertGradientSum GRADIENT_THRESHOLD in
  let blurryVotes :=
    Z.of_nat (List.length (filter (fun v : bool => v)
      [isBlurryBySharpening; isBlurryByBlockAnalysis;
       isBlurryByEdgeDistribution; isBlurryByGradient])) in
  let isBlurry := 2 <=? blurryVotes in
  let directionalBlurRatio :=
    (js_max horizGradientSum vertGradientSum
     / js_min horizGradientSum vertGradientSum)%float in
  let isMotionBlur :=
    PrimFloat.ltb 3%float directionalBlurRatio
    && (PrimFloat.ltb horizGradientSum GRADIENT_THRESHOLD
        || PrimFloat.ltb vertGradientSum GRADIENT_THRESHOLD) in
  let blurReason :=
    if isBlurry || isMotionBlur then
      if isMotionBlur then Some "Motion blur detected"
      else if isBlurryBySharpening
           then Some "Low frequency content (overall blur)"
      else if isBlurryByBlockAnalysis then Some "Insufficient sharp details"
      else if isBlurryByEdgeDistribution then Some "Weak edge definition"
      else if isBlurryByGradient then Some "Poor focus measure"
      else Some "Multiple blur indicators detected"
    else None in
  Ok {| isBlurry := isBlurry || isMotionBlur;
        reason := blurReason;
        details :=
          Some (BlurMethods isBlurryBySharpening isBlurryByBlockAnalysis
                  isBlurryByEdgeDistribution isBlurryByGradient
                  sharpeningResponse sharpBlockPercentage
                  strongEdgePercentage horizGradientSum vertGradientSum
                  isMotionBlur directionalBlurRatio blurryVotes
                  width height) |}))))))))))).

(** The inner [try] block: the single standard-deviation test. *)
Definition fallbackDetection (imageBuffer : Buffer) : Result Detection :=
  rbind (sharp_grayscale_stats env imageBuffer) (fun stats =>
  rbind (firstChannel stats) (fun channel0 =>
  let stdDev := Sharp.stdev channel0 in
  let isLowContrast := PrimFloat.ltb stdDev 25%float in
  Ok {| isBlurry := isLowContrast;
        reason := if isLowContrast
                  then Some "Low image contrast (fallback detection)"
                  else None;
        details := Some (BlurFallback stdDev) |})).

Definition detectBlurryImage (imageBuffer : Buffer) : Detection :=
  match advancedDetection imageBuffer with
  | Ok detection => detection
  | Throw error =>
      match fallbackDetection imageBuffer with
      | Ok detection => detection
      | Throw innerError =>
          {| isBlurry := true;
             reason := Some "Image analysis failed";
             details := Some (BlurError (message error)) |}
      end
  end.

End WithEnv.

End BlurDetection.

(** ** processor.js *)

Module Processor.
Import Prisma.

Definition setStatus (s : ImageStatus) : UpdateData :=
  {| set_status := Some s; set_metaData := None;
     set_processedPath := None; set_processedSize := None |}.

(** [data: { status: "FAILED", metaData }]. *)
Definition setFailed (m : MetaData) : UpdateData :=
  {| set_status := Some FAILED; set_metaData := Some m;
     set_processedPath := None; set_processedSize := None |}.

(** The [metaData] each rejection writes. *)
Definition sizeRejection (reason : option string) (w h len : Z) : MetaData :=
  {| rejectionReason := reason;
     validationErrors := Some [size_validation_failed];
     pHash := None; similarTo := None; technicalError := None;
     width := Some w; height := Some h; fileSize := Some len;
     format := None; processingTime := None; faceCount := None;
     faceData := None; blurDetails := None |}.

Definition faceRejection (v : FaceDetection.Validation) : MetaData :=
  {| rejectionReason := FaceDetection.reason v;
     validationErrors := Some [multiple_faces_detected];
     pHash := None; similarTo := None; technicalError := None;
     width := None; height := None; fileSize := None;
     format := None; processingTime := None; faceCount := None;
     faceData := Some (FaceDetection.details v); blurDetails := None |}.

Definition blurRejection (b : BlurDetection.Detection) : MetaData :=
  {| rejectionReason := Some "Image is too blurry. Please upload a clearer photo.";
     validationErrors := Some [blurry_image_detected];
     pHash := None; similarTo := None; technicalError := None;
     width := None; height := None; fileSize := None;
     format := None; processingTime := None; faceCount := None;
     faceData := None;
     blurDetails :=
       Some (match BlurDetection.details b with
             | Some d => d
             | None => BlurReason (BlurDetection.reason b)
             end) |}.

Definition duplicateRejection (imageHash : string)
           (similar : DuplicateDetection.Candidate.t) : MetaData :=
  {| rejectionReason :=
       Some ("Duplicate of image: " ++ DuplicateDetection.Candidate.id similar
             ++ " (" ++ DuplicateDetection.Candidate.originalName similar ++ ")");
     validationErrors := Some [duplicate_image_detected];
     pHash := Some imageHash;
     similarTo := Some (DuplicateDetection.Candidate.id similar);
     technicalError := None;
     width := None; height := None; fileSize := None;
     format := None; processingTime := None; faceCount := None;
     faceData := None; blurDetails := None |}.

(** The message and the code the [catch] block picks. *)
Definition userFriendlyMessage (error : Error) : string :=
  if message_includes error "duplicate" then
    "This image appears to be a duplicate of one you've already uploaded"
  else if message_includes error "resolution"
          || message_includes error "dimensions" then
    "Image resolution is too low. Please upload a larger image (minimum 800x800px)"
  else if message_includes error "size" then
    "Image file size is too small. Please upload a larger image file (minimum 100KB)"
  else if message_includes error "format"
          || message_includes error "unsupported" then
    "Unsupported image format. Please use JPEG, PNG, or HEIC formats"
  else if message_includes error "face" then
    "Multiple faces detected in image. Please upload a photo with at most one face."
  else "Image processing failed".

Definition validationError (error : Error) : ValidationError :=
  if message_includes error "duplicate" then duplicate_image_detected
  else if message_includes error "resolution"
          || message_includes error "dimensions" then size_validation_failed
  else if message_includes error "size" then size_validation_failed
  else if message_includes error "format"
          || message_includes error "unsupported" then format_validation_failed
  else if message_includes error "face" then multiple_faces_detected
  else processing_error.

(** [faceValidation.details.faceCount || 0]. *)
Definition faceCountOrZero (v : FaceDetection.Validation) : Z :=
  match Diagnostics.faceCount (FaceDetection.details v) with
  | Some n => n
  | None => 0
  end.

Section WithEnv.
Variable env : Env.

Definition development : bool :=
  match NODE_ENV env with
  | Some v => String.eqb v "development"
  | None => false
  end.

Definition errorMetaData (error : Error) : MetaData :=
  {| rejectionReason := Some (userFriendlyMessage error);
     validationErrors := Some [validationError error];
     pHash := None; similarTo := None;
     technicalError := if development then message error else None;
     width := None; height := None; fileSize := None;
     format := None; processingTime := None; faceCount := None;
     faceData := None; blurDetails := None |}.

(** The [catch (error)] block of [processImage]. *)
Definition onError (imageId : string) (error : Error) : M (option Image) :=
  (update env imageId (setFailed (errorMetaData error)) ;;;
   findUnique env imageId)%prisma.

(** The face stage with its own [try]/[catch]: [inl] is the early
    [return] of the rejection, [inr] the verdict the run goes on with. *)
Definition faceStage (imageId : string) (imageBuffer : Buffer)
  : M (option Image + FaceDetection.Validation) :=
  tryCatch
    (faceValidation <-
       invoke FaceStage
         (ret (FaceDetection.validateFacesWithOverride env imageBuffer)) ;;
     if negb (FaceDetection.isValid faceValidation) then
       update env imageId (setFailed (faceRejection faceValidation)) ;;;
       row <- findUnique env imageId ;;
       ret (inl row)
     else ret (inr faceValidation))%prisma
    (fun faceError =>
       ret (inr {| FaceDetection.isValid := true;
                   FaceDetection.reason := None;
                   FaceDetection.details :=
                     {| Diagnostics.faceCount := Some 0;
                        markers := [];
                        detail_error := Some (message faceError);
                        faces := None; regionCount := None;
                        avgStdDev := None; originalResult := None |} |})).

(** What follows the duplicate check: the derivative and the PROCESSED
    row. *)
Definition accept (imageId : string) (image : Image) (imageBuffer : Buffer)
           (imageHash : string) (faceValidation : FaceDetection.Validation)
  : M (option Image) :=
  (processedImageBuffer <- await (sharp_derivative env imageBuffer) ;;
   metadata <- await (sharp_metadata env processedImageBuffer) ;;
   processedPath <-
     await (saveImageToStorage env processedImageBuffer
              (processedFilename env (originalName image))
              "uploads/processed") ;;
   row <-
     update env imageId
       {| set_status := Some PROCESSED;
          set_metaData :=
            Some {| rejectionReason := None; validationErrors := None;
                    pHash := Some imageHash; similarTo := None;
                    technicalError := None;
                    width := Some (Sharp.width metadata);
                    height := Some (Sharp.height metadata);
                    fileSize := None;
                    format := Some (Sharp.format metadata);
                    processingTime := Some (nowISO env);
                    Prisma.faceCount := Some (faceCountOrZero faceValidation);
                    faceData := None; blurDetails := None |};
          set_processedPath := Some processedPath;
          set_processedSize := Some (buffer_length processedImageBuffer) |} ;;
   ret (Some row))%prisma.

(** The [try] block of [processImage]. *)
Definition pipeline (imageId : string) (image : Image) : M (option Image) :=
  (update env imageId (setStatus PROCESSING) ;;;
   imageBuffer <- await (getImageBuffer env (originalPath image)) ;;
   sizeValidation <-
     invoke SizeStage
       (ret (SizeValidation.validateImageSize env imageBuffer)) ;;
   if negb (SizeValidation.isValid sizeValidation) then
     forWidth <- await (sharp_metadata env imageBuffer) ;;
     forHeight <- await (sharp_metadata env imageBuffer) ;;
     update env imageId
       (setFailed (sizeRejection (SizeValidation.reason sizeValidation)
                     (Sharp.width forWidth) (Sharp.height forHeight)
                     (buffer_length imageBuffer))) ;;;
     findUnique env imageId
   else
     faceOutcome <- faceStage imageId imageBuffer ;;
     match faceOutcome with
     | inl row => ret row
     | inr faceValidation =>
         blurDetection <-
           invoke BlurStage
             (ret (BlurDetection.detectBlurryImage env imageBuffer)) ;;
         if BlurDetection.isBlurry blurDetection then
           update env imageId (setFailed (blurRejection blurDetection)) ;;;
           findUnique env imageId
         else
           imageHash <-
             invoke HashStage
               (await (DuplicateDetection.generateImageHash env imageBuffer)) ;;
           duplicate <-
             invoke DuplicateStage
               (DuplicateDetection.checkDuplicateImage env imageHash
                  (Some imageId) (originalName image)) ;;
           if DuplicateDetection.isDuplicate duplicate then
             match DuplicateDetection.similarImage duplicate with
             | Some similar =>
                 update env imageId
                   (setFailed (duplicateRejection imageHash similar)) ;;;
                 findUnique env imageId
             | None =>
                 throw (Js.error "Cannot read properties of null (reading 'id')")
             end
           else accept imageId image imageBuffer imageHash faceValidation
     end)%prisma.

Definition processImage (imageId : string) : M (option Image) :=
  (found <- findUnique env imageId ;;
   match found with
   | None => throw (apiError 404 "Image not found")
   | Some image =>
       if negb (status_eqb (status image) PENDING) then ret (Some image)
       else tryCatch (pipeline imageId image) (onError imageId)
   end)%prisma.

End WithEnv.

End Processor.

(** ** imageService.js

    The service the controller requires.  Its [validateImageSize],
    [generateImageHash] and [checkDuplicateImage] are the same text as the
    ones of [services/image/], so the definitions above stand for them; its
    [processImage] is its own: size, then hash and duplicate check, with no
    face or blur stage and no "face" row in the error categories. *)

Module ImageService.
Import Prisma.

Definition userFriendlyMessage (error : Error) : string :=
  if message_includes error "duplicate" then
    "This image appears to be a duplicate of one you've already uploaded"
  else if message_includes error "resolution"
          || message_includes error "dimensions" then
    "Image resolution is too low. Please upload a larger image (minimum 800x800px)"
  else if message_includes error "size" then
    "Image file size is too small. Please upload a larger image file (minimum 100KB)"
  else if message_includes error "format"
          || message_includes error "unsupported" then
    "Unsupported image format. Please use JPEG, PNG, or HEIC formats"
  else "Image processing failed".

Definition validationError (error : Error) : ValidationError :=
  if message_includes error "duplicate" then duplicate_image_detected
  else if message_includes error "resolution"
          || message_includes error "dimensions" then size_validation_failed
  else if message_includes error "size" then size_validation_failed
  else if message_includes error "format"
          || message_includes error "unsupported" then format_validation_failed
  else processing_error.

Section WithEnv.
Variable env : Env.

Definition errorMetaData (error : Error) : MetaData :=
  {| rejectionReason := Some (userFriendlyMessage error);
     validationErrors := Some [validationError error];
     pHash := None; similarTo := None;
     technicalError :=
       if Processor.development env then message error else None;
     width := None; height := None; fileSize := None;
     format := None; processingTime := None; faceCount := None;
     faceData := None; blurDetails := None |}.

Definition onError (imageId : string) (error : Error) : M (option Image) :=
  (update env imageId (Processor.setFailed (errorMetaData error)) ;;;
   findUnique env imageId)%prisma.

(** The [try] block of [processImage]. *)
Definition pipeline (imageId : string) (image : Image) : M (option Image) :=
  (update env imageId (Processor.setStatus PROCESSING) ;;;
   imageBuffer <- await (getImageBuffer env (originalPath image)) ;;
   sizeValidation <-
     invoke SizeStage (ret (SizeValidation.validateImageSize env imageBuffer)) ;;
   if negb (SizeValidation.isValid sizeValidation) then
     forWidth <- await (sharp_metadata env imageBuffer) ;;
     forHeight <- await (sharp_metadata env imageBuffer) ;;
     update env imageId
       (Processor.setFailed
          (Processor.sizeRejection (SizeValidation.reason sizeValidation)
             (Sharp.width forWidth) (Sharp.height forHeight)
             (buffer_length imageBuffer))) ;;;
     findUnique env imageId
   else
     imageHash <-
       invoke HashStage
         (await (DuplicateDetection.generateImageHash env imageBuffer)) ;;
     duplicate <-
       invoke DuplicateStage
         (DuplicateDetection.checkDuplicateImage env imageHash
            (Some imageId) (originalName image)) ;;
     if DuplicateDetection.isDuplicate duplicate then
       match DuplicateDetection.similarImage duplicate with
       | Some similar =>
           update env imageId
             (Processor.setFailed
                (Processor.duplicateRejection imageHash similar)) ;;;
           findUnique env imageId
       | None =>
           throw (Js.error "Cannot read properties of null (reading 'id')")
       end
     else
       processedImageBuffer <- await (sharp_derivative env imageBuffer) ;;
       metadata <- await (sharp_metadata env processedImageBuffer) ;;
       processedPath <-
         await (writeProcessed env processedImageBuffer
                  (originalName image) (originalPath image)) ;;
       row <-
         update env imageId
           {| set_status := Some PROCESSED;
              set_metaData :=
                Some {| rejectionReason := None; validationErrors := None;
                        pHash := Some imageHash; similarTo := None;
                        technicalError := None;
                        width := Some (Sharp.width metadata);
                        height := Some (Sharp.height metadata);
                        fileSize := None;
                        format := Some (Sharp.format metadata);
                        processingTime := Some (nowISO env);
                        faceCount := None;
                        faceData := None; blurDetails := None |};
              set_processedPath := Some processedPath;
              set_processedSize := Some (buffer_length processedImageBuffer) |} ;;
       ret (Some row))%prisma.

Definition processImage (imageId : string) : M (option Image) :=
  (found <- findUnique env imageId ;;
   match found with
   | None => throw (apiError 404 "Image not found")
   | Some image =>
       if negb (status_eqb (status image) PENDING) then ret (Some image)
       else tryCatch (pipeline imageId image) (onError imageId)
   end)%prisma.

End WithEnv.

End ImageService.

(** ** The image controller *)

Module ImageController.
Import Prisma.

(** What a handler does with the request: it answers with a JSON body, or
    hands an error to [next]. *)
Inductive Response :=
| Json (httpStatus : Z) (success : bool) (message : string) (imageId : string)
| Next (error : Error).

Section WithEnv.
Variable env : Env.

(** [POST /api/images/:id/process]. *)
Definition processImage (id : string) : World -> Response * World :=
  fun w =>
    match
      (found <- findUnique env id ;;
       match found with
       | None => throw (apiError 404 "Image not found")
       | Some image =>
           if status_eqb (status image) PROCESSED
           then throw (apiError 400 "Image already processed")
           else
             ImageService.processImage env id ;;;
             ret (Json 202 true "Image processing started" id)
       end)%prisma w
    with
    | (Ok response, w') => (response, w')
    | (Throw error, w') => (Next error, w')
    end.

End WithEnv.

End ImageController.

(** ** Fixtures: concrete collaborators, rows and worlds *)

Import Prisma.
Import DuplicateDetection.

Definition sizeEnv (md : Result Sharp.Metadata) : Env :=
  {| sharp_metadata := fun _ => md;
     sharp_stats := fun _ => Throw (Js.error "no statistics");
     sharp_grayscale_stats := fun _ => Throw (Js.error "no statistics");
     sharp_convolve_buffer := fun _ _ => Throw (Js.error "no convolution");
     sharp_convolve_raw := fun _ _ => Throw (Js.error "no convolution");
     sharp_convolve_stats := fun _ _ => Throw (Js.error "no convolution");
     sharp_thumbnail := fun _ => Throw (Js.error "no thumbnail");
     sharp_derivative := fun _ => Throw (Js.error "no derivative");
     detectFaces := fun _ => Throw (Js.error "no estimate");
     getImageBuffer := fun _ => Throw (Js.error "ENOENT");
     saveImageToStorage := fun _ _ _ => Throw (Js.error "EACCES");
     processedFilename := fun name => name;
     writeProcessed := fun _ _ _ => Throw (Js.error "EACCES");
     nowISO := "2025-05-18T08:58:11.000Z";
     NODE_ENV := None;
     prismaFault := None |}.

Definition blob (n : Z) : Buffer := repeat Byte.x00 (Z.to_nat n).

Definition dims (w h : Z) : Sharp.Metadata :=
  {| Sharp.width := w; Sharp.height := h; Sharp.format := "jpeg" |}.

(** The rows the candidate query selects from a table. *)
Definition candidatesOf (excludeId : option string) (rows : list Image)
  : list Candidate.t :=
  map select
      (filter (fun r => status_eqb (status r) PROCESSED
                        && negb (excluded excludeId r)) rows).

Definition row (i name : string) (s : ImageStatus) (m : option MetaData) : Image :=
  {| id := i; originalName := name; originalSize := 204800;
     originalPath := "uploads/original/" ++ i ++ ".jpg";
     processedPath := None; processedSize := None; fileType := "jpg";
     status := s; metaData := m |}.

Definition hashed (h : string) : option MetaData :=
  Some {| rejectionReason := None; validationErrors := None; pHash := Some h;
          similarTo := None; technicalError := None; width := Some 800;
          height := Some 800; fileSize := None; format := Some "jpeg";
          processingTime := Some "2025-05-18T08:58:11.000Z";
          faceCount := Some 1; faceData := None; blurDetails := None |}.

Definition unhashed : option MetaData :=
  Some {| rejectionReason := None; validationErrors := None; pHash := None;
          similarTo := None; technicalError := None; width := Some 800;
          height := Some 800; fileSize := None; format := Some "jpeg";
          processingTime := None; faceCount := None; faceData := None;
          blurDetails := None |}.

Definition world (rows : list Image) : World := {| images := rows; trace := [] |}.

Definition quietEnv : Env := sizeEnv (Ok (dims 900 900)).

Definition withinThreshold (hash : string) (c : Candidate.t) : Prop :=
  exists h : string,
    storedHash c = Some h /\ distance hash h <= SIMILARITY_THRESHOLD.

(** A scene: what the collaborators answer for every buffer.  The
    convolutions fail, so that blur detection runs its fallback. *)
Definition studio (md : Result Sharp.Metadata) (stats gray : Result Sharp.Stats)
           (faces : Result FaceDetection) (pixels original : Result Buffer)
           (mode : option string) (fault : option Error) : Env :=
  {| sharp_metadata := fun _ => md;
     sharp_stats := fun _ => stats;
     sharp_grayscale_stats := fun _ => gray;
     sharp_convolve_buffer := fun _ _ => Throw (Js.error "convolve: out of memory");
     sharp_convolve_raw := fun _ _ => Throw (Js.error "convolve: out of memory");
     sharp_convolve_stats := fun _ _ => Throw (Js.error "convolve: out of memory");
     sharp_thumbnail := fun _ => pixels;
     sharp_derivative := fun _ => Ok (blob 2048);
     detectFaces := fun _ => faces;
     getImageBuffer := fun _ => original;
     saveImageToStorage :=
       fun _ filename directory => Ok (directory ++ "/" ++ filename);
     processedFilename := fun _ => "cat-processed-1747558691000.jpg";
     writeProcessed := fun _ _ _ => Ok "uploads/processed/cat-processed.jpg";
     nowISO := "2025-05-18T08:58:11.000Z";
     NODE_ENV := mode;
     prismaFault := fault |}.

Definition flat (sigma : float) : Sharp.Stats :=
  {| Sharp.channels :=
       [ {| Sharp.stdev := sigma; Sharp.sum := 0%float |};
         {| Sharp.stdev := sigma; Sharp.sum := 0%float |};
         {| Sharp.stdev := sigma; Sharp.sum := 0%float |} ] |}.

Definition oneFace : FaceDetection := {| fd_faceCount := 1; fd_details := [] |}.
Definition twoFaces : FaceDetection := {| fd_faceCount := 2; fd_details := [] |}.

(** A 4000x2000 photograph with busy colours, one with quiet colours, and a
    1000x1000 picture in which the estimator sees two faces. *)
Definition groupPhoto : Env :=
  studio (Ok (dims 4000 2000)) (Ok (flat 70%float)) (Ok (flat 70%float))
         (Ok oneFace) (Ok (blob 1024)) (Ok (blob 204800)) None None.

Definition quietPhoto : Env :=
  studio (Ok (dims 4000 2000)) (Ok (flat 40%float)) (Ok (flat 40%float))
         (Ok oneFace) (Ok (blob 1024)) (Ok (blob 204800)) None None.

Definition smallPair : Env :=
  studio (Ok (dims 1000 1000)) (Ok (flat 70%float)) (Ok (flat 70%float))
         (Ok twoFaces) (Ok (blob 1024)) (Ok (blob 204800)) None None.

(** The 4000x2000 photograph cut short in transit: the header gives its
    dimensions, the pixels cannot be decoded. *)
Definition truncatedPhoto : Env :=
  studio (Ok (dims 4000 2000))
         (Throw (Js.error "VipsJpeg: Premature end of input file"))
         (Throw (Js.error "VipsJpeg: Premature end of input file"))
         (Ok oneFace) (Ok (blob 1024)) (Ok (blob 204800)) None None.

(** An image nothing can be read from. *)
Definition unreadable : Env :=
  studio (Throw (Js.error "Input buffer contains unsupported image format"))
         (Throw (Js.error "Input buffer contains unsupported image format"))
         (Throw (Js.error "Input buffer contains unsupported image format"))
         (Throw (Js.error "Input buffer contains unsupported image format"))
         (Throw (Js.error "Input buffer contains unsupported image format"))
         (Ok (blob 204800)) None None.

(** The row with the given id is in the table. *)
Definition present (rowId : string) (w : World) : Prop :=
  exists r : Image, find (fun x => String.eqb (id x) rowId) (images w) = Some r.

(** Running [m] never removes the row. *)
Definition keeps (rowId : string) {A} (m : M A) : Prop :=
  forall w, present rowId w -> present rowId (snd (m w)).

(** The verdict of the duplicate check on a list of candidates. *)
Definition verdict (hash originalFileName : string) (candidates : list Candidate.t)
  : DuplicateCheck :=
  match
    (if truthy originalFileName
     then find (fun img =>
                  String.eqb (toLowerCase (Candidate.originalName img))
                             (toLowerCase originalFileName))
               candidates
     else None)
  with
  | Some exactMatch => {| isDuplicate := true; similarImage := Some exactMatch |}
  | None => scan hash candidates
  end.

(** A run that ends in a rejection.  It returns the row as it is now
    stored: the upload as it was, but FAILED and with [m] as its
    [metaData].  The table is the old one after the write of PROCESSING
    and the write of FAILED with [m], both to the row with this id; and the
    trace shows the move to PROCESSING, the given stages in that order and
    no other, then the write of FAILED. *)
Definition rejects (run : M (option Image)) (imageId : string) (image : Image)
           (w : World) (stages : list Stage) (m : MetaData) : Prop :=
  exists (r : Image) (w' : World),
    run w = (Ok (Some r), w')
    /\ find (fun x => String.eqb (id x) imageId) (images w') = Some r
    /\ r = {| id := id image; originalName := originalName image;
              originalSize := originalSize image;
              originalPath := originalPath image;
              processedPath := processedPath image;
              processedSize := processedSize image;
              fileType := fileType image;
              status := FAILED; metaData := Some m |}
    /\ images w'
       = replace_row imageId
           {| set_status := Some FAILED; set_metaData := Some m;
              set_processedPath := None; set_processedSize := None |}
           (replace_row imageId
              {| set_status := Some PROCESSING; set_metaData := None;
                 set_processedPath := None; set_processedSize := None |}
              (images w))
    /\ trace w'
       = (trace w ++ Updated imageId PROCESSING
                  :: map Invoked stages ++ [Updated imageId FAILED])%list.

(** Scenes for whole runs: a sharp, decodable single portrait of the given
    dimensions (blur detection falls back to the deviation test, which it
    passes at 60), and worlds holding a PENDING upload. *)
Definition portrait (w h : Z) : Env :=
  studio (Ok (dims w h)) (Ok (flat 60%float)) (Ok (flat 60%float))
         (Ok oneFace) (Ok (blob 1024)) (Ok (blob 204800)) None None.

Definition pendingRow : Image := row "n" "cat.jpg" PENDING None.

Definition failedRow : Image :=
  row "n" "cat.jpg" FAILED
      (Some {| rejectionReason := Some "Image is too blurry. Please upload a clearer photo.";
               validationErrors := Some [blurry_image_detected];
               pHash := None; similarTo := None; technicalError := None;
               width := None; height := None; fileSize := None; format := None;
               processingTime := None; faceCount := None; faceData := None;
               blurDetails := None |}).

(** The hash of a thumbnail of 1024 equal pixels. *)
Definition uniformHash : string := "dc6c58c971715e8043baef058b675eec".

(** A scene whose blob store has lost the original. *)
Definition lostOriginal (mode : option string) : Env :=
  studio (Ok (dims 900 900)) (Ok (flat 60%float)) (Ok (flat 60%float))
         (Ok oneFace) (Ok (blob 1024))
         (Throw (Js.error "ENOENT: no such file or directory, open 'uploads/original/n.jpg'"))
         mode None.

(** A thumbnail whose first pixel alone is bright. *)
Definition brightCornerPixels : Buffer := Byte.xff :: repeat Byte.x00 1023.

Definition brightCorner : Env :=
  studio (Ok (dims 900 900)) (Ok (flat 60%float)) (Ok (flat 60%float))
         (Ok oneFace) (Ok brightCornerPixels) (Ok (blob 204800)) None None.

(** The characters of a lowercase hexadecimal string. *)
Definition is_hex_digit (c : ascii) : bool :=
  existsb (Ascii.eqb c)
    [ "0"; "1"; "2"; "3"; "4"; "5"; "6"; "7";
      "8"; "9"; "a"; "b"; "c"; "d"; "e"; "f" ]%char.

Fixpoint all_hex (s : string) : bool :=
  match s with
  | EmptyString => true
  | String c rest => is_hex_digit c && all_hex rest
  end.

(** A laboratory for the four blur methods on a 20x20 picture: the grey
    and the sharpened deviations, the Laplacian response and the two
    gradient sums are given. *)
Definition deviation (sigma total : float) : Sharp.Stats :=
  {| Sharp.channels := [ {| Sharp.stdev := sigma; Sharp.sum := total |} ] |}.

Definition lab (grey sharpened : float) (response : Buffer) (horiz vert : float) : Env :=
  {| sharp_metadata := fun _ => Ok (dims 20 20);
     sharp_stats := fun _ => Ok (deviation sharpened 0%float);
     sharp_grayscale_stats := fun _ => Ok (deviation grey 0%float);
     sharp_convolve_buffer := fun _ b => Ok b;
     sharp_convolve_raw :=
       fun _ _ => Ok {| Sharp.data := response;
                        Sharp.info_width := 20; Sharp.info_height := 20 |};
     sharp_convolve_stats :=
       fun kernel _ =>
         if Z.eqb (nth 1 kernel 0) 0
         then Ok (deviation 0%float horiz) else Ok (deviation 0%float vert);
     sharp_thumbnail := fun _ => Ok (blob 1024);
     sharp_derivative := fun _ => Ok (blob 2048);
     detectFaces := fun _ => Ok oneFace;
     getImageBuffer := fun _ => Ok (blob 204800);
     saveImageToStorage :=
       fun _ filename directory => Ok (directory ++ "/" ++ filename);
     processedFilename := fun _ => "cat-processed-1747558691000.jpg";
     writeProcessed := fun _ _ _ => Ok "uploads/processed/cat-processed.jpg";
     nowISO := "2025-05-18T08:58:11.000Z";
     NODE_ENV := None;
     prismaFault := None |}.

Definition flatResponse : Buffer := repeat Byte.x00 400.

Definition checkerResponse : Buffer :=
  flat_map (fun _ => [Byte.x00; Byte.xff]) (seq 0 200).

(** ** Specifications of runs *)

(** [triple P m Q E]: started in a world that satisfies [P], the run [m]
    ends in a world that satisfies [Q a] when it returns [a], and in one
    that satisfies [E] when it throws. *)
Definition triple {A} (P : World -> Prop) (m : M A)
           (Q : A -> World -> Prop) (E : World -> Prop) : Prop :=
  forall w, P w ->
    match m w with
    | (Ok a, w') => Q a w'
    | (Throw _, w') => E w'
    end.

(** The world after an event was logged, and after the row [r] with the
    id [rowId] was updated with [d]. *)
Definition logged (e : Event) (w : World) : World :=
  {| images := images w; trace := (trace w ++ [e])%list |}.

Definition written (rowId : string) (d : UpdateData) (r : Image) (w : World)
  : World :=
  {| images := replace_row rowId d (images w);
     trace := (trace w ++ [Updated rowId (status (apply_update d r))])%list |}.

(** The three shapes of [data] the pipelines pass to an update: the move
    to PROCESSING, a FAILED verdict with its [metaData], and the PROCESSED
    verdict, which comes with the derivative's path and size and with a
    [metaData] that holds the hash and no rejection. *)
Inductive pipelineWrite : UpdateData -> Prop :=
| writesProcessing : pipelineWrite (Processor.setStatus PROCESSING)
| writesFailed (m : MetaData) : pipelineWrite (Processor.setFailed m)
| writesProcessed (m : MetaData) (path : string) (size : Z) (h : string) :
    pHash m = Some h ->
    pipelineWrite {| set_status := Some PROCESSED; set_metaData := Some m;
                     set_processedPath := Some path;
                     set_processedSize := Some size |}.

(** Two versions of a row that describe the same upload. *)
Definition sameUpload (r r' : Image) : Prop :=
  id r' = id r /\ originalName r' = originalName r
  /\ originalSize r' = originalSize r /\ originalPath r' = originalPath r
  /\ fileType r' = fileType r.

(** [w'] differs from [w] at most in the verdict columns of the rows with
    the id [rowId]: the table has the same rows in the same order, every
    row is still the same upload, rows with another id are untouched, no
    row was moved to PENDING, and the trace was only extended. *)
Definition touchesOnly (rowId : string) (w w' : World) : Prop :=
  Forall2 (fun r r' => sameUpload r r'
                       /\ (id r <> rowId -> r' = r)
                       /\ (status r' = PENDING -> r' = r))
          (images w) (images w')
  /\ exists t, trace w' = (trace w ++ t)%list.

(** A PROCESSED row is complete when it names its derivative and stores a
    hash. *)
Definition complete (r : Image) : Prop :=
  status r = PROCESSED ->
  processedPath r <> None /\ processedSize r <> None
  /\ exists m h, metaData r = Some m /\ pHash m = Some h.

(** The two states a run leaves a row in.  Rejected: FAILED, the
    derivative columns as they were, and a [metaData] with a reason and
    exactly one code.  Admitted: PROCESSED with the derivative's path and
    size, a hash, and neither reason nor codes. *)
Definition rejectedWith (code : ValidationError) (image r : Image) : Prop :=
  status r = FAILED
  /\ processedPath r = processedPath image
  /\ processedSize r = processedSize image
  /\ exists m reason,
       metaData r = Some m /\ validationErrors m = Some [code]
       /\ rejectionReason m = Some reason.

Definition admitted (r : Image) : Prop :=
  status r = PROCESSED
  /\ exists path size m h,
       processedPath r = Some path /\ processedSize r = Some size
       /\ metaData r = Some m /\ pHash m = Some h
       /\ validationErrors m = None /\ rejectionReason m = None.

(** The row of the upload [image] is in the table, its derivative columns
    as in [image]. *)
Definition stored (imageId : string) (image : Image) (w : World) : Prop :=
  exists r,
    find (fun x => String.eqb (id x) imageId) (images w) = Some r
    /\ sameUpload image r
    /\ processedPath r = processedPath image
    /\ processedSize r = processedSize image.

(** What a finished run returns: the row as it is now stored, rejected
    with one of the [allowed] codes or admitted. *)
Definition settled (allowed : ValidationError -> Prop) (imageId : string)
           (image : Image) (result : option Image) (w : World) : Prop :=
  exists r,
    result = Some r
    /\ find (fun x => String.eqb (id x) imageId) (images w) = Some r
    /\ sameUpload image r
    /\ ((exists code, allowed code /\ rejectedWith code image r) \/ admitted r).

(** ** config/s3.js and storage.js

    The file system and the bucket are maps: a path under the working
    directory names a file's bytes, a directory or nothing, and a bucket
    name and a key name an object's bytes or nothing.  The calls into [fs]
    and into the bucket client can throw.  Some of that follows from the
    contents: a missing file cannot be read, a directory cannot be written
    to or unlinked.  The rest is up to the operating system and the bucket
    service, which may refuse any call (no permission, a missing parent
    directory, a full disk, no network): [refuses] says which calls they
    refuse, and with what error. *)

Module Storage.
Import Prisma.

(** What the modules read from [process.env], and the two library calls
    whose results they pass on. *)
Record Config := {
  AWS_ACCESS_KEY_ID : option string;
  STORAGE_TYPE : option string;
  S3_BUCKET_NAME : option string;
  APP_URL : option string;
  (** [path.join(process.cwd(), p)] *)
  inWorkingDirectory : string -> string;
  (** [getSignedUrl(s3, new GetObjectCommand({ Bucket, Key }),
      { expiresIn: 3600 })] *)
  getSignedUrl : string -> string -> Result string
}.

(** ToBoolean on an environment variable. *)
Definition present (v : option string) : bool :=
  match v with
  | Some s => truthy s
  | None => false
  end.

(** config/s3.js:
    [!process.env.AWS_ACCESS_KEY_ID || process.env.STORAGE_TYPE === "local"]. *)
Definition useLocalStorage (cfg : Config) : bool :=
  negb (present (AWS_ACCESS_KEY_ID cfg))
  || match STORAGE_TYPE cfg with
     | Some t => String.eqb t "local"
     | None => false
     end.

(** [process.env.APP_URL || "http://localhost:3001"]. *)
Definition appUrl (cfg : Config) : string :=
  match APP_URL cfg with
  | Some u => if truthy u then u else "http://localhost:3001"
  | None => "http://localhost:3001"
  end.

(** The calls into [fs] and the commands sent to the bucket. *)
Inductive Call :=
| Mkdir (dirPath : string)
| WriteFile (filePath : string)
| ReadFile (filePath : string)
| Unlink (filePath : string)
| PutObject (bucketName key : string)
| GetObject (bucketName key : string)
| DeleteObject (bucketName key : string).

Record Blobs := {
  disk : string -> option Buffer;
  directories : string -> bool;
  s3 : string -> string -> option Buffer;
  refuses : Call -> option Error
}.

(** Code that reads and writes the files and may throw. *)
Definition IO (A : Type) : Type := Blobs -> Result A * Blobs.

Definition done {A} (a : A) : IO A := fun s => (Ok a, s).

Definition andThen {A B} (m : IO A) (k : A -> IO B) : IO B :=
  fun s =>
    match m s with
    | (Ok a, s') => k a s'
    | (Throw e, s') => (Throw e, s')
    end.

(** [fs.existsSync(p)]. *)
Definition existsSync (p : string) (s : Blobs) : bool :=
  match disk s p with
  | Some _ => true
  | None => directories s p
  end.

(** [fs.mkdirSync(p, { recursive: true })]. *)
Definition mkdirSync (p : string) : IO unit :=
  fun s =>
    match refuses s (Mkdir p) with
    | Some e => (Throw e, s)
    | None =>
        match disk s p with
        | Some _ =>
            (Throw (Js.error ("EEXIST: file already exists, mkdir '" ++ p ++ "'")),
             s)
        | None =>
            (Ok tt,
             {| disk := disk s;
                directories := fun q => String.eqb q p || directories s q;
                s3 := s3 s; refuses := refuses s |})
        end
    end.

(** [fs.writeFileSync(p, b)]. *)
Definition writeFileSync (p : string) (b : Buffer) : IO unit :=
  fun s =>
    match refuses s (WriteFile p) with
    | Some e => (Throw e, s)
    | None =>
        if directories s p then
          (Throw (Js.error ("EISDIR: illegal operation on a directory, open '"
                            ++ p ++ "'")), s)
        else
          (Ok tt,
           {| disk := fun q => if String.eqb q p then Some b else disk s q;
              directories := directories s;
              s3 := s3 s; refuses := refuses s |})
    end.

(** [fs.readFileSync(p)]. *)
Definition readFileSync (p : string) (s : Blobs) : Result Buffer :=
  match refuses s (ReadFile p) with
  | Some e => Throw e
  | None =>
      if directories s p then
        Throw (Js.error "EISDIR: illegal operation on a directory, read")
      else
        match disk s p with
        | Some bytes => Ok bytes
        | None =>
            Throw (Js.error ("ENOENT: no such file or directory, open '"
                             ++ p ++ "'"))
        end
  end.

(** [fs.unlinkSync(p)]. *)
Definition unlinkSync (p : string) : IO unit :=
  fun s =>
    match refuses s (Unlink p) with
    | Some e => (Throw e, s)
    | None =>
        if directories s p then
          (Throw (Js.error ("EISDIR: illegal operation on a directory, unlink '"
                            ++ p ++ "'")), s)
        else
          match disk s p with
          | Some _ =>
              (Ok tt,
               {| disk := fun q => if String.eqb q p then None else disk s q;
                  directories := directories s;
                  s3 := s3 s; refuses := refuses s |})
          | None =>
              (Throw (Js.error ("ENOENT: no such file or directory, unlink '"
                                ++ p ++ "'")), s)
          end
    end.

(** [s3.send(new PutObjectCommand({ Bucket, Key, Body }))],
    [s3.send(new GetObjectCommand({ Bucket, Key }))] with the chunks of the
    body put together, and
    [s3.send(new DeleteObjectCommand({ Bucket, Key }))], which succeeds
    whether or not there is such an object. *)
Definition putObject (name key : string) (body : Buffer) : IO unit :=
  fun s =>
    match refuses s (PutObject name key) with
    | Some e => (Throw e, s)
    | None =>
        (Ok tt,
         {| disk := disk s; directories := directories s;
            s3 := fun n k =>
                    if String.eqb n name && String.eqb k key then Some body
                    else s3 s n k;
            refuses := refuses s |})
    end.

Definition getObject (name key : string) (s : Blobs) : Result Buffer :=
  match refuses s (GetObject name key) with
  | Some e => Throw e
  | None =>
      match s3 s name key with
      | Some body => Ok body
      | None => Throw (Js.error "The specified key does not exist.")
      end
  end.

Definition deleteObject (name key : string) : IO unit :=
  fun s =>
    match refuses s (DeleteObject name key) with
    | Some e => (Throw e, s)
    | None =>
        (Ok tt,
         {| disk := disk s; directories := directories s;
            s3 := fun n k =>
                    if String.eqb n name && String.eqb k key then None
                    else s3 s n k;
            refuses := refuses s |})
    end.

(** [directory.replace(/^uploads\//, "")]. *)
Definition withoutUploads (directory : string) : string :=
  if prefix "uploads/" directory
  then substring 8 (String.length directory - 8) directory
  else directory.

Section WithConfig.
Variable cfg : Config.

(** [getImageBuffer]: [readFileSync] on the local disk; from the bucket,
    the chunks of the object's body put together. *)
Definition getImageBuffer (imagePath : string) (s : Blobs) : Result Buffer :=
  if useLocalStorage cfg then
    readFileSync (inWorkingDirectory cfg imagePath) s
  else
    match S3_BUCKET_NAME cfg with
    | Some bucketName =>
        if truthy bucketName then getObject bucketName imagePath s
        else Throw (Js.error "S3 bucket name not configured")
    | None => Throw (Js.error "S3 bucket name not configured")
    end.

(** [saveImageToStorage]: on the local disk the directory is created when
    it is missing, then the file is written; in the bucket the object is put
    under the key (its content type is left out here). *)
Definition saveImageToStorage (imageBuffer : Buffer) (filename directory : string)
  : IO string :=
  if useLocalStorage cfg then
    let dirPath := inWorkingDirectory cfg directory in
    andThen
      (fun s => if negb (existsSync dirPath s) then mkdirSync dirPath s
                else (Ok tt, s))
      (fun _ =>
         let imagePath := directory ++ "/" ++ filename in
         andThen (writeFileSync (inWorkingDirectory cfg imagePath) imageBuffer)
                 (fun _ => done imagePath))
  else
    match S3_BUCKET_NAME cfg with
    | Some bucketName =>
        if truthy bucketName then
          let key := withoutUploads directory ++ "/" ++ filename in
          andThen (putObject bucketName key imageBuffer) (fun _ => done key)
        else fun s => (Throw (Js.error "S3 bucket name not configured"), s)
    | None => fun s => (Throw (Js.error "S3 bucket name not configured"), s)
    end.

(** One of the two blocks of the local branch of [deleteImageFiles]. *)
Definition unlinkIfExists (filePath : option string) : IO unit :=
  match filePath with
  | Some p =>
      if truthy p then
        fun s =>
          if existsSync (inWorkingDirectory cfg p) s
          then unlinkSync (inWorkingDirectory cfg p) s
          else (Ok tt, s)
      else done tt
  | None => done tt
  end.

(** One of the two blocks of its bucket branch. *)
Definition deleteIfNamed (bucketName : string) (key : option string) : IO unit :=
  match key with
  | Some k => if truthy k then deleteObject bucketName k else done tt
  | None => done tt
  end.

(** [deleteImageFiles]: with the bucket storage and no bucket name it warns
    and returns. *)
Definition deleteImageFiles (originalPath : string) (processedPath : option string)
  : IO unit :=
  if useLocalStorage cfg then
    andThen (unlinkIfExists (Some originalPath))
            (fun _ => unlinkIfExists processedPath)
  else
    match S3_BUCKET_NAME cfg with
    | Some bucketName =>
        if truthy bucketName then
          andThen (deleteIfNamed bucketName (Some originalPath))
                  (fun _ => deleteIfNamed bucketName processedPath)
        else done tt
    | None => done tt
    end.

Variable env : Env.

(** [getImageUrl(imageId, type)]; its [catch] block logs and rethrows. *)
Definition getImageUrl (imageId type : string) : M string :=
  (image <- findUnique env imageId ;;
   match image with
   | None => throw (apiError 404 "Image not found")
   | Some image =>
       let imagePath :=
         if String.eqb type "original" then Some (originalPath image)
         else processedPath image in
       match imagePath with
       | None => throw (apiError 404 (type ++ " image not found"))
       | Some imagePath =>
           if negb (truthy imagePath)
           then throw (apiError 404 (type ++ " image not found"))
           else if useLocalStorage cfg
           then ret (appUrl cfg ++ "/" ++ imagePath)
           else
             match S3_BUCKET_NAME cfg with
             | Some bucketName =>
                 if truthy bucketName
                 then await (getSignedUrl cfg bucketName imagePath)
                 else ret (appUrl cfg ++ "/fallback-image")
             | None => ret (appUrl cfg ++ "/fallback-image")
             end
       end
   end)%prisma.

End WithConfig.

End Storage.

(** ** Deleting an upload: processor.js, imageService.js, the controller *)

Module Deletion.
Import Prisma.

(** The table together with the stored files. *)
Record System := { table : World; blobs : Storage.Blobs }.

Fixpoint remove_row (rowId : string) (rows : list Image) : list Image :=
  match rows with
  | [] => []
  | r :: rest =>
      if String.eqb (id r) rowId then rest else r :: remove_row rowId rest
  end.

Section WithEnv.
Variable env : Env.
Variable cfg : Storage.Config.

(** [prisma.image.delete({ where: { id } })]: rejects when no row has the
    id. *)
Definition delete (rowId : string) : M Image :=
  fun w =>
    match prismaFault env with
    | Some e => (Throw e, w)
    | None =>
        match find (fun r => String.eqb (id r) rowId) (images w) with
        | None => (Throw (Js.error "Record to delete does not exist."), w)
        | Some r =>
            (Ok r, {| images := remove_row rowId (images w); trace := trace w |})
        end
    end.

(** [deleteImage] of processor.js: when deleting the files throws, the
    record is not deleted. *)
Definition deleteImage (imageId : string) (s : System) : Result unit * System :=
  match findUnique env imageId (table s) with
  | (Throw error, w) => (Throw error, {| table := w; blobs := blobs s |})
  | (Ok None, w) =>
      (Throw (apiError 404 "Image not found"), {| table := w; blobs := blobs s |})
  | (Ok (Some image), w) =>
      match Storage.deleteImageFiles cfg (originalPath image)
              (processedPath image) (blobs s) with
      | (Throw error, files) => (Throw error, {| table := w; blobs := files |})
      | (Ok _, files) =>
          match delete imageId w with
          | (Ok _, w') => (Ok tt, {| table := w'; blobs := files |})
          | (Throw error, w') => (Throw error, {| table := w'; blobs := files |})
          end
      end
  end.

(** [deleteImage] of imageService.js, which deletes the files itself. *)
Definition service_deleteImage (imageId : string) (s : System)
  : Result unit * System :=
  match findUnique env imageId (table s) with
  | (Throw error, w) => (Throw error, {| table := w; blobs := blobs s |})
  | (Ok None, w) =>
      (Throw (apiError 404 "Image not found"), {| table := w; blobs := blobs s |})
  | (Ok (Some image), w) =>
      let deleteFiles : Storage.IO unit :=
        if Storage.useLocalStorage cfg then
          Storage.andThen
            (Storage.unlinkIfExists cfg (Some (originalPath image)))
            (fun _ => Storage.unlinkIfExists cfg (processedPath image))
        else
          match Storage.S3_BUCKET_NAME cfg with
          | Some bucketName =>
              if negb (truthy bucketName) then Storage.done tt
              else
                Storage.andThen
                  (Storage.deleteIfNamed bucketName (Some (originalPath image)))
                  (fun _ => Storage.deleteIfNamed bucketName (processedPath image))
          | None => Storage.done tt
          end in
      match deleteFiles (blobs s) with
      | (Throw error, files) => (Throw error, {| table := w; blobs := files |})
      | (Ok _, files) =>
          match delete imageId w with
          | (Ok _, w') => (Ok tt, {| table := w'; blobs := files |})
          | (Throw error, w') => (Throw error, {| table := w'; blobs := files |})
          end
      end
  end.

End WithEnv.

End Deletion.

(** ** utils/errorHandler.js and two more handlers of the controller *)

Module Handlers.
Import Prisma.

(** [errorHandler]: the status and the message of the JSON answer,
    [err.statusCode || 500] and [err.message || "Server Error"]. *)
Definition errorHandler (err : Error) : Z * string :=
  (match statusCode err with
   | Some code => if code =? 0 then 500 else code
   | None => 500
   end,
   match message err with
   | Some m => if truthy m then m else "Server Error"
   | None => "Server Error"
   end).

(** What a handler does with the request: [res.status(200).json(...)] with
    the image and its URLs, or with the deletion message, or
    [next(error)]. *)
Inductive Reply :=
| ImageWithUrls (image : Image) (original : string) (processed : option string)
| Message (httpStatus : Z) (text : string)
| Next (error : Error).

(** The status line a client sees. *)
Definition httpStatus (r : Reply) : Z :=
  match r with
  | ImageWithUrls _ _ _ => 200
  | Message code _ => code
  | Next error => fst (errorHandler error)
  end.

Section WithEnv.
Variable env : Env.
Variable cfg : Storage.Config.

(** [GET /api/images/:id]. *)
Definition getImageById (id : string) : World -> Reply * World :=
  fun w =>
    match
      (image <- findUnique env id ;;
       match image with
       | None => throw (apiError 404 "Image not found")
       | Some image =>
           original <- Storage.getImageUrl cfg env id "original" ;;
           match processedPath image with
           | Some p =>
               if truthy p then
                 processed <- Storage.getImageUrl cfg env id "processed" ;;
                 ret (ImageWithUrls image original (Some processed))
               else ret (ImageWithUrls image original None)
           | None => ret (ImageWithUrls image original None)
           end
       end)%prisma w
    with
    | (Ok reply, w') => (reply, w')
    | (Throw error, w') => (Next error, w')
    end.

(** [DELETE /api/images/:id]. *)
Definition deleteImage (id : string) (s : Deletion.System)
  : Reply * Deletion.System :=
  match findUnique env id (Deletion.table s) with
  | (Throw error, w) =>
      (Next error, {| Deletion.table := w; Deletion.blobs := Deletion.blobs s |})
  | (Ok None, w) =>
      (Next (apiError 404 "Image not found"),
       {| Deletion.table := w; Deletion.blobs := Deletion.blobs s |})
  | (Ok (Some _), w) =>
      match Deletion.service_deleteImage env cfg id
              {| Deletion.table := w; Deletion.blobs := Deletion.blobs s |} with
      | (Ok _, s') => (Message 200 "Image deleted successfully", s')
      | (Throw error, s') => (Next error, s')
      end
  end.

End WithEnv.

End Handlers.

(** Storage configurations: the local disk under /srv/app, a bucket, and
    the bucket storage selected with no bucket named. *)
Definition localConfig : Storage.Config :=
  {| Storage.AWS_ACCESS_KEY_ID := None;
     Storage.STORAGE_TYPE := Some "local";
     Storage.S3_BUCKET_NAME := None;
     Storage.APP_URL := None;
     Storage.inWorkingDirectory := fun p => "/srv/app/" ++ p;
     Storage.getSignedUrl := fun _ _ => Throw (Js.error "no credentials") |}.

Definition bucketConfig (bucketName : option string) : Storage.Config :=
  {| Storage.AWS_ACCESS_KEY_ID := Some "AKIAEXAMPLE";
     Storage.STORAGE_TYPE := Some "s3";
     Storage.S3_BUCKET_NAME := bucketName;
     Storage.APP_URL := Some "https://photos.example.org";
     Storage.inWorkingDirectory := fun p => "/srv/app/" ++ p;
     Storage.getSignedUrl :=
       fun name key =>
         Ok ("https://" ++ name ++ ".s3.amazonaws.com/" ++ key
             ++ "?X-Amz-Expires=3600") |}.

(** An empty disk and bucket on which nothing is refused. *)
Definition noBlobs : Storage.Blobs :=
  {| Storage.disk := fun _ => None;
     Storage.directories := fun _ => false;
     Storage.s3 := fun _ _ => None;
     Storage.refuses := fun _ => None |}.

(** A table of two uploads with the file of the second one on the disk,
    and the same with a disk that does not let that file be unlinked. *)
Definition shelfFiles (refuses : Storage.Call -> option Error) : Storage.Blobs :=
  {| Storage.disk :=
       fun q => if String.eqb q "/srv/app/uploads/original/n.jpg"
                then Some (blob 16) else None;
     Storage.directories := fun q => String.eqb q "/srv/app/uploads/original";
     Storage.s3 := fun _ _ => None;
     Storage.refuses := refuses |}.

Definition shelf : Deletion.System :=
  {| Deletion.table :=
       world [row "a" "cat.jpg" PROCESSED (hashed uniformHash); pendingRow];
     Deletion.blobs := shelfFiles (fun _ => None) |}.

Definition readOnlyShelf : Deletion.System :=
  {| Deletion.table :=
       world [row "a" "cat.jpg" PROCESSED (hashed uniformHash); pendingRow];
     Deletion.blobs :=
       shelfFiles
         (fun call =>
            match call with
            | Storage.Unlink p =>
                Some (Js.error ("EACCES: permission denied, unlink '" ++ p ++ "'"))
            | _ => None
            end) |}.

(** ** faceDetection.js: grouping the regions of an estimate *)

Module RegionGrouping.

(** An element of the [regions] array of [findPotentialFaceRegions]. *)
Record Region := {
  x : float;
  y : float;
  contrast : float;
  confidence : float
}.

(** [used.has(i)] on the set of indices. *)
Definition has (i : nat) (used : list nat) : bool := existsb (Nat.eqb i) used.

Section WithMath.
(** [Math.pow(d, 2)]. *)
Variable pow2 : float -> float.

(** [Math.sqrt(Math.pow(a.x - b.x, 2) + Math.pow(a.y - b.y, 2)) < 60]. *)
Definition near (a b : Region) : bool :=
  PrimFloat.ltb
    (PrimFloat.sqrt (pow2 (x a - x b) + pow2 (y a - y b))%float) 60%float.

(** The body of the inner loop, for the region [ri] the group started
    from: [(currentGroup, used)] after the index [j]. *)
Definition absorb (regions : list Region) (ri : Region)
           (acc : list Region * list nat) (j : nat) : list Region * list nat :=
  let '(currentGroup, used) := acc in
  if has j used then acc
  else
    match nth_error regions j with
    | Some rj =>
        if near ri rj then ((currentGroup ++ [rj])%list, j :: used) else acc
    | None => acc
    end.

(** The body of the outer loop: [(groups, used)] after the index [i]. *)
Definition startGroup (regions : list Region)
           (acc : list (list Region) * list nat) (i : nat)
  : list (list Region) * list nat :=
  let '(groups, used) := acc in
  if has i used then acc
  else
    match nth_error regions i with
    | Some ri =>
        let '(currentGroup, used') :=
          fold_left (absorb regions ri) (seq 0 (List.length regions))
                    ([ri], i :: used) in
        ((groups ++ [currentGroup])%list, used')
    | None => acc
    end.

Definition groupNearbyRegions (regions : list Region) : list (list Region) :=
  fst (fold_left (startGroup regions) (seq 0 (List.length regions)) ([], [])).

End WithMath.

End RegionGrouping.

(** A row has a derivative only when it is PROCESSED. *)
Definition derivativeMeansProcessed (r : Image) : Prop :=
  processedPath r <> None -> status r = PROCESSED.

(** The stages accepted [imageBuffer], and [r] stores its hash. *)
Definition passedBy (env : Env) (imageBuffer : Buffer) (r : Image) : Prop :=
  SizeValidation.isValid (SizeValidation.validateImageSize env imageBuffer) = true
  /\ FaceDetection.isValid (FaceDetection.validateFacesWithOverride env imageBuffer)
     = true
  /\ BlurDetection.isBlurry (BlurDetection.detectBlurryImage env imageBuffer) = false
  /\ exists m h,
       generateImageHash env imageBuffer = Ok h
       /\ metaData r = Some m /\ pHash m = Some h.

(** Two uploads of the same file, waiting to be processed. *)
Definition twoCopies : World :=
  world [row "a" "cat.jpg" PENDING None; row "b" "cat-copy.jpg" PENDING None].

(** ** The table of the catch block, read as a relation

    The exception's message mentions [needle]: the text holds it as a
    substring.  An exception without a message mentions nothing. *)
Definition mentions (error : Error) (needle : string) : Prop :=
  exists text before after : string,
    message error = Some text /\ text = (before ++ needle ++ after)%string.

(** A scene whose blob store has lost an original named after a face. *)
Definition lostFace : Env :=
  studio (Ok (dims 900 900)) (Ok (flat 60%float)) (Ok (flat 60%float))
         (Ok oneFace) (Ok (blob 1024))
         (Throw (Js.error "ENOENT: no such file or directory, open 'uploads/original/face-1.jpg'"))
         None None.

(** ** The duplicate check, in the words of its description

    What the description of the duplicate check speaks of, defined without
    the code: names that are equal up to the case of their letters, the
    expansion of a hash digit by digit, and the Hamming distance of two
    expansions. *)

Module DuplicateSpec.

(** [capital] is a capital letter of the Latin-1 range and [small] its
    lower-case form. *)
Definition capitalOf (small capital : ascii) : Prop :=
  let n := nat_of_ascii capital in
  ((65 <= n <= 90)%nat \/ ((192 <= n <= 222)%nat /\ n <> 215%nat))
  /\ nat_of_ascii small = (n + 32)%nat.

(** Two characters that are the same letter, whatever their case. *)
Definition sameLetter (a b : ascii) : Prop :=
  a = b \/ capitalOf a b \/ capitalOf b a.

(** Two names that are equal when case is ignored: they have the same
    length and, place by place, the same letters. *)
Fixpoint equalIgnoringCase (s t : string) : Prop :=
  match s, t with
  | EmptyString, EmptyString => True
  | String a s', String b t' => sameLetter a b /\ equalIgnoringCase s' t'
  | _, _ => False
  end.




End DuplicateSpec.

(** What a step of [deleteImageFiles] may do to the files: directories,
    objects elsewhere and what is refused stay, and a file is either gone
    or as it was. *)
Definition onlyRemoves (s s' : Storage.Blobs) : Prop :=
  Storage.directories s' = Storage.directories s
  /\ Storage.refuses s' = Storage.refuses s
  /\ (forall q, Storage.disk s' q = None \/ Storage.disk s' q = Storage.disk s q)
  /\ (forall n k, Storage.s3 s' n k = None \/ Storage.s3 s' n k = Storage.s3 s n k).

(** * Properties *)

(** ** MD5 test vectors *)

Example md5_empty :
  Hex.encode (Md5.digest []) = "d41d8cd98f00b204e9800998ecf8427e".
Proof. vm_compute. reflexivity. Qed.
Example md5_abc :
  Hex.encode (Md5.digest [97;98;99]) = "900150983cd24fb0d6963f7d28e17f72".
Proof. vm_compute. reflexivity. Qed.
Example md5_128 :
  Hex.encode (Md5.digest (128 :: repeat 0 127)) = "2f9580f22554e6bba4269b3496906279".
Proof. vm_compute. reflexivity. Qed.
Example md5_ff :
  Hex.encode (Md5.digest (repeat 255 128)) = "dc6c58c971715e8043baef058b675eec".
Proof. vm_compute. reflexivity. Qed.
Example md5_a64 :
  Hex.encode (Md5.digest (repeat 97 64)) = "014842d480b571495a4a0363793f7367".
Proof. vm_compute. reflexivity. Qed.

(** ** The size stage *)

Lemma tenths_of_kb_nearest (len : Z) :
  Z.abs (1024 * tenths_of_kb len - 10 * len) <= 512.
Proof.
  unfold tenths_of_kb.
  pose proof (Z.div_mod (10 * len + 512) 1024 ltac:(lia)) as E.
  pose proof (Z.mod_pos_bound (10 * len + 512) 1024 ltac:(lia)) as B.
  lia.
Qed.

(** C4. For a decodable image the size stage accepts exactly when the width
    and the height are at least 800 and the file has at least 100 * 1024
    bytes.  A rejection for the dimensions quotes 800x800 and the observed
    dimensions; a rejection for the byte length quotes 100KB and the
    observed length in KB to one decimal, the nearest tenth; the run
    records either under the code size_validation_failed. *)
Theorem validateImageSize_decodable
  (env : Env) (imageBuffer : Buffer) (metadata : Sharp.Metadata) :
  sharp_metadata env imageBuffer = Ok metadata ->
  let v := SizeValidation.validateImageSize env imageBuffer in
  let w := Sharp.width metadata in
  let h := Sharp.height metadata in
  let len := buffer_length imageBuffer in
  (SizeValidation.isValid v = true <-> 800 <= w /\ 800 <= h /\ 100 * 1024 <= len)
  /\ (w < 800 \/ h < 800 ->
      v = {| SizeValidation.isValid := false;
             SizeValidation.reason :=
               Some ("Image resolution too low. Minimum required: 800x800px, got: "
                     ++ show_number w ++ "x" ++ show_number h ++ "px") |})
  /\ (800 <= w -> 800 <= h -> len < 100 * 1024 ->
      v = {| SizeValidation.isValid := false;
             SizeValidation.reason :=
               Some ("Image file size too small. Minimum required: 100KB, got: "
                     ++ toFixed1_kb len ++ "KB") |}
      /\ toFixed1_kb len
         = show_number (tenths_of_kb len / 10) ++ "."
           ++ show_number (tenths_of_kb len mod 10)
      /\ Z.abs (1024 * tenths_of_kb len - 10 * len) <= 512)
  /\ (SizeValidation.isValid v = false ->
      Prisma.validationErrors
        (Processor.sizeRejection (SizeValidation.reason v) w h len)
      = Some [Prisma.size_validation_failed]
      /\ Prisma.rejectionReason
           (Processor.sizeRejection (SizeValidation.reason v) w h len)
         = SizeValidation.reason v).
Proof.
  intros Hmd v w h len.
  subst v. unfold SizeValidation.validateImageSize. rewrite Hmd.
  fold w h len.
  unfold SizeValidation.MIN_WIDTH, SizeValidation.MIN_HEIGHT,
    SizeValidation.MIN_SIZE_IN_BYTES.
  destruct (Z.ltb_spec w 800) as [Hw | Hw];
    destruct (Z.ltb_spec h 800) as [Hh | Hh];
    destruct (Z.ltb_spec len (100 * 1024)) as [Hl | Hl];
    cbn [orb SizeValidation.isValid SizeValidation.reason];
    repeat match goal with
           | |- _ /\ _ => split
           | |- _ <-> _ => split
           | |- _ -> _ => intro
           end;
    try lia; try discriminate; try reflexivity;
    try apply tenths_of_kb_nearest.
  all: try (change (show_number (100 * 1024 / 1024)) with "100"; reflexivity).
Qed.

Lemma validateImageSize_decodable_witness :
  SizeValidation.isValid
    (SizeValidation.validateImageSize (sizeEnv (Ok (dims 800 800)))
                                      (blob (100 * 1024))) = true.
Proof.
  apply (validateImageSize_decodable
           (sizeEnv (Ok (dims 800 800))) (blob (100 * 1024)) (dims 800 800)
           eq_refl).
  vm_compute. repeat split; discriminate.
Defined.

(** Exactly 800x800 at exactly 100 KB is accepted. *)
Example size_boundary_accepted :
  SizeValidation.validateImageSize (sizeEnv (Ok (dims 800 800))) (blob 102400)
  = {| SizeValidation.isValid := true; SizeValidation.reason := None |}.
Proof. vm_compute. reflexivity. Qed.

(** 799x800 is rejected, whatever the byte length. *)
Example size_799x800_rejected :
  SizeValidation.validateImageSize (sizeEnv (Ok (dims 799 800))) (blob 204800)
  = {| SizeValidation.isValid := false;
       SizeValidation.reason :=
         Some "Image resolution too low. Minimum required: 800x800px, got: 799x800px" |}.
Proof. vm_compute. reflexivity. Qed.

(** One byte short of 100 KB is rejected; the length shows rounded. *)
Example size_102399_rejected :
  SizeValidation.validateImageSize (sizeEnv (Ok (dims 800 800))) (blob 102399)
  = {| SizeValidation.isValid := false;
       SizeValidation.reason :=
         Some "Image file size too small. Minimum required: 100KB, got: 100.0KB" |}.
Proof. vm_compute. reflexivity. Qed.

(** Scenario 2 of the specification: 500x500, 200 KB. *)
Example size_500x500_reason :
  SizeValidation.reason
    (SizeValidation.validateImageSize (sizeEnv (Ok (dims 500 500))) (blob 204800))
  = Some "Image resolution too low. Minimum required: 800x800px, got: 500x500px".
Proof. vm_compute. reflexivity. Qed.

(** Scenario 3 of the specification: 900x900, 40 KB. *)
Example size_40KB_reason :
  SizeValidation.reason
    (SizeValidation.validateImageSize (sizeEnv (Ok (dims 900 900))) (blob 40960))
  = Some "Image file size too small. Minimum required: 100KB, got: 40.0KB".
Proof. vm_compute. reflexivity. Qed.

(** ** Running the record store *)

Lemma id_apply_update (d : UpdateData) (r : Image) : id (apply_update d r) = id r.
Proof. reflexivity. Qed.

Lemma find_replace_row (rows : list Image) (i : string) (d : UpdateData) (r : Image) :
  find (fun x => String.eqb (id x) i) rows = Some r ->
  find (fun x => String.eqb (id x) i) (replace_row i d rows)
  = Some (apply_update d r).
Proof.
  induction rows as [| x rows IH]; cbn [find replace_row]; [discriminate |].
  destruct (String.eqb (id x) i) eqn:E.
  - intros [= ->]. cbn [find]. rewrite id_apply_update, E. reflexivity.
  - intros H. cbn [find]. rewrite E. auto.
Qed.

Lemma findUnique_run (env : Env) (i : string) (w : World) :
  prismaFault env = None ->
  findUnique env i w = (Ok (find (fun x => String.eqb (id x) i) (images w)), w).
Proof. intros H. unfold findUnique. rewrite H. reflexivity. Qed.

Lemma update_run (env : Env) (i : string) (d : UpdateData) (w : World) (r : Image) :
  prismaFault env = None ->
  find (fun x => String.eqb (id x) i) (images w) = Some r ->
  update env i d w
  = (Ok (apply_update d r),
     {| images := replace_row i d (images w);
        trace := (trace w ++ [Updated i (status (apply_update d r))])%list |}).
Proof. intros H F. unfold update. rewrite H, F. reflexivity. Qed.

(** ** The duplicate check *)

Lemma status_eqb_eq (a b : ImageStatus) : status_eqb a b = true <-> a = b.
Proof. destruct a, b; cbn; split; congruence. Qed.

Lemma findProcessed_run (env : Env) (excludeId : option string) (w : World) :
  prismaFault env = None ->
  findProcessed env excludeId w = (Ok (candidatesOf excludeId (images w)), w).
Proof. intros H. unfold findProcessed. rewrite H. reflexivity. Qed.

(** Each hexadecimal digit expands to four binary characters. *)
Lemma nibble_length (h : ascii) (v : Z) :
  Hex.value h = Some v -> String.length (nibble h) = 4%nat.
Proof. intros H. unfold nibble. rewrite H. reflexivity. Qed.

Example hexToBinary_a3 : hexToBinary "a3" = "10100011".
Proof. reflexivity. Qed.

Example distance_one_bit :
  distance "d41d8cd98f00b204e9800998ecf8427e" "d41d8cd98f00b204e9800998ecf8427f" = 1.
Proof. vm_compute. reflexivity. Qed.

Example distance_four_bits :
  distance "d41d8cd98f00b204e9800998ecf8427e" "d41d8cd98f00b204e9800998ecf84271" = 4.
Proof. vm_compute. reflexivity. Qed.

(** C3, as amended. The candidate fetch of the duplicate check returns
    exactly the rows whose status is PROCESSED, the excluded row apart,
    whether or not they hold a pHash, each projected to its id, its
    originalName and its metaData; the query puts no condition on the
    pHash, which the hash path tests candidate by candidate. *)
Theorem findProcessed_selects_processed
  (env : Env) (excludeId : option string) (w : World) :
  prismaFault env = None ->
  exists candidates : list Candidate.t,
    findProcessed env excludeId w = (Ok candidates, w)
    /\ candidates
       = map select
           (filter (fun r => status_eqb (status r) PROCESSED
                             && negb (excluded excludeId r)) (images w))
    /\ forall c : Candidate.t,
         In c candidates <->
         exists r : Image,
           In r (images w) /\ status r = PROCESSED
           /\ excluded excludeId r = false
           /\ Candidate.id c = id r
           /\ Candidate.originalName c = originalName r
           /\ Candidate.metaData c = metaData r.
Proof.
  intros H. exists (candidatesOf excludeId (images w)).
  split; [apply findProcessed_run; assumption |].
  split; [reflexivity |].
  intros c. unfold candidatesOf. rewrite in_map_iff. split.
  - intros (r & <- & Hin). apply filter_In in Hin as (Hin & Hc).
    apply andb_true_iff in Hc as (Hs & He).
    apply status_eqb_eq in Hs. apply negb_true_iff in He.
    exists r. repeat split; assumption.
  - intros (r & Hin & Hs & He & Hi & Hn & Hm).
    exists r. split.
    + destruct c; cbn in *; subst; reflexivity.
    + apply filter_In. split; [assumption |].
      rewrite He. apply status_eqb_eq in Hs. rewrite Hs. reflexivity.
Qed.

(** A PROCESSED row that holds no pHash is among the candidates, and the
    file-name comparison reports it as the duplicate. *)
Lemma findProcessed_returns_unhashed :
  findProcessed quietEnv (Some "b") (world [row "a" "cat.jpg" PROCESSED unhashed])
  = (Ok [select (row "a" "cat.jpg" PROCESSED unhashed)],
     world [row "a" "cat.jpg" PROCESSED unhashed])
  /\ storedHash (select (row "a" "cat.jpg" PROCESSED unhashed)) = None
  /\ fst (checkDuplicateImage quietEnv "d41d8cd98f00b204e9800998ecf8427e"
            (Some "b") "CAT.JPG" (world [row "a" "cat.jpg" PROCESSED unhashed]))
     = Ok {| isDuplicate := true;
             similarImage := Some (select (row "a" "cat.jpg" PROCESSED unhashed)) |}.
Proof. repeat split. Qed.

Lemma findProcessed_selects_processed_witness :
  exists candidates : list Candidate.t,
    findProcessed quietEnv (Some "b")
      (world [row "a" "cat.jpg" PROCESSED unhashed; row "b" "dog.jpg" PROCESSED unhashed;
              row "c" "owl.jpg" FAILED None])
    = (Ok candidates,
       world [row "a" "cat.jpg" PROCESSED unhashed; row "b" "dog.jpg" PROCESSED unhashed;
              row "c" "owl.jpg" FAILED None])
    /\ candidates = [select (row "a" "cat.jpg" PROCESSED unhashed)].
Proof.
  destruct (findProcessed_selects_processed quietEnv (Some "b")
              (world [row "a" "cat.jpg" PROCESSED unhashed;
                      row "b" "dog.jpg" PROCESSED unhashed;
                      row "c" "owl.jpg" FAILED None]) eq_refl)
    as (candidates & Hrun & Heq & _).
  exists candidates. split; [exact Hrun | exact Heq].
Defined.

(** *** The hash path *)

Lemma scan_cons (hash : string) (c : Candidate.t) (l : list Candidate.t) :
  (withinThreshold hash c
   /\ scan hash (c :: l) = {| isDuplicate := true; similarImage := Some c |})
  \/ (~ withinThreshold hash c /\ scan hash (c :: l) = scan hash l).
Proof.
  cbn [scan]. unfold withinThreshold.
  destruct (storedHash c) as [h |] eqn:E.
  - destruct (Z.leb_spec (distance hash h) SIMILARITY_THRESHOLD) as [L | L].
    + left. split; [exists h; split; [reflexivity | exact L] | reflexivity].
    + right. split; [| reflexivity]. intros (h' & [= <-] & L'). lia.
  - right. split; [| reflexivity]. intros (h' & [=] & _).
Qed.

(** The scan stops at the first candidate within the threshold. *)
Lemma scan_first (hash : string) (l : list Candidate.t) :
  (exists l1 c l2,
      l = (l1 ++ c :: l2)%list
      /\ (forall c', In c' l1 -> ~ withinThreshold hash c')
      /\ withinThreshold hash c
      /\ scan hash l = {| isDuplicate := true; similarImage := Some c |})
  \/ ((forall c', In c' l -> ~ withinThreshold hash c')
      /\ scan hash l = {| isDuplicate := false; similarImage := None |}).
Proof.
  induction l as [| c l IH].
  - right. split; [intros c' [] | reflexivity].
  - destruct (scan_cons hash c l) as [(Hc & E) | (Hc & E)].
    + left. exists [], c, l. repeat split; [intros c' [] | exact Hc | exact E].
    + rewrite E. destruct IH as [(l1 & c0 & l2 & -> & Hl1 & Hc0 & E0) | (Hn & E0)].
      * left. exists (c :: l1), c0, l2. repeat split; try assumption.
        intros c' [<- | Hin]; [exact Hc | apply Hl1; exact Hin].
      * right. split; [| exact E0].
        intros c' [<- | Hin]; [exact Hc | apply Hn; exact Hin].
Qed.




Lemma truthy_true (s : string) : truthy s = true <-> s <> "".
Proof.
  unfold truthy. rewrite negb_true_iff. split.
  - intros E ->. discriminate.
  - intros N. apply String.eqb_neq. exact N.
Qed.

(** *** The code against the description *)

Lemma capital_spec (n : nat) :
  ((Nat.leb 65 n && Nat.leb n 90)
   || (Nat.leb 192 n && Nat.leb n 222 && negb (Nat.eqb n 215)))%bool = true
  <-> ((65 <= n <= 90)%nat \/ ((192 <= n <= 222)%nat /\ n <> 215%nat)).
Proof.
  rewrite orb_true_iff, !andb_true_iff, negb_true_iff, !Nat.leb_le, Nat.eqb_neq.
  tauto.
Qed.

Lemma nat_of_ascii_inj (a b : ascii) : nat_of_ascii a = nat_of_ascii b -> a = b.
Proof.
  intros H. rewrite <- (ascii_nat_embedding a), <- (ascii_nat_embedding b), H.
  reflexivity.
Qed.

Lemma lowerCaseUnit_value (c : ascii) :
  let n := nat_of_ascii c in
  (((65 <= n <= 90)%nat \/ ((192 <= n <= 222)%nat /\ n <> 215%nat))
   /\ nat_of_ascii (lowerCaseUnit c) = (n + 32)%nat)
  \/ (~ ((65 <= n <= 90)%nat \/ ((192 <= n <= 222)%nat /\ n <> 215%nat))
      /\ lowerCaseUnit c = c).
Proof.
  intros n. unfold lowerCaseUnit. fold n.
  destruct ((Nat.leb 65 n && Nat.leb n 90)
            || (Nat.leb 192 n && Nat.leb n 222 && negb (Nat.eqb n 215)))%bool eqn:E.
  - apply capital_spec in E. left. split; [exact E |].
    apply nat_ascii_embedding. lia.
  - right. split; [| reflexivity]. intros C. apply capital_spec in C. congruence.
Qed.

(** Two code units have the same lower-case form exactly when they are the
    same letter. *)
Lemma lowerCaseUnit_eq_iff (a b : ascii) :
  lowerCaseUnit a = lowerCaseUnit b <-> DuplicateSpec.sameLetter a b.
Proof.
  unfold DuplicateSpec.sameLetter, DuplicateSpec.capitalOf. cbv zeta.
  destruct (lowerCaseUnit_value a) as [(Ca & La) | (Ca & La)];
    destruct (lowerCaseUnit_value b) as [(Cb & Lb) | (Cb & Lb)].
  - split.
    + intros E. left. apply nat_of_ascii_inj.
      apply (f_equal nat_of_ascii) in E. lia.
    + intros [-> | [(_ & E) | (_ & E)]]; [reflexivity | lia | lia].
  - rewrite Lb. split.
    + intros E. right. right. split; [exact Ca |]. rewrite <- E. exact La.
    + intros [-> | [(C & _) | (_ & E)]];
        [destruct (Cb Ca) | destruct (Cb C) |].
      apply nat_of_ascii_inj. lia.
  - rewrite La. split.
    + intros E. right. left. split; [exact Cb |]. rewrite E. exact Lb.
    + intros [-> | [(_ & E) | (C & _)]];
        [destruct (Ca Cb) | | destruct (Ca C)].
      apply nat_of_ascii_inj. lia.
  - rewrite La, Lb. split.
    + intros E. left. exact E.
    + intros [E | [(C & _) | (C & _)]];
        [exact E | destruct (Cb C) | destruct (Ca C)].
Qed.

(** [a.toLowerCase() === b.toLowerCase()] compares two names without
    regard to case. *)
Lemma toLowerCase_eq_iff (s : string) :
  forall t : string,
    toLowerCase s = toLowerCase t <-> DuplicateSpec.equalIgnoringCase s t.
Proof.
  induction s as [| a s IH]; intros [| b t];
    cbn [toLowerCase DuplicateSpec.equalIgnoringCase].
  - tauto.
  - split; [discriminate | intros []].
  - split; [discriminate | intros []].
  - rewrite <- IH, <- lowerCaseUnit_eq_iff. split.
    + intros [= E1 E2]. split; assumption.
    + intros (E1 & E2). rewrite E1, E2. reflexivity.
Qed.



Lemma fold_left_same {A B} (f g : A -> B -> A) (l : list B) (a : A) :
  (forall x b, In b l -> f x b = g x b) -> fold_left f l a = fold_left g l a.
Proof.
  revert a. induction l as [| b l IH]; intros a H; [reflexivity |].
  cbn [fold_left]. rewrite (H a b (or_introl eq_refl)).
  apply IH. intros x b' Hb'. apply H. right. exact Hb'.
Qed.





(** The description at work on names and digits: ECOLE.JPG and ecole.jpg
    with an acute accent on the first letter (201 is the capital, 233 the
    small one) are equal with case ignored and different otherwise, the
    multiplication sign (215) and the division sign (247) are two different
    characters, and the digits [a] and [5] are four bits apart. *)
Example names_and_digits :
  DuplicateSpec.equalIgnoringCase (String "201" "COLE.JPG") (String "233" "cole.jpg")
  /\ String "201" "COLE.JPG" <> String "233" "cole.jpg"
  /\ toLowerCase (String "201" "COLE.JPG") = String "233" "cole.jpg"
  /\ toLowerCase (String "215" "") = String "215" ""
  /\ ~ DuplicateSpec.equalIgnoringCase (String "215" "") (String "247" "")
  /\ hexToBinary "a5F" = "101001011111"
  /\ distance "a" "5" = 4
  /\ distance "d41d8cd98f00b204e9800998ecf8427e" "d41d8cd98f00b204e9800998ecf84279" = 3.
Proof.
  split; [apply toLowerCase_eq_iff; reflexivity |].
  split; [discriminate |].
  split; [reflexivity |]. split; [reflexivity |].
  split; [rewrite <- toLowerCase_eq_iff; discriminate |].
  repeat split.
Qed.

(** A candidate stored under the capitalised, accented name is found by
    the lower-case one. *)
Example accented_name_matches :
  fst (checkDuplicateImage quietEnv "d41d8cd98f00b204e9800998ecf8427e" (Some "n")
         (String "233" "cole.jpg")
         (world [row "a" (String "201" "COLE.JPG") PROCESSED unhashed]))
  = Ok {| isDuplicate := true;
          similarImage :=
            Some (select (row "a" (String "201" "COLE.JPG") PROCESSED unhashed)) |}.
Proof. vm_compute. reflexivity. Qed.

(** *** The duplicate check on small corpora *)

(** Three bits apart is a duplicate, four bits apart is not. *)
Example duplicate_at_distance_3 :
  fst (checkDuplicateImage quietEnv "d41d8cd98f00b204e9800998ecf8427e" (Some "n") "new.jpg"
         (world [row "a" "cat.jpg" PROCESSED (hashed "d41d8cd98f00b204e9800998ecf84279")]))
  = Ok {| isDuplicate := true;
          similarImage :=
            Some (select (row "a" "cat.jpg" PROCESSED
                              (hashed "d41d8cd98f00b204e9800998ecf84279"))) |}.
Proof. vm_compute. reflexivity. Qed.

Example no_duplicate_at_distance_4 :
  fst (checkDuplicateImage quietEnv "d41d8cd98f00b204e9800998ecf8427e" (Some "n") "new.jpg"
         (world [row "a" "cat.jpg" PROCESSED (hashed "d41d8cd98f00b204e9800998ecf84271")]))
  = Ok {| isDuplicate := false; similarImage := None |}.
Proof. vm_compute. reflexivity. Qed.

(** The file name is compared before any hash: the second row wins by its
    name although the first one has the very hash. *)
Example name_match_comes_first :
  fst (checkDuplicateImage quietEnv "d41d8cd98f00b204e9800998ecf8427e" (Some "n") "Dog.JPG"
         (world [row "a" "cat.jpg" PROCESSED (hashed "d41d8cd98f00b204e9800998ecf8427e");
                 row "b" "dog.jpg" PROCESSED (hashed "900150983cd24fb0d6963f7d28e17f72")]))
  = Ok {| isDuplicate := true;
          similarImage :=
            Some (select (row "b" "dog.jpg" PROCESSED
                              (hashed "900150983cd24fb0d6963f7d28e17f72"))) |}.
Proof. vm_compute. reflexivity. Qed.

(** Rows that are not PROCESSED, and the row being processed, are no
    candidates. *)
Example only_processed_rows_count :
  fst (checkDuplicateImage quietEnv "d41d8cd98f00b204e9800998ecf8427e" (Some "n") "cat.jpg"
         (world [row "a" "cat.jpg" FAILED (hashed "d41d8cd98f00b204e9800998ecf8427e");
                 row "n" "cat.jpg" PROCESSED (hashed "d41d8cd98f00b204e9800998ecf8427e")]))
  = Ok {| isDuplicate := false; similarImage := None |}.
Proof. vm_compute. reflexivity. Qed.

(** ** The face stage *)

Lemma validateFaceCount_rejects_decoded (env : Env) (imageBuffer : Buffer) :
  FaceDetection.isValid (FaceDetection.validateFaceCount env imageBuffer) = false ->
  exists metadata, sharp_metadata env imageBuffer = Ok metadata.
Proof.
  unfold FaceDetection.validateFaceCount, FaceDetection.validateFaceCount_body.
  destruct (sharp_metadata env imageBuffer) as [metadata | e].
  - intros _. exists metadata. reflexivity.
  - cbn. discriminate.
Qed.

(** C7, as amended. When face validation rejects, the guarded stage looks
    at the image again: it accepts if the height exceeds the width or both
    dimensions are under 1200; failing that, it asks sharp for the colour
    statistics and accepts if the standard deviations of the channels
    average below 60, and it also accepts, failing open, if the statistics
    cannot be computed; only when the statistics are there and the average
    is not below 60 is the rejection returned as it was. *)
Theorem validateFacesWithOverride_overrides (env : Env) (imageBuffer : Buffer) :
  FaceDetection.isValid (FaceDetection.validateFaceCount env imageBuffer) = false ->
  exists metadata : Sharp.Metadata,
    sharp_metadata env imageBuffer = Ok metadata
    /\ let w := Sharp.width metadata in
       let h := Sharp.height metadata in
       let rejected := FaceDetection.validateFaceCount env imageBuffer in
       let guarded := FaceDetection.validateFacesWithOverride env imageBuffer in
       (h > w \/ (w < 1200 /\ h < 1200) ->
        FaceDetection.isValid guarded = true
        /\ FaceDetection.reason guarded = None
        /\ markers (FaceDetection.details guarded) = ["override"]
        /\ originalResult (FaceDetection.details guarded)
           = Some (FaceDetection.details rejected))
       /\ (forall stats : Sharp.Stats,
             ~ (h > w \/ (w < 1200 /\ h < 1200)) ->
             sharp_stats env imageBuffer = Ok stats ->
             let average :=
               (fold_left (fun acc ch => acc + Sharp.stdev ch)
                          (Sharp.channels stats) 0
                / float_of_Z (Z.of_nat (List.length (Sharp.channels stats))))%float in
             (PrimFloat.ltb average 60 = true ->
              FaceDetection.isValid guarded = true
              /\ FaceDetection.reason guarded = None
              /\ markers (FaceDetection.details guarded) = ["override"]
              /\ originalResult (FaceDetection.details guarded)
                 = Some (FaceDetection.details rejected))
             /\ (PrimFloat.ltb average 60 = false -> guarded = rejected))
       /\ (forall error : Error,
             ~ (h > w \/ (w < 1200 /\ h < 1200)) ->
             sharp_stats env imageBuffer = Throw error ->
             FaceDetection.isValid guarded = true
             /\ FaceDetection.reason guarded = None
             /\ markers (FaceDetection.details guarded) = ["validationFailed"]
             /\ detail_error (FaceDetection.details guarded) = Some (message error)).
Proof.
  intros Hrej.
  destruct (validateFaceCount_rejects_decoded env imageBuffer Hrej) as (metadata & Hmd).
  exists metadata. split; [exact Hmd |].
  intros w h rejected guarded.
  subst guarded.
  unfold FaceDetection.validateFacesWithOverride,
    FaceDetection.validateFacesWithOverride_body.
  change (FaceDetection.validateFaceCount env imageBuffer) with rejected in Hrej |- *.
  rewrite Hrej. cbn [negb].
  rewrite Hmd. cbn [rbind]. fold w h.
  assert (No : ~ (h > w \/ (w < 1200 /\ h < 1200)) ->
               (w <? h) || ((w <? 1200) && (h <? 1200)) = false).
  { intros Hov. apply not_true_is_false. intros T. apply Hov.
    apply orb_true_iff in T as [T | T].
    - left. apply Z.ltb_lt in T. lia.
    - right. apply andb_true_iff in T as (T1 & T2).
      split; apply Z.ltb_lt; assumption. }
  split; [| split].
  - intros Hov.
    assert (E : (w <? h) || ((w <? 1200) && (h <? 1200)) = true).
    { destruct Hov as [Hp | (Hw & Hh)].
      - apply orb_true_iff. left. apply Z.ltb_lt. lia.
      - apply orb_true_iff. right. apply andb_true_iff.
        split; apply Z.ltb_lt; assumption. }
    rewrite E. repeat split.
  - intros stats Hov Hst.
    rewrite (No Hov), Hst. cbn [rbind].
    unfold FaceDetection.averageStdDev.
    split; intros L; rewrite L; [repeat split | reflexivity].
  - intros error Hov Hst.
    rewrite (No Hov), Hst. cbn [rbind]. repeat split.
Qed.

Lemma validateFacesWithOverride_overrides_witness :
  FaceDetection.validateFacesWithOverride groupPhoto (blob 1024)
  = FaceDetection.validateFaceCount groupPhoto (blob 1024).
Proof.
  destruct (validateFacesWithOverride_overrides groupPhoto (blob 1024) eq_refl)
    as (metadata & Hmd & _ & Hstats & _).
  injection Hmd as <-.
  apply (Hstats (flat 70%float)); [| reflexivity | reflexivity].
  cbn. lia.
Defined.

(** A 4000x2000 photograph whose pixels sharp cannot decode: face validation
    rejects it on its dimensions, the height does not exceed the width, the
    dimensions are not under 1200, and there is no average deviation, below
    60 or otherwise, since the statistics cannot be had; yet the guarded
    stage accepts, and what it returns is not the rejection. *)
Lemma validateFacesWithOverride_accepts_without_statistics :
  FaceDetection.isValid (FaceDetection.validateFaceCount truncatedPhoto (blob 1024))
  = false
  /\ sharp_metadata truncatedPhoto (blob 1024) = Ok (dims 4000 2000)
  /\ ~ (2000 > 4000 \/ (4000 < 1200 /\ 2000 < 1200))
  /\ sharp_stats truncatedPhoto (blob 1024)
     = Throw (Js.error "VipsJpeg: Premature end of input file")
  /\ FaceDetection.isValid
       (FaceDetection.validateFacesWithOverride truncatedPhoto (blob 1024)) = true
  /\ FaceDetection.validateFacesWithOverride truncatedPhoto (blob 1024)
     <> FaceDetection.validateFaceCount truncatedPhoto (blob 1024).
Proof.
  split; [reflexivity |]. split; [reflexivity |]. split; [lia |].
  split; [reflexivity |]. split; [reflexivity |].
  intros E. apply (f_equal FaceDetection.isValid) in E. discriminate E.
Qed.

(** A wide high-resolution photograph is rejected, and the rejection stands
    when its colours are busy. *)
Example groupPhoto_rejected :
  FaceDetection.isValid (FaceDetection.validateFacesWithOverride groupPhoto (blob 1024))
  = false
  /\ FaceDetection.reason (FaceDetection.validateFacesWithOverride groupPhoto (blob 1024))
     = Some "Multiple faces likely in high-resolution group photo. Please upload photos with at most one face.".
Proof. split; reflexivity. Qed.

(** The same photograph with quiet colours (average deviation 40) passes. *)
Example quietPhoto_overridden :
  FaceDetection.isValid (FaceDetection.validateFaceCount quietPhoto (blob 1024)) = false
  /\ FaceDetection.isValid
       (FaceDetection.validateFacesWithOverride quietPhoto (blob 1024)) = true.
Proof. split; reflexivity. Qed.

(** Two faces in a picture under 1200x1200: rejected, then overridden. *)
Example smallPair_overridden :
  FaceDetection.isValid (FaceDetection.validateFaceCount smallPair (blob 1024)) = false
  /\ FaceDetection.isValid
       (FaceDetection.validateFacesWithOverride smallPair (blob 1024)) = true.
Proof. split; reflexivity. Qed.

(** ** The blur stage *)

(** C10. When the four-method analysis throws and the fallback throws too,
    blur detection answers blurry, with the reason "Image analysis failed":
    the stage rejects.  The face stage and the duplicate check do the
    opposite on their own failures: a throwing face validation, or a
    throwing override inspection, gives a valid verdict, and a failing
    candidate query gives no-duplicate. *)
Theorem detectBlurryImage_fails_closed
  (env : Env) (imageBuffer : Buffer) (error innerError : Error) :
  BlurDetection.advancedDetection env imageBuffer = Throw error ->
  BlurDetection.fallbackDetection env imageBuffer = Throw innerError ->
  BlurDetection.detectBlurryImage env imageBuffer
  = {| BlurDetection.isBlurry := true;
       BlurDetection.reason := Some "Image analysis failed";
       BlurDetection.details := Some (BlurError (message error)) |}
  /\ validationErrors
       (Processor.blurRejection (BlurDetection.detectBlurryImage env imageBuffer))
     = Some [blurry_image_detected]
  /\ (forall e, FaceDetection.validateFaceCount_body env imageBuffer = Throw e ->
      FaceDetection.isValid (FaceDetection.validateFaceCount env imageBuffer) = true)
  /\ (forall e, FaceDetection.validateFacesWithOverride_body env imageBuffer = Throw e ->
      FaceDetection.isValid (FaceDetection.validateFacesWithOverride env imageBuffer)
      = true)
  /\ (forall e hash excludeId name w,
        prismaFault env = Some e ->
        checkDuplicateImage env hash excludeId name w
        = (Ok {| isDuplicate := false; similarImage := None |}, w)).
Proof.
  intros Ha Hf. unfold BlurDetection.detectBlurryImage. rewrite Ha, Hf.
  split; [reflexivity |]. split; [reflexivity |].
  split; [| split].
  - intros e He. unfold FaceDetection.validateFaceCount. rewrite He. reflexivity.
  - intros e He. unfold FaceDetection.validateFacesWithOverride. rewrite He.
    reflexivity.
  - intros e hash excludeId name w F.
    unfold checkDuplicateImage, tryCatch, Prisma.bind, findProcessed.
    rewrite F. reflexivity.
Qed.

Lemma detectBlurryImage_fails_closed_witness :
  BlurDetection.detectBlurryImage unreadable (blob 204800)
  = {| BlurDetection.isBlurry := true;
       BlurDetection.reason := Some "Image analysis failed";
       BlurDetection.details :=
         Some (BlurError (Some "Input buffer contains unsupported image format")) |}.
Proof.
  apply (detectBlurryImage_fails_closed unreadable (blob 204800)
           (Js.error "Input buffer contains unsupported image format")
           (Js.error "Input buffer contains unsupported image format")
           eq_refl eq_refl).
Defined.

(** The fallback alone: a grey-level deviation under 25 is blurry. *)
Example fallback_low_contrast :
  BlurDetection.isBlurry
    (BlurDetection.detectBlurryImage
       (studio (Ok (dims 900 900)) (Ok (flat 20%float)) (Ok (flat 20%float))
               (Ok oneFace) (Ok (blob 1024)) (Ok (blob 204800)) None None)
       (blob 204800)) = true
  /\ BlurDetection.isBlurry
       (BlurDetection.detectBlurryImage
          (studio (Ok (dims 900 900)) (Ok (flat 60%float)) (Ok (flat 60%float))
                  (Ok oneFace) (Ok (blob 1024)) (Ok (blob 204800)) None None)
          (blob 204800)) = false.
Proof. split; reflexivity. Qed.

(** The four methods on a 20x20 picture.  No response at all: three
    methods vote blurry.  A checkerboard response with strong gradients:
    none does.  One gradient three times the other and under the
    threshold: motion blur, whatever the vote. *)
Example advanced_flat :
  BlurDetection.detectBlurryImage
    (lab 10%float 10%float flatResponse 0%float 0%float) (blob 1024)
  = {| BlurDetection.isBlurry := true;
       BlurDetection.reason := Some "Insufficient sharp details";
       BlurDetection.details :=
         Some (BlurMethods false true true true 0%float 0%float 0%float
                 0%float 0%float false nan 3 20 20) |}.
Proof. vm_compute. reflexivity. Qed.

Example advanced_checkerboard :
  BlurDetection.isBlurry
    (BlurDetection.detectBlurryImage
       (lab 50%float 55%float checkerResponse 10000%float 10000%float) (blob 1024))
  = false
  /\ BlurDetection.countBlocks checkerResponse 20 20 10 = (4, 4)
  /\ BlurDetection.strongEdges checkerResponse = 200.
Proof. vm_compute. repeat split. Qed.

Example advanced_motion_blur :
  let d :=
    BlurDetection.detectBlurryImage
      (lab 50%float 55%float checkerResponse 9000%float 1000%float) (blob 1024) in
  BlurDetection.isBlurry d = true
  /\ BlurDetection.reason d = Some "Motion blur detected".
Proof. vm_compute. repeat split. Qed.

(** ** Runs of the pipeline *)

Ltac monad :=
  cbv beta iota zeta
      delta [Prisma.bind await invoke log ret throw tryCatch negb status_eqb];
  cbn [images trace fst snd].

Lemma present_replace_row (rows : list Image) (i j : string) (d : UpdateData) :
  (exists r, find (fun x => String.eqb (id x) i) rows = Some r) ->
  exists r, find (fun x => String.eqb (id x) i) (replace_row j d rows) = Some r.
Proof.
  induction rows as [| x rows IH]; cbn [find replace_row]; [intros H; exact H |].
  intros H. destruct (String.eqb (id x) j).
  - cbn [find]. rewrite id_apply_update.
    destruct (String.eqb (id x) i); [eexists; reflexivity | exact H].
  - cbn [find]. destruct (String.eqb (id x) i); [exact H | apply IH; exact H].
Qed.

Section Keeps.
Variable env : Env.
Variable rowId : string.

Lemma keeps_ret {A} (a : A) : keeps rowId (ret a).
Proof. intros w H. exact H. Qed.

Lemma keeps_throw {A} (e : Error) : keeps rowId (@throw A e).
Proof. intros w H. exact H. Qed.

Lemma keeps_await {A} (r : Result A) : keeps rowId (await r).
Proof. intros w H. exact H. Qed.

Lemma keeps_bind {A B} (m : M A) (k : A -> M B) :
  keeps rowId m -> (forall a, keeps rowId (k a)) -> keeps rowId (Prisma.bind m k).
Proof.
  intros Hm Hk w H. unfold Prisma.bind. specialize (Hm w H).
  destruct (m w) as [[a | e] w']; cbn [snd] in *; [apply Hk; exact Hm | exact Hm].
Qed.

Lemma keeps_tryCatch {A} (m : M A) (h : Error -> M A) :
  keeps rowId m -> (forall e, keeps rowId (h e)) -> keeps rowId (tryCatch m h).
Proof.
  intros Hm Hh w H. unfold tryCatch. specialize (Hm w H).
  destruct (m w) as [[a | e] w']; cbn [snd] in *; [exact Hm | apply Hh; exact Hm].
Qed.

Lemma keeps_log (e : Event) : keeps rowId (log e).
Proof. intros w H. exact H. Qed.

Lemma keeps_invoke {A} (s : Stage) (m : M A) :
  keeps rowId m -> keeps rowId (invoke s m).
Proof.
  intros Hm. unfold invoke. apply keeps_bind; [apply keeps_log | intros _; exact Hm].
Qed.

Lemma keeps_findUnique (i : string) : keeps rowId (findUnique env i).
Proof.
  intros w H. unfold findUnique. destruct (prismaFault env); exact H.
Qed.

Lemma keeps_update (i : string) (d : UpdateData) : keeps rowId (update env i d).
Proof.
  intros w H. unfold update. destruct (prismaFault env); [exact H |].
  destruct (find _ (images w)); [| exact H].
  cbn [snd]. unfold present. cbn [images]. apply present_replace_row. exact H.
Qed.

Lemma keeps_checkDuplicateImage (hash : string) (e : option string) (name : string) :
  keeps rowId (checkDuplicateImage env hash e name).
Proof.
  unfold checkDuplicateImage. apply keeps_tryCatch; [| intros; apply keeps_ret].
  apply keeps_bind.
  - intros w H. unfold findProcessed. destruct (prismaFault env); exact H.
  - intros l. destruct (if truthy name then _ else _); apply keeps_ret.
Qed.

End Keeps.

Create HintDb keeps.

#[local] Hint Resolve keeps_ret keeps_throw keeps_await keeps_invoke
  keeps_findUnique keeps_update keeps_checkDuplicateImage : keeps.

Ltac keeps_steps :=
  repeat first
    [ solve [auto with keeps]
    | apply keeps_invoke
    | apply keeps_tryCatch; [| intro]
    | apply keeps_bind; [| intro]
    | match goal with
      | |- keeps _ (if ?b then _ else _) => destruct b
      | |- keeps _ (match ?x with _ => _ end) => destruct x
      end ].

Lemma keeps_pipeline (env : Env) (imageId : string) (image : Image) :
  keeps imageId (Processor.pipeline env imageId image).
Proof.
  unfold Processor.pipeline, Processor.faceStage, Processor.accept. keeps_steps.
Qed.

Lemma checkDuplicateImage_run
  (env : Env) (hash : string) (e : option string) (name : string) (w : World) :
  prismaFault env = None ->
  checkDuplicateImage env hash e name w
  = (Ok (verdict hash name (candidatesOf e (images w))), w).
Proof.
  intros F. unfold checkDuplicateImage, tryCatch, Prisma.bind.
  rewrite (findProcessed_run env e w F). unfold verdict.
  destruct (if truthy name then _ else _); reflexivity.
Qed.

(** Moving a row that is not PROCESSED to a status that is not PROCESSED
    leaves the candidates as they were. *)
Lemma candidatesOf_replace_row
  (e : option string) (i : string) (d : UpdateData) (rows : list Image) (r : Image) :
  find (fun x => String.eqb (id x) i) rows = Some r ->
  status r <> PROCESSED -> status (apply_update d r) <> PROCESSED ->
  candidatesOf e (replace_row i d rows) = candidatesOf e rows.
Proof.
  intros Hfind Hr Hd. unfold candidatesOf. f_equal.
  induction rows as [| x rows IH]; [reflexivity |].
  cbn [find replace_row] in *. destruct (String.eqb (id x) i).
  - injection Hfind as ->. cbn [filter].
    assert (E1 : status_eqb (status r) PROCESSED = false)
      by (apply not_true_is_false; rewrite status_eqb_eq; exact Hr).
    assert (E2 : status_eqb (status (apply_update d r)) PROCESSED = false)
      by (apply not_true_is_false; rewrite status_eqb_eq; exact Hd).
    rewrite E1, E2. reflexivity.
  - cbn [filter]. rewrite (IH Hfind). reflexivity.
Qed.

Lemma processImage_pending (env : Env) (w : World) (imageId : string) (image : Image) :
  prismaFault env = None ->
  find (fun r => String.eqb (id r) imageId) (images w) = Some image ->
  status image = PENDING ->
  Processor.processImage env imageId w
  = tryCatch (Processor.pipeline env imageId image) (Processor.onError env imageId) w.
Proof.
  intros F Hfind Hst. unfold Processor.processImage, Prisma.bind at 1.
  rewrite (findUnique_run env imageId w F), Hfind, Hst. reflexivity.
Qed.

Lemma trace_three {A} (t : list A) (a : A) (l : list A) (c : A) :
  ((t ++ [a]) ++ l ++ [c] = t ++ a :: l ++ [c])%list.
Proof. rewrite <- app_assoc. reflexivity. Qed.

Lemma rejects_intro
  (run : M (option Image)) (imageId : string) (image : Image) (w : World)
  (stages : list Stage) (m : MetaData) :
  find (fun r => String.eqb (id r) imageId) (images w) = Some image ->
  run w
  = (Ok (Some (apply_update (Processor.setFailed m)
                 (apply_update (Processor.setStatus PROCESSING) image))),
     {| images :=
          replace_row imageId (Processor.setFailed m)
            (replace_row imageId (Processor.setStatus PROCESSING) (images w));
        trace :=
          (trace w ++ Updated imageId PROCESSING
                   :: map Invoked stages ++ [Updated imageId FAILED])%list |}) ->
  rejects run imageId image w stages m.
Proof.
  intros Hfind Hrun. unfold rejects. eexists. eexists.
  split; [exact Hrun |]. cbn [images trace].
  split.
  { apply find_replace_row. apply find_replace_row. exact Hfind. }
  repeat split.
Qed.

(** The two runs, stage by stage.  A run of processor.js on a PENDING
    record whose original loads writes PROCESSING and then calls the stages
    in the order size, guarded face validation, blur, hash and duplicate
    check.  The first stage that rejects ends the run: the row is written
    FAILED with that stage's reason and a one-element validationErrors
    holding that stage's code, and the trace shows that no later stage was
    called.  For the size stage this is the rejection of an image whose
    metadata decodes.  The run of imageService.js, which the controller
    calls, goes from the size stage to the hash and the duplicate check,
    with the same writes on a rejection: an upload that passes these two is
    written PROCESSED, whatever face validation and blur detection make of
    it. *)
Theorem processImage_stops_at_first_rejection
  (env : Env) (w : World) (imageId : string) (image : Image) (imageBuffer : Buffer) :
  prismaFault env = None ->
  find (fun r => String.eqb (id r) imageId) (images w) = Some image ->
  status image = PENDING ->
  getImageBuffer env (originalPath image) = Ok imageBuffer ->
  let size := SizeValidation.validateImageSize env imageBuffer in
  let face := FaceDetection.validateFacesWithOverride env imageBuffer in
  let blur := BlurDetection.detectBlurryImage env imageBuffer in
  let run := Processor.processImage env imageId in
  let older := ImageService.processImage env imageId in
  let duplicateOf imageHash similar :=
    fst (checkDuplicateImage env imageHash (Some imageId) (originalName image) w)
    = Ok {| isDuplicate := true; similarImage := Some similar |} in
  ((forall metadata,
       sharp_metadata env imageBuffer = Ok metadata ->
       SizeValidation.isValid size = false ->
       exists m,
         rejects run imageId image w [SizeStage] m
         /\ rejectionReason m = SizeValidation.reason size
         /\ validationErrors m = Some [size_validation_failed])
   /\ (SizeValidation.isValid size = true ->
       FaceDetection.isValid face = false ->
       exists m,
         rejects run imageId image w [SizeStage; FaceStage] m
         /\ rejectionReason m = FaceDetection.reason face
         /\ validationErrors m = Some [multiple_faces_detected])
   /\ (SizeValidation.isValid size = true ->
       FaceDetection.isValid face = true ->
       BlurDetection.isBlurry blur = true ->
       exists m,
         rejects run imageId image w [SizeStage; FaceStage; BlurStage] m
         /\ rejectionReason m
            = Some "Image is too blurry. Please upload a clearer photo."
         /\ validationErrors m = Some [blurry_image_detected])
   /\ (forall imageHash similar,
       SizeValidation.isValid size = true ->
       FaceDetection.isValid face = true ->
       BlurDetection.isBlurry blur = false ->
       generateImageHash env imageBuffer = Ok imageHash ->
       duplicateOf imageHash similar ->
       exists m,
         rejects run imageId image w
                 [SizeStage; FaceStage; BlurStage; HashStage; DuplicateStage] m
         /\ rejectionReason m
            = Some ("Duplicate of image: " ++ Candidate.id similar ++ " ("
                    ++ Candidate.originalName similar ++ ")")
         /\ validationErrors m = Some [duplicate_image_detected]
         /\ pHash m = Some imageHash
         /\ similarTo m = Some (Candidate.id similar)))
  /\ ((forall metadata,
          sharp_metadata env imageBuffer = Ok metadata ->
          SizeValidation.isValid size = false ->
          exists m,
            rejects older imageId image w [SizeStage] m
            /\ rejectionReason m = SizeValidation.reason size
            /\ validationErrors m = Some [size_validation_failed])
      /\ (forall imageHash similar,
          SizeValidation.isValid size = true ->
          generateImageHash env imageBuffer = Ok imageHash ->
          duplicateOf imageHash similar ->
          exists m,
            rejects older imageId image w [SizeStage; HashStage; DuplicateStage] m
            /\ rejectionReason m
               = Some ("Duplicate of image: " ++ Candidate.id similar ++ " ("
                       ++ Candidate.originalName similar ++ ")")
            /\ validationErrors m = Some [duplicate_image_detected]
            /\ pHash m = Some imageHash
            /\ similarTo m = Some (Candidate.id similar))
      /\ (forall imageHash processedImageBuffer metadata processedPath,
          SizeValidation.isValid size = true ->
          generateImageHash env imageBuffer = Ok imageHash ->
          fst (checkDuplicateImage env imageHash (Some imageId)
                 (originalName image) w)
          = Ok {| isDuplicate := false; similarImage := None |} ->
          sharp_derivative env imageBuffer = Ok processedImageBuffer ->
          sharp_metadata env processedImageBuffer = Ok metadata ->
          writeProcessed env processedImageBuffer (originalName image)
            (originalPath image) = Ok processedPath ->
          exists (r : Image) (w' : World),
            older w = (Ok (Some r), w')
            /\ find (fun x => String.eqb (id x) imageId) (images w') = Some r
            /\ status r = PROCESSED
            /\ trace w'
               = (trace w ++ [Updated imageId PROCESSING; Invoked SizeStage;
                              Invoked HashStage; Invoked DuplicateStage;
                              Updated imageId PROCESSED])%list)).
Proof.
  intros F Hfind Hst Hbuf size face blur run older duplicateOf.
  assert (Hstart :
    run w
    = tryCatch (Processor.pipeline env imageId image) (Processor.onError env imageId) w)
    by (apply processImage_pending; assumption).
  assert (Holder :
    older w
    = tryCatch (ImageService.pipeline env imageId image)
               (ImageService.onError env imageId) w).
  { subst older. unfold ImageService.processImage, Prisma.bind at 1.
    rewrite (findUnique_run env imageId w F), Hfind, Hst. reflexivity. }
  assert (Hfind1 := find_replace_row _ _ (Processor.setStatus PROCESSING) _ Hfind).
  split; [split; [| split; [| split]] | split; [| split]].
  - intros metadata Hmd Hsz.
    exists (Processor.sizeRejection (SizeValidation.reason size)
              (Sharp.width metadata) (Sharp.height metadata)
              (buffer_length imageBuffer)).
    split; [| split; reflexivity].
    apply rejects_intro; [exact Hfind |]. rewrite Hstart.
    unfold Processor.pipeline. monad.
    rewrite (update_run env imageId _ w image F Hfind). monad.
    rewrite Hbuf. monad. fold size. rewrite Hsz, Hmd. monad.
    erewrite update_run; [| exact F | exact Hfind1]. monad.
    rewrite (findUnique_run _ _ _ F). monad.
    rewrite (find_replace_row _ _ _ _ Hfind1).
    f_equal. f_equal. cbn [map]. rewrite <- !app_assoc. reflexivity.
  - intros Hsz Hface.
    exists (Processor.faceRejection face).
    split; [| split; reflexivity].
    apply rejects_intro; [exact Hfind |]. rewrite Hstart.
    unfold Processor.pipeline. monad.
    rewrite (update_run env imageId _ w image F Hfind). monad.
    rewrite Hbuf. monad. fold size. rewrite Hsz.
    unfold Processor.faceStage. monad.
    fold face. rewrite Hface.
    erewrite update_run; [| exact F | exact Hfind1]. monad.
    rewrite (findUnique_run _ _ _ F). monad.
    rewrite (find_replace_row _ _ _ _ Hfind1).
    f_equal. f_equal. cbn [map]. rewrite <- !app_assoc. reflexivity.
  - intros Hsz Hface Hblur.
    exists (Processor.blurRejection blur).
    split; [| split; reflexivity].
    apply rejects_intro; [exact Hfind |]. rewrite Hstart.
    unfold Processor.pipeline. monad.
    rewrite (update_run env imageId _ w image F Hfind). monad.
    rewrite Hbuf. monad. fold size. rewrite Hsz.
    unfold Processor.faceStage. monad.
    fold face. rewrite Hface. fold blur. rewrite Hblur. monad.
    erewrite update_run; [| exact F | exact Hfind1]. monad.
    rewrite (findUnique_run _ _ _ F). monad.
    rewrite (find_replace_row _ _ _ _ Hfind1).
    f_equal. f_equal. cbn [map]. rewrite <- !app_assoc. reflexivity.
  - intros imageHash similar Hsz Hface Hblur Hhash Hdup.
    exists (Processor.duplicateRejection imageHash similar).
    split; [| repeat split; reflexivity].
    apply rejects_intro; [exact Hfind |]. rewrite Hstart.
    unfold Processor.pipeline. monad.
    rewrite (update_run env imageId _ w image F Hfind). monad.
    rewrite Hbuf. monad. fold size. rewrite Hsz.
    unfold Processor.faceStage. monad.
    unfold duplicateOf in Hdup.
    rewrite (checkDuplicateImage_run _ _ _ _ w F) in Hdup.
    cbn [fst] in Hdup. injection Hdup as Hdup.
    fold face. rewrite Hface. fold blur. rewrite Hblur. monad.
    rewrite Hhash. monad.
    rewrite (checkDuplicateImage_run _ _ _ _ _ F). monad.
    rewrite (candidatesOf_replace_row _ _ _ _ _ Hfind), Hdup
      by (rewrite ?Hst; cbn; congruence).
    cbn [isDuplicate similarImage].
    erewrite update_run; [| exact F | exact Hfind1]. monad.
    rewrite (findUnique_run _ _ _ F). monad.
    rewrite (find_replace_row _ _ _ _ Hfind1).
    f_equal. f_equal. cbn [map]. rewrite <- !app_assoc. reflexivity.
  - intros metadata Hmd Hsz.
    exists (Processor.sizeRejection (SizeValidation.reason size)
              (Sharp.width metadata) (Sharp.height metadata)
              (buffer_length imageBuffer)).
    split; [| split; reflexivity].
    apply rejects_intro; [exact Hfind |]. rewrite Holder.
    unfold ImageService.pipeline. monad.
    rewrite (update_run env imageId _ w image F Hfind). monad.
    rewrite Hbuf. monad. fold size. rewrite Hsz, Hmd. monad.
    erewrite update_run; [| exact F | exact Hfind1]. monad.
    rewrite (findUnique_run _ _ _ F). monad.
    rewrite (find_replace_row _ _ _ _ Hfind1).
    f_equal. f_equal. cbn [map]. rewrite <- !app_assoc. reflexivity.
  - intros imageHash similar Hsz Hhash Hdup.
    exists (Processor.duplicateRejection imageHash similar).
    split; [| repeat split; reflexivity].
    apply rejects_intro; [exact Hfind |]. rewrite Holder.
    unfold ImageService.pipeline. monad.
    rewrite (update_run env imageId _ w image F Hfind). monad.
    rewrite Hbuf. monad. fold size. rewrite Hsz. monad.
    unfold duplicateOf in Hdup.
    rewrite (checkDuplicateImage_run _ _ _ _ w F) in Hdup.
    cbn [fst] in Hdup. injection Hdup as Hdup.
    rewrite Hhash. monad.
    rewrite (checkDuplicateImage_run _ _ _ _ _ F). monad.
    rewrite (candidatesOf_replace_row _ _ _ _ _ Hfind), Hdup
      by (rewrite ?Hst; cbn; congruence).
    cbn [isDuplicate similarImage].
    erewrite update_run; [| exact F | exact Hfind1]. monad.
    rewrite (findUnique_run _ _ _ F). monad.
    rewrite (find_replace_row _ _ _ _ Hfind1).
    f_equal. f_equal. cbn [map]. rewrite <- !app_assoc. reflexivity.
  - intros imageHash processedImageBuffer metadata processedPath
           Hsz Hhash Hdup Hder Hmd Hwrite.
    rewrite Holder.
    unfold ImageService.pipeline. monad.
    rewrite (update_run env imageId _ w image F Hfind). monad.
    rewrite Hbuf. monad. fold size. rewrite Hsz. monad.
    rewrite (checkDuplicateImage_run _ _ _ _ w F) in Hdup.
    cbn [fst] in Hdup. injection Hdup as Hdup.
    rewrite Hhash. monad.
    rewrite (checkDuplicateImage_run _ _ _ _ _ F). monad.
    rewrite (candidatesOf_replace_row _ _ _ _ _ Hfind), Hdup
      by (rewrite ?Hst; cbn; congruence).
    cbn [isDuplicate similarImage].
    rewrite Hder. monad. rewrite Hmd. monad. rewrite Hwrite. monad.
    erewrite update_run; [| exact F | exact Hfind1]. monad.
    eexists. eexists. split; [reflexivity |]. cbn [images trace].
    split; [apply find_replace_row; exact Hfind1 |].
    split; [reflexivity |].
    rewrite <- !app_assoc. reflexivity.
Qed.

Lemma processImage_stops_at_first_rejection_witness :
  (exists m,
      rejects (Processor.processImage groupPhoto "n") "n" pendingRow
              (world [pendingRow]) [SizeStage; FaceStage] m
      /\ rejectionReason m
         = Some "Multiple faces likely in high-resolution group photo. Please upload photos with at most one face."
      /\ validationErrors m = Some [multiple_faces_detected])
  /\ (exists (r : Image) (w' : World),
         ImageService.processImage groupPhoto "n" (world [pendingRow])
         = (Ok (Some r), w')
         /\ status r = PROCESSED
         /\ trace w'
            = [Updated "n" PROCESSING; Invoked SizeStage; Invoked HashStage;
               Invoked DuplicateStage; Updated "n" PROCESSED]).
Proof.
  destruct (processImage_stops_at_first_rejection
              groupPhoto (world [pendingRow]) "n" pendingRow (blob 204800)
              eq_refl eq_refl eq_refl eq_refl)
    as ((_ & Hface & _) & (_ & _ & Hadmit)).
  split.
  - destruct (Hface eq_refl eq_refl) as (m & Hrun & Hreason & Hcode).
    exists m. split; [exact Hrun |]. split; [| exact Hcode].
    rewrite Hreason. reflexivity.
  - destruct (Hadmit uniformHash (blob 2048) (dims 4000 2000)
                     "uploads/processed/cat-processed.jpg"
                     eq_refl eq_refl eq_refl eq_refl eq_refl eq_refl)
      as (r & w' & Hrun & _ & Hstatus & Htrace).
    exists r, w'. split; [exact Hrun |]. split; [exact Hstatus | exact Htrace].
Defined.

(** C1. The four stages are those of processor.js; the run the controller
    calls has two of them.  The wide photograph with busy colours, as a
    PENDING upload of sufficient size: guarded face validation rejects it,
    and the run of processor.js stops there, after the size and the face
    stage, with the record FAILED under multiple_faces_detected.  The run
    of imageService.js, the one the controller calls, invokes the size
    stage, the hash and the duplicate check, never the face stage or the
    blur stage, and writes the record PROCESSED.  It does the same with a
    picture of low contrast, which blur detection finds blurry and
    processor.js rejects at the blur stage. *)
Theorem service_run_has_no_face_stage :
  let upload := world [pendingRow] in
  let lowContrast :=
    studio (Ok (dims 900 900)) (Ok (flat 20%float)) (Ok (flat 20%float))
           (Ok oneFace) (Ok (blob 1024)) (Ok (blob 204800)) None None in
  let outcome (run : Result (option Image) * World) :=
    (option_map status (match fst run with Ok r => r | Throw _ => None end),
     option_map validationErrors
       (match fst run with Ok (Some r) => metaData r | _ => None end),
     trace (snd run)) in
  SizeValidation.isValid
    (SizeValidation.validateImageSize groupPhoto (blob 204800)) = true
  /\ FaceDetection.isValid
       (FaceDetection.validateFacesWithOverride groupPhoto (blob 204800)) = false
  /\ outcome (Processor.processImage groupPhoto "n" upload)
     = (Some FAILED, Some (Some [multiple_faces_detected]),
        [Updated "n" PROCESSING; Invoked SizeStage; Invoked FaceStage;
         Updated "n" FAILED])
  /\ outcome (ImageService.processImage groupPhoto "n" upload)
     = (Some PROCESSED, Some None,
        [Updated "n" PROCESSING; Invoked SizeStage; Invoked HashStage;
         Invoked DuplicateStage; Updated "n" PROCESSED])
  /\ BlurDetection.isBlurry
       (BlurDetection.detectBlurryImage lowContrast (blob 204800)) = true
  /\ outcome (Processor.processImage lowContrast "n" upload)
     = (Some FAILED, Some (Some [blurry_image_detected]),
        [Updated "n" PROCESSING; Invoked SizeStage; Invoked FaceStage;
         Invoked BlurStage; Updated "n" FAILED])
  /\ outcome (ImageService.processImage lowContrast "n" upload)
     = (Some PROCESSED, Some None,
        [Updated "n" PROCESSING; Invoked SizeStage; Invoked HashStage;
         Invoked DuplicateStage; Updated "n" PROCESSED]).
Proof. vm_compute. repeat split. Qed.

(** Scenario 2 of the specification, as a run. *)
Example run_500x500 :
  Processor.processImage (portrait 500 500) "n" (world [pendingRow])
  = (Ok (Some (row "n" "cat.jpg" FAILED
                   (Some (Processor.sizeRejection
                            (Some "Image resolution too low. Minimum required: 800x800px, got: 500x500px")
                            500 500 204800)))),
     {| images :=
          [row "n" "cat.jpg" FAILED
               (Some (Processor.sizeRejection
                        (Some "Image resolution too low. Minimum required: 800x800px, got: 500x500px")
                        500 500 204800))];
        trace := [Updated "n" PROCESSING; Invoked SizeStage; Updated "n" FAILED] |}).
Proof. vm_compute. reflexivity. Qed.

(** Scenario 6: a wide high-resolution photograph stops at the face stage. *)
Example run_groupPhoto :
  let '(result, w') := Processor.processImage groupPhoto "n" (world [pendingRow]) in
  option_map status (match result with Ok r => r | Throw _ => None end) = Some FAILED
  /\ option_map validationErrors
       (match result with Ok (Some r) => metaData r | _ => None end)
     = Some (Some [multiple_faces_detected])
  /\ trace w'
     = [Updated "n" PROCESSING; Invoked SizeStage; Invoked FaceStage;
        Updated "n" FAILED].
Proof. vm_compute. repeat split. Qed.

(** A picture whose grey levels barely vary stops at the blur stage. *)
Example run_lowContrast :
  let '(result, w') :=
    Processor.processImage
      (studio (Ok (dims 900 900)) (Ok (flat 20%float)) (Ok (flat 20%float))
              (Ok oneFace) (Ok (blob 1024)) (Ok (blob 204800)) None None)
      "n" (world [pendingRow]) in
  option_map status (match result with Ok r => r | Throw _ => None end) = Some FAILED
  /\ option_map validationErrors
       (match result with Ok (Some r) => metaData r | _ => None end)
     = Some (Some [blurry_image_detected])
  /\ trace w'
     = [Updated "n" PROCESSING; Invoked SizeStage; Invoked FaceStage;
        Invoked BlurStage; Updated "n" FAILED].
Proof. vm_compute. repeat split. Qed.

(** Scenario 4: the same picture under the same name, after the first one
    was accepted. *)
Example run_duplicate :
  let '(result, w') :=
    Processor.processImage (portrait 900 900) "n"
      (world [row "a" "cat.jpg" PROCESSED (hashed uniformHash); pendingRow]) in
  option_map status (match result with Ok r => r | Throw _ => None end) = Some FAILED
  /\ match result with
     | Ok (Some r) => metaData r
     | _ => None
     end
     = Some (Processor.duplicateRejection uniformHash
               (select (row "a" "cat.jpg" PROCESSED (hashed uniformHash))))
  /\ trace w'
     = [Updated "n" PROCESSING; Invoked SizeStage; Invoked FaceStage;
        Invoked BlurStage; Invoked HashStage; Invoked DuplicateStage;
        Updated "n" FAILED].
Proof. vm_compute. repeat split. Qed.

(** Scenario 1: a sharp, unique 900x900 portrait is accepted; its pHash has
    32 hexadecimal characters. *)
Example run_accepted :
  let '(result, w') :=
    Processor.processImage (portrait 900 900) "n" (world [pendingRow]) in
  match result with
  | Ok (Some r) =>
      status r = PROCESSED
      /\ processedPath r = Some "uploads/processed/cat-processed-1747558691000.jpg"
      /\ option_map pHash (metaData r) = Some (Some uniformHash)
  | _ => False
  end
  /\ trace w'
     = [Updated "n" PROCESSING; Invoked SizeStage; Invoked FaceStage;
        Invoked BlurStage; Invoked HashStage; Invoked DuplicateStage;
        Updated "n" PROCESSED].
Proof. vm_compute. repeat split. Qed.

(** ** Exceptions in the pipeline *)

Lemma keeps_service_pipeline (env : Env) (imageId : string) (image : Image) :
  keeps imageId (ImageService.pipeline env imageId image).
Proof. unfold ImageService.pipeline. keeps_steps. Qed.

Lemma prefix_spec (needle : string) :
  forall s : string,
    prefix needle s = true <-> exists after, s = (needle ++ after)%string.
Proof.
  induction needle as [| c needle IH]; intros s.
  - destruct s; cbn; (split; [intros _; eexists; reflexivity | reflexivity]).
  - destruct s as [| d s]; cbn.
    + split; [discriminate | intros (a & H); discriminate].
    + destruct (ascii_dec c d) as [-> | N].
      * rewrite IH. split; intros (a & H); exists a; [rewrite H; reflexivity |].
        injection H as H. exact H.
      * split; [discriminate |]. intros (a & H). injection H as H _.
        destruct (N (eq_sym H)).
Qed.

Lemma includes_spec (needle : string) :
  forall s : string,
    includes s needle = true
    <-> exists before after, s = (before ++ needle ++ after)%string.
Proof.
  induction s as [| c s IH]; cbn [includes]; rewrite orb_true_iff, prefix_spec.
  - split.
    + intros [(a & H) | H]; [| discriminate]. exists "", a. exact H.
    + intros (b & a & H). left. destruct b; [| discriminate]. exists a. exact H.
  - rewrite IH. split.
    + intros [(a & H) | (b & a & H)].
      * exists "", a. exact H.
      * exists (String c b), a. rewrite H. reflexivity.
    + intros (b & a & H). destruct b as [| c' b].
      * left. exists a. exact H.
      * right. injection H as _ H. exists b, a. exact H.
Qed.

(** [error.message?.includes(needle)] decides whether the message
    mentions the needle. *)
Lemma mentions_reflect (error : Error) (needle : string) :
  reflect (mentions error needle) (message_includes error needle).
Proof.
  apply iff_reflect. unfold mentions, message_includes.
  destruct (message error) as [text |].
  - rewrite includes_spec. split.
    + intros (t & b & a & [= <-] & H). exists b, a. exact H.
    + intros (b & a & H). exists text, b, a. split; [reflexivity | exact H].
  - split; [| discriminate]. intros (t & b & a & H & _). discriminate.
Qed.

Lemma mentions_true (error : Error) (needle : string) :
  message_includes error needle = true -> mentions error needle.
Proof. intros H. destruct (mentions_reflect error needle); [assumption | discriminate]. Qed.

Lemma mentions_false (error : Error) (needle : string) :
  message_includes error needle = false -> ~ mentions error needle.
Proof. intros H. destruct (mentions_reflect error needle); [discriminate | assumption]. Qed.

Ltac table_rows :=
  repeat match goal with
         | |- _ /\ _ => split
         | |- _ -> _ => intro
         end;
  try reflexivity; try contradiction;
  match goal with
  | H : _ \/ _ |- _ => destruct H; contradiction
  end.

(** The catch blocks of the two runs.  When the body of the run throws
    after the record was moved to PROCESSING, the record is written FAILED
    with the message and the one code picked from the exception's message,
    the substrings being tried in the order "duplicate", "resolution" or
    "dimensions", "size", "format" or "unsupported", then, in processor.js,
    "face", and processing_error when none occurs; the exception's own text
    goes into the metaData only when NODE_ENV is "development".  The catch
    block of imageService.js, the run the controller calls, has the same
    table without the row for "face": there such a message gives
    processing_error. *)
Theorem processImage_categorizes
  (env : Env) (w w' : World) (imageId : string) (image : Image) (error : Error) :
  prismaFault env = None ->
  find (fun r => String.eqb (id r) imageId) (images w) = Some image ->
  status image = PENDING ->
  let has needle := mentions error needle in
  let recorded (run : M (option Image)) (code : ValidationError) (text : string) :=
    exists (r : Image) (technical : option string),
      run w
      = (Ok (Some r),
         {| images :=
              replace_row imageId
                {| set_status := Some FAILED;
                   set_metaData :=
                     Some {| rejectionReason := Some text;
                             validationErrors := Some [code];
                             pHash := None; similarTo := None;
                             technicalError := technical;
                             width := None; height := None; fileSize := None;
                             format := None; processingTime := None;
                             faceCount := None;
                             faceData := None; blurDetails := None |};
                   set_processedPath := None; set_processedSize := None |}
                (images w');
            trace := (trace w' ++ [Updated imageId FAILED])%list |})
      /\ find (fun x => String.eqb (id x) imageId)
              (images (snd (run w))) = Some r
      /\ status r = FAILED
      /\ metaData r
         = Some {| rejectionReason := Some text;
                   validationErrors := Some [code];
                   pHash := None; similarTo := None;
                   technicalError := technical;
                   width := None; height := None; fileSize := None;
                   format := None; processingTime := None; faceCount := None;
                   faceData := None; blurDetails := None |}
      /\ (NODE_ENV env = Some "development" -> technical = message error)
      /\ (NODE_ENV env <> Some "development" -> technical = None) in
  let shared (code : ValidationError) (text : string) :=
    (has "duplicate" ->
     code = duplicate_image_detected
     /\ text = "This image appears to be a duplicate of one you've already uploaded")
    /\ (~ has "duplicate" -> has "resolution" \/ has "dimensions" ->
        code = size_validation_failed
        /\ text = "Image resolution is too low. Please upload a larger image (minimum 800x800px)")
    /\ (~ has "duplicate" -> ~ has "resolution" -> ~ has "dimensions" -> has "size" ->
        code = size_validation_failed
        /\ text = "Image file size is too small. Please upload a larger image file (minimum 100KB)")
    /\ (~ has "duplicate" -> ~ has "resolution" -> ~ has "dimensions" -> ~ has "size" ->
        has "format" \/ has "unsupported" ->
        code = format_validation_failed
        /\ text = "Unsupported image format. Please use JPEG, PNG, or HEIC formats") in
  (Processor.pipeline env imageId image w = (Throw error, w') ->
   exists (code : ValidationError) (text : string),
     recorded (Processor.processImage env imageId) code text
     /\ shared code text
     /\ (~ has "duplicate" -> ~ has "resolution" -> ~ has "dimensions" ->
         ~ has "size" -> ~ has "format" -> ~ has "unsupported" -> has "face" ->
         code = multiple_faces_detected
         /\ text = "Multiple faces detected in image. Please upload a photo with at most one face.")
     /\ (~ has "duplicate" -> ~ has "resolution" -> ~ has "dimensions" ->
         ~ has "size" -> ~ has "format" -> ~ has "unsupported" -> ~ has "face" ->
         code = processing_error /\ text = "Image processing failed"))
  /\ (ImageService.pipeline env imageId image w = (Throw error, w') ->
      exists (code : ValidationError) (text : string),
        recorded (ImageService.processImage env imageId) code text
        /\ shared code text
        /\ (~ has "duplicate" -> ~ has "resolution" -> ~ has "dimensions" ->
            ~ has "size" -> ~ has "format" -> ~ has "unsupported" ->
            code = processing_error /\ text = "Image processing failed")).
Proof.
  intros F Hfind Hst has recorded shared.
  assert (Dev : forall technical,
             technical = (if Processor.development env then message error else None) ->
             (NODE_ENV env = Some "development" -> technical = message error)
             /\ (NODE_ENV env <> Some "development" -> technical = None)).
  { intros technical ->. unfold Processor.development. split.
    - intros ->. reflexivity.
    - intros N. destruct (NODE_ENV env) as [v |]; [| reflexivity].
      destruct (String.eqb_spec v "development") as [-> | _];
        [destruct N; reflexivity | reflexivity]. }
  split; intros Hthrow.
  - exists (Processor.validationError error), (Processor.userFriendlyMessage error).
    split.
    + assert (P : present imageId w').
      { change w' with (snd (@Throw (option Image) error, w')). rewrite <- Hthrow.
        apply keeps_pipeline. exists image. exact Hfind. }
      destruct P as (r & Hr).
      assert (Hrun :
        Processor.processImage env imageId w
        = (Ok (Some (apply_update
                       (Processor.setFailed (Processor.errorMetaData env error)) r)),
           {| images :=
                replace_row imageId
                  (Processor.setFailed (Processor.errorMetaData env error)) (images w');
              trace := (trace w' ++ [Updated imageId FAILED])%list |})).
      { rewrite (processImage_pending env w imageId image F Hfind Hst).
        unfold tryCatch. rewrite Hthrow.
        unfold Processor.onError. monad.
        rewrite (update_run env imageId _ w' r F Hr). monad.
        rewrite (findUnique_run _ _ _ F). monad.
        rewrite (find_replace_row _ _ _ _ Hr). reflexivity. }
      unfold recorded. rewrite Hrun. cbn [snd images].
      eexists. exists (if Processor.development env then message error else None).
      split; [reflexivity |].
      split; [apply find_replace_row; exact Hr |].
      split; [reflexivity |]. split; [reflexivity |].
      apply Dev. reflexivity.
    + subst has shared. cbv beta.
      unfold Processor.validationError, Processor.userFriendlyMessage.
      destruct (mentions_reflect error "duplicate");
        destruct (mentions_reflect error "resolution");
        destruct (mentions_reflect error "dimensions");
        destruct (mentions_reflect error "size");
        destruct (mentions_reflect error "format");
        destruct (mentions_reflect error "unsupported");
        destruct (mentions_reflect error "face");
        cbn [orb]; table_rows.
  - exists (ImageService.validationError error), (ImageService.userFriendlyMessage error).
    split.
    + assert (P : present imageId w').
      { change w' with (snd (@Throw (option Image) error, w')). rewrite <- Hthrow.
        apply keeps_service_pipeline. exists image. exact Hfind. }
      destruct P as (r & Hr).
      assert (Hrun :
        ImageService.processImage env imageId w
        = (Ok (Some (apply_update
                       (Processor.setFailed (ImageService.errorMetaData env error)) r)),
           {| images :=
                replace_row imageId
                  (Processor.setFailed (ImageService.errorMetaData env error))
                  (images w');
              trace := (trace w' ++ [Updated imageId FAILED])%list |})).
      { unfold ImageService.processImage, Prisma.bind at 1.
        rewrite (findUnique_run env imageId w F), Hfind, Hst. cbn [status_eqb negb].
        unfold tryCatch. rewrite Hthrow.
        unfold ImageService.onError. monad.
        rewrite (update_run env imageId _ w' r F Hr). monad.
        rewrite (findUnique_run _ _ _ F). monad.
        rewrite (find_replace_row _ _ _ _ Hr). reflexivity. }
      unfold recorded. rewrite Hrun. cbn [snd images].
      eexists. exists (if Processor.development env then message error else None).
      split; [reflexivity |].
      split; [apply find_replace_row; exact Hr |].
      split; [reflexivity |]. split; [reflexivity |].
      apply Dev. reflexivity.
    + subst has shared. cbv beta.
      unfold ImageService.validationError, ImageService.userFriendlyMessage.
      destruct (mentions_reflect error "duplicate");
        destruct (mentions_reflect error "resolution");
        destruct (mentions_reflect error "dimensions");
        destruct (mentions_reflect error "size");
        destruct (mentions_reflect error "format");
        destruct (mentions_reflect error "unsupported");
        cbn [orb]; table_rows.
Qed.
Lemma processImage_categorizes_witness :
  let unsupported :=
    Some {| rejectionReason :=
              Some "Unsupported image format. Please use JPEG, PNG, or HEIC formats";
            validationErrors := Some [format_validation_failed];
            pHash := None; similarTo := None; technicalError := None;
            width := None; height := None; fileSize := None;
            format := None; processingTime := None; faceCount := None;
            faceData := None; blurDetails := None |} in
  (exists r : Image,
      fst (Processor.processImage unreadable "n" (world [pendingRow])) = Ok (Some r)
      /\ status r = FAILED /\ metaData r = unsupported)
  /\ (exists r : Image,
         fst (ImageService.processImage unreadable "n" (world [pendingRow]))
         = Ok (Some r)
         /\ status r = FAILED /\ metaData r = unsupported).
Proof.
  destruct (processImage_categorizes
              unreadable
              (world [pendingRow])
              {| images := [row "n" "cat.jpg" PROCESSING None];
                 trace := [Updated "n" PROCESSING; Invoked SizeStage] |}
              "n" pendingRow
              (Js.error "Input buffer contains unsupported image format")
              eq_refl eq_refl eq_refl)
    as (HP & HS).
  split.
  - destruct (HP eq_refl)
      as (code & text & (r & technical & Hrun & _ & Hst & Hmd & _ & Hprod)
          & (_ & _ & _ & Hformat) & _).
    destruct Hformat as (-> & ->);
      [apply mentions_false; reflexivity | apply mentions_false; reflexivity
       | apply mentions_false; reflexivity | apply mentions_false; reflexivity
       | left; apply mentions_true; reflexivity |].
    rewrite Hprod in Hmd by discriminate.
    exists r. rewrite Hrun. split; [reflexivity |]. split; [exact Hst | exact Hmd].
  - destruct (HS eq_refl)
      as (code & text & (r & technical & Hrun & _ & Hst & Hmd & _ & Hprod)
          & (_ & _ & _ & Hformat) & _).
    destruct Hformat as (-> & ->);
      [apply mentions_false; reflexivity | apply mentions_false; reflexivity
       | apply mentions_false; reflexivity | apply mentions_false; reflexivity
       | left; apply mentions_true; reflexivity |].
    rewrite Hprod in Hmd by discriminate.
    exists r. rewrite Hrun. split; [reflexivity |]. split; [exact Hst | exact Hmd].
Defined.

(** C6. The row for "face" is in the table of processor.js and not in
    the one of imageService.js.  An original that the blob store has lost,
    stored under a name with "face" in it.  The exception's message mentions "face" and none of the
    substrings tried before it.  The run of processor.js writes the record
    under multiple_faces_detected; the run of imageService.js, the one the
    controller calls, writes it under processing_error, with the message
    "Image processing failed". *)
Theorem service_records_face_message_as_processing_error :
  let error :=
    Js.error "ENOENT: no such file or directory, open 'uploads/original/face-1.jpg'" in
  let upload := row "face-1" "cat.jpg" PENDING None in
  let failed (text : string) (code : ValidationError) :=
    row "face-1" "cat.jpg" FAILED
        (Some {| rejectionReason := Some text;
                 validationErrors := Some [code];
                 pHash := None; similarTo := None; technicalError := None;
                 width := None; height := None; fileSize := None;
                 format := None; processingTime := None; faceCount := None;
                 faceData := None; blurDetails := None |}) in
  ImageService.pipeline lostFace "face-1" upload (world [upload])
  = (Throw error,
     {| images := [row "face-1" "cat.jpg" PROCESSING None];
        trace := [Updated "face-1" PROCESSING] |})
  /\ Processor.pipeline lostFace "face-1" upload (world [upload])
     = (Throw error,
        {| images := [row "face-1" "cat.jpg" PROCESSING None];
           trace := [Updated "face-1" PROCESSING] |})
  /\ mentions error "face"
  /\ ~ mentions error "duplicate" /\ ~ mentions error "resolution"
  /\ ~ mentions error "dimensions" /\ ~ mentions error "size"
  /\ ~ mentions error "format" /\ ~ mentions error "unsupported"
  /\ Processor.processImage lostFace "face-1" (world [upload])
     = (Ok (Some (failed "Multiple faces detected in image. Please upload a photo with at most one face."
                         multiple_faces_detected)),
        {| images :=
             [failed "Multiple faces detected in image. Please upload a photo with at most one face."
                     multiple_faces_detected];
           trace := [Updated "face-1" PROCESSING; Updated "face-1" FAILED] |})
  /\ ImageService.processImage lostFace "face-1" (world [upload])
     = (Ok (Some (failed "Image processing failed" processing_error)),
        {| images := [failed "Image processing failed" processing_error];
           trace := [Updated "face-1" PROCESSING; Updated "face-1" FAILED] |}).
Proof.
  cbv zeta.
  split; [reflexivity |]. split; [reflexivity |].
  split.
  { exists "ENOENT: no such file or directory, open 'uploads/original/face-1.jpg'",
      "ENOENT: no such file or directory, open 'uploads/original/", "-1.jpg'".
    split; reflexivity. }
  repeat (split; [apply mentions_false; reflexivity |]).
  split; reflexivity.
Qed.

(** A lost original is a processing_error; the exception's text is kept in
    development only. *)
Example run_lostOriginal_development :
  snd (Processor.processImage (lostOriginal (Some "development")) "n" (world [pendingRow]))
  = {| images :=
         [row "n" "cat.jpg" FAILED
              (Some {| rejectionReason := Some "Image processing failed";
                       validationErrors := Some [processing_error];
                       pHash := None; similarTo := None;
                       technicalError :=
                         Some "ENOENT: no such file or directory, open 'uploads/original/n.jpg'";
                       width := None; height := None; fileSize := None;
                       format := None; processingTime := None; faceCount := None;
                       faceData := None; blurDetails := None |})];
       trace := [Updated "n" PROCESSING; Updated "n" FAILED] |}.
Proof. vm_compute. reflexivity. Qed.

Example run_lostOriginal_production :
  snd (Processor.processImage (lostOriginal (Some "production")) "n" (world [pendingRow]))
  = {| images :=
         [row "n" "cat.jpg" FAILED
              (Some {| rejectionReason := Some "Image processing failed";
                       validationErrors := Some [processing_error];
                       pHash := None; similarTo := None;
                       technicalError := None;
                       width := None; height := None; fileSize := None;
                       format := None; processingTime := None; faceCount := None;
                       faceData := None; blurDetails := None |})];
       trace := [Updated "n" PROCESSING; Updated "n" FAILED] |}.
Proof. vm_compute. reflexivity. Qed.

(** The order of the table matters: "size" is tried after "resolution" and
    before "format". *)
Example category_order :
  Processor.validationError (Js.error "duplicate face of unsupported size")
  = duplicate_image_detected
  /\ Processor.validationError (Js.error "unsupported size and format")
     = size_validation_failed
  /\ Processor.validationError (Js.error "unsupported face") = format_validation_failed
  /\ Processor.validationError (Js.error "no face found") = multiple_faces_detected
  /\ Processor.validationError (Js.error "S3 bucket name not configured")
     = processing_error
  /\ Processor.validationError {| statusCode := None; message := None |}
     = processing_error.
Proof. repeat split. Qed.

(** *** An original that does not decode *)

(** When the metadata of the original cannot be read, the size stage answers
    with a rejection, but the run reads the metadata once more to fill in
    the rejection's width and height; that read throws, and the record is
    written by the catch block, under the code its table picks. *)
Lemma processImage_undecodable
  (env : Env) (w : World) (imageId : string) (image : Image)
  (imageBuffer : Buffer) (error : Error) :
  prismaFault env = None ->
  find (fun r => String.eqb (id r) imageId) (images w) = Some image ->
  status image = PENDING ->
  getImageBuffer env (originalPath image) = Ok imageBuffer ->
  sharp_metadata env imageBuffer = Throw error ->
  SizeValidation.validateImageSize env imageBuffer
  = {| SizeValidation.isValid := false;
       SizeValidation.reason :=
         Some ("Failed to validate image: " ++ show_message (message error)) |}
  /\ Processor.processImage env imageId w
     = (Ok (Some (apply_update
                    (Processor.setFailed (Processor.errorMetaData env error))
                    (apply_update (Processor.setStatus PROCESSING) image))),
        {| images :=
             replace_row imageId
               (Processor.setFailed (Processor.errorMetaData env error))
               (replace_row imageId (Processor.setStatus PROCESSING) (images w));
           trace :=
             (trace w ++ [Updated imageId PROCESSING; Invoked SizeStage;
                          Updated imageId FAILED])%list |}).
Proof.
  intros F Hfind Hst Hbuf Hmd.
  assert (Hsize :
    SizeValidation.validateImageSize env imageBuffer
    = {| SizeValidation.isValid := false;
         SizeValidation.reason :=
           Some ("Failed to validate image: " ++ show_message (message error)) |})
    by (unfold SizeValidation.validateImageSize; rewrite Hmd; reflexivity).
  split; [exact Hsize |].
  assert (Hfind1 := find_replace_row _ _ (Processor.setStatus PROCESSING) _ Hfind).
  rewrite (processImage_pending env w imageId image F Hfind Hst).
  unfold Processor.pipeline, Processor.onError. monad.
  rewrite (update_run env imageId _ w image F Hfind). monad.
  rewrite Hbuf. monad. rewrite Hsize. cbn [SizeValidation.isValid]. monad.
  rewrite Hmd.
  erewrite update_run; [| exact F | exact Hfind1]. monad.
  rewrite (findUnique_run _ _ _ F). monad.
  rewrite (find_replace_row _ _ _ _ Hfind1).
  f_equal. f_equal. rewrite <- !app_assoc. reflexivity.
Qed.

(** C9. On an original that sharp cannot decode the size stage does not
    throw and answers "Failed to validate image: ...", yet the run does not
    end with size_validation_failed: with sharp's message for such a buffer
    the record is written FAILED under format_validation_failed. *)
Theorem undecodable_upload_recorded_as_format_failure :
  SizeValidation.validateImageSize unreadable (blob 204800)
  = {| SizeValidation.isValid := false;
       SizeValidation.reason :=
         Some "Failed to validate image: Input buffer contains unsupported image format" |}
  /\ Processor.processImage unreadable "n" (world [pendingRow])
     = (Ok (Some (row "n" "cat.jpg" FAILED
                      (Some {| rejectionReason :=
                                 Some "Unsupported image format. Please use JPEG, PNG, or HEIC formats";
                               validationErrors := Some [format_validation_failed];
                               pHash := None; similarTo := None;
                               technicalError := None;
                               width := None; height := None; fileSize := None;
                               format := None; processingTime := None;
                               faceCount := None; faceData := None;
                               blurDetails := None |}))),
        {| images :=
             [row "n" "cat.jpg" FAILED
                  (Some {| rejectionReason :=
                             Some "Unsupported image format. Please use JPEG, PNG, or HEIC formats";
                           validationErrors := Some [format_validation_failed];
                           pHash := None; similarTo := None;
                           technicalError := None;
                           width := None; height := None; fileSize := None;
                           format := None; processingTime := None;
                           faceCount := None; faceData := None;
                           blurDetails := None |})];
           trace := [Updated "n" PROCESSING; Invoked SizeStage; Updated "n" FAILED] |}).
Proof. split; vm_compute; reflexivity. Qed.

(** ** Manual reprocessing *)

(** With the store at hand the service's run never throws: what its body
    throws its catch block records. *)
Lemma service_processImage_returns
  (env : Env) (w : World) (imageId : string) (image : Image) :
  prismaFault env = None ->
  find (fun r => String.eqb (id r) imageId) (images w) = Some image ->
  exists r, fst (ImageService.processImage env imageId w) = Ok r.
Proof.
  intros F Hfind. unfold ImageService.processImage, Prisma.bind at 1.
  rewrite (findUnique_run env imageId w F), Hfind.
  destruct (negb (status_eqb (status image) PENDING)); [eexists; reflexivity |].
  unfold tryCatch.
  pose proof (keeps_service_pipeline env imageId image w (ex_intro _ image Hfind)) as P.
  destruct (ImageService.pipeline env imageId image w) as [[r | e] w'];
    [eexists; reflexivity |].
  cbn [snd] in P. destruct P as (r' & Hr').
  unfold ImageService.onError. monad.
  rewrite (update_run env imageId _ w' r' F Hr'). monad.
  rewrite (findUnique_run _ _ _ F). eexists. reflexivity.
Qed.

Lemma controller_run (env : Env) (w : World) (imageId : string) :
  prismaFault env = None ->
  ImageController.processImage env imageId w
  = match find (fun r => String.eqb (id r) imageId) (images w) with
    | None => (ImageController.Next (apiError 404 "Image not found"), w)
    | Some image =>
        if status_eqb (status image) PROCESSED
        then (ImageController.Next (apiError 400 "Image already processed"), w)
        else
          match ImageService.processImage env imageId w with
          | (Ok _, w') =>
              (ImageController.Json 202 true "Image processing started" imageId, w')
          | (Throw e, w') => (ImageController.Next e, w')
          end
    end.
Proof.
  intros F. unfold ImageController.processImage. unfold Prisma.bind at 1.
  rewrite (findUnique_run env imageId w F).
  destruct (find _ (images w)) as [image |]; [| reflexivity].
  destruct (status_eqb (status image) PROCESSED); [reflexivity |].
  unfold Prisma.bind.
  destruct (ImageService.processImage env imageId w) as [[r | e] w']; reflexivity.
Qed.

(** The checks of the handler: not-found (404) when there is no record,
    already-processed (400) when the record is PROCESSED; a PENDING record
    is handed to the run and the answer is 202. *)
Lemma reprocess_gates (env : Env) (w : World) (imageId : string) :
  prismaFault env = None ->
  let found := find (fun r => String.eqb (id r) imageId) (images w) in
  let accepted := ImageController.Json 202 true "Image processing started" imageId in
  (found = None ->
   ImageController.processImage env imageId w
   = (ImageController.Next (apiError 404 "Image not found"), w))
  /\ (forall image, found = Some image -> status image = PROCESSED ->
      ImageController.processImage env imageId w
      = (ImageController.Next (apiError 400 "Image already processed"), w))
  /\ (forall image, found = Some image -> status image = PENDING ->
      ImageController.processImage env imageId w
      = (accepted, snd (ImageService.processImage env imageId w))).
Proof.
  intros F found accepted. subst found.
  rewrite (controller_run env w imageId F).
  split; [intros ->; reflexivity |].
  split; [intros image -> ->; reflexivity |].
  intros image Hfind Hst. rewrite Hfind, Hst. cbn [status_eqb].
  destruct (service_processImage_returns env w imageId image F Hfind) as (r & Hr).
  destruct (ImageService.processImage env imageId w) as [[r' | e] w'];
    [reflexivity | discriminate].
Qed.

(** C2. Reprocessing resets nothing.  For a record that is FAILED (or
    PROCESSING), [POST /api/images/:id/process] answers 202 with the
    message "Image processing started" and leaves the store exactly as it
    was.  The record is not moved to PENDING, it keeps
    its status, no write is made and no stage is invoked: the handler lets
    every record that is not PROCESSED through to the run, and the run
    returns any record that is not PENDING as it found it. *)
Theorem reprocess_does_not_reset_failed_record
  (env : Env) (w : World) (imageId : string) (image : Image) :
  prismaFault env = None ->
  find (fun r => String.eqb (id r) imageId) (images w) = Some image ->
  status image = FAILED \/ status image = PROCESSING ->
  ImageController.processImage env imageId w
  = (ImageController.Json 202 true "Image processing started" imageId, w)
  /\ ImageService.processImage env imageId w = (Ok (Some image), w)
  /\ status image <> PENDING.
Proof.
  intros F Hfind Hst.
  assert (Hrun : ImageService.processImage env imageId w = (Ok (Some image), w)).
  { unfold ImageService.processImage, Prisma.bind at 1.
    rewrite (findUnique_run env imageId w F), Hfind.
    destruct Hst as [-> | ->]; reflexivity. }
  split; [| split; [exact Hrun |]].
  - rewrite (controller_run env w imageId F), Hfind, Hrun.
    destruct Hst as [-> | ->]; reflexivity.
  - destruct Hst as [-> | ->]; discriminate.
Qed.

Lemma reprocess_does_not_reset_failed_record_witness :
  ImageController.processImage quietEnv "n" (world [failedRow])
  = (ImageController.Json 202 true "Image processing started" "n", world [failedRow]).
Proof.
  apply (reprocess_does_not_reset_failed_record
           quietEnv (world [failedRow]) "n" failedRow eq_refl eq_refl).
  left. reflexivity.
Defined.

(** The same on a table that holds one FAILED record: after the 202 the
    record is still FAILED, and the trace shows neither a write nor a
    stage. *)
Example reprocess_leaves_failed_record :
  ImageController.processImage quietEnv "n" (world [failedRow])
  = (ImageController.Json 202 true "Image processing started" "n",
     {| images := [failedRow]; trace := [] |})
  /\ status failedRow = FAILED
  /\ option_map status
       (find (fun r => String.eqb (id r) "n")
          (images (snd (ImageController.processImage quietEnv "n" (world [failedRow])))))
     <> Some PENDING.
Proof. repeat split. cbn. discriminate. Qed.

(** A PENDING record is run at once, to a terminal state. *)
Example reprocess_pending_record :
  ImageController.processImage (portrait 500 500) "n" (world [pendingRow])
  = (ImageController.Json 202 true "Image processing started" "n",
     {| images :=
          [row "n" "cat.jpg" FAILED
               (Some (Processor.sizeRejection
                        (Some "Image resolution too low. Minimum required: 800x800px, got: 500x500px")
                        500 500 204800))];
        trace := [Updated "n" PROCESSING; Invoked SizeStage; Updated "n" FAILED] |}).
Proof. vm_compute. reflexivity. Qed.

Example reprocess_processed_record :
  ImageController.processImage quietEnv "a"
    (world [row "a" "cat.jpg" PROCESSED (hashed uniformHash)])
  = (ImageController.Next (apiError 400 "Image already processed"),
     world [row "a" "cat.jpg" PROCESSED (hashed uniformHash)]).
Proof. reflexivity. Qed.

(** ** The perceptual hash *)

Lemma substring_all (s : string) : substring 0 (String.length s) s = s.
Proof. induction s as [| c s IH]; cbn; [reflexivity | rewrite IH; reflexivity]. Qed.

Lemma chunks_eight (fuel : nat) (c0 c1 c2 c3 c4 c5 c6 c7 : ascii) (rest : string) :
  chunks (S fuel)
    (String c0 (String c1 (String c2 (String c3
      (String c4 (String c5 (String c6 (String c7 rest))))))))
  = String c0 (String c1 (String c2 (String c3
      (String c4 (String c5 (String c6 (String c7 EmptyString)))))))
    :: chunks fuel rest.
Proof.
  cbn [chunks substring String.length Nat.sub].
  rewrite Nat.sub_0_r, substring_all.
  destruct rest; reflexivity.
Qed.

Lemma decode_byte (c0 c1 c2 c3 c4 c5 c6 c7 : ascii) (acc : string) :
  Hex.decode
    (Hex.of_byte
       (parseInt2
          (String c0 (String c1 (String c2 (String c3
            (String c4 (String c5 (String c6 (String c7 EmptyString)))))))))
     ++ acc)
  = (128 * bit_value c0 + 64 * bit_value c1 + 32 * bit_value c2
     + 16 * bit_value c3 + 8 * bit_value c4 + 4 * bit_value c5
     + 2 * bit_value c6 + bit_value c7) :: Hex.decode acc.
Proof.
  unfold parseInt2, bit_value. cbn [parseInt2_from].
  destruct (Ascii.eqb c0 "1"), (Ascii.eqb c1 "1"), (Ascii.eqb c2 "1"),
    (Ascii.eqb c3 "1"), (Ascii.eqb c4 "1"), (Ascii.eqb c5 "1"),
    (Ascii.eqb c6 "1"), (Ascii.eqb c7 "1"); reflexivity.
Qed.

(** On a bit string of whole bytes, splitting into pieces of eight, printing
    each piece in hexadecimal and reading the text back as bytes is the
    most-significant-bit-first packing. *)
Lemma decode_chunks (n : nat) :
  forall (bits : string) (fuel : nat),
    String.length bits = (8 * n)%nat -> (n <= fuel)%nat ->
    Hex.decode
      (fold_right (fun piece acc => Hex.of_byte (parseInt2 piece) ++ acc)
                  "" (chunks fuel bits))
    = pack_msb_first bits
    /\ List.length (pack_msb_first bits) = n.
Proof.
  induction n as [| n IH]; intros bits fuel Hlen Hfuel.
  - destruct bits; [| discriminate]. destruct fuel; split; reflexivity.
  - destruct fuel as [| fuel]; [lia |].
    destruct bits as [| c0 [| c1 [| c2 [| c3 [| c4 [| c5 [| c6 [| c7 rest]]]]]]]];
      cbn [String.length] in Hlen; try lia.
    assert (Hrest : String.length rest = (8 * n)%nat) by lia.
    destruct (IH rest fuel Hrest ltac:(lia)) as (E & L).
    rewrite chunks_eight. cbn [fold_right pack_msb_first List.length].
    rewrite decode_byte, E, L. split; reflexivity.
Qed.

Lemma hashBuffer_packs (n : nat) (bits : string) :
  String.length bits = (8 * S n)%nat ->
  hashBuffer bits = Ok (pack_msb_first bits)
  /\ List.length (pack_msb_first bits) = S n.
Proof.
  intros Hlen. unfold hashBuffer.
  destruct (decode_chunks (S n) bits (String.length bits) Hlen ltac:(lia)) as (E & L).
  split; [| exact L].
  destruct (chunks (String.length bits) bits) as [| piece pieces] eqn:C.
  - cbn in E. rewrite <- E in L. discriminate.
  - rewrite E. reflexivity.
Qed.

Lemma threshold_length (avg : float) (pixels : Buffer) :
  String.length (threshold avg pixels) = List.length pixels.
Proof. induction pixels as [| px rest IH]; cbn; [reflexivity | rewrite IH; reflexivity]. Qed.

Lemma threshold_get (avg : float) (pixels : Buffer) :
  forall (i : nat) (px : Byte.byte),
    nth_error pixels i = Some px ->
    get i (threshold avg pixels)
    = Some (if PrimFloat.leb avg (float_of_Z (byte_value px))
            then "1"%char else "0"%char).
Proof.
  induction pixels as [| p rest IH]; intros [| i] px H; cbn in *; try discriminate.
  - injection H as ->. reflexivity.
  - apply IH. exact H.
Qed.

Lemma digest_length (msg : list Z) : List.length (Md5.digest msg) = 16%nat.
Proof.
  unfold Md5.digest.
  destruct (fold_left Md5.compress _ Md5.init) as [[[a b] c] d]. reflexivity.
Qed.

Lemma encode_length (bs : list Z) :
  String.length (Hex.encode bs) = (2 * List.length bs)%nat.
Proof.
  induction bs as [| b bs IH]; [reflexivity |].
  change (Hex.encode (b :: bs))
    with (String (Hex.digit (b / 16)) (String (Hex.digit (b mod 16)) (Hex.encode bs))).
  cbn [String.length List.length]. rewrite IH. lia.
Qed.

Lemma digit_is_hex (v : Z) : is_hex_digit (Hex.digit v) = true.
Proof.
  unfold Hex.digit.
  destruct (Z.to_nat v) as [| [| [| [| [| [| [| [| [| [| [| [| [| [| [| [| k]]]]]]]]]]]]]]]];
    try reflexivity.
  destruct k; reflexivity.
Qed.

Lemma encode_all_hex (bs : list Z) : all_hex (Hex.encode bs) = true.
Proof.
  induction bs as [| b bs IH]; [reflexivity |].
  change (Hex.encode (b :: bs))
    with (String (Hex.digit (b / 16)) (String (Hex.digit (b mod 16)) (Hex.encode bs))).
  cbn [all_hex]. rewrite !digit_is_hex, IH. reflexivity.
Qed.

(** C8, as amended. Where [generateImageHash] succeeds, the hash comes from
    the 32x32 grayscale thumbnail: one bit a pixel, 1 exactly when the pixel
    is at least the average; the 1024 bits are packed eight to a byte, the
    first pixel of each eight in the byte's highest bit; the hash is the MD5
    digest of these 128 bytes in hexadecimal, 32 lowercase hexadecimal
    characters.  The same buffer gives the same hash. *)
Theorem generateImageHash_packs_msb_first
  (env : Env) (imageBuffer : Buffer) (hash : string) :
  generateImageHash env imageBuffer = Ok hash ->
  exists resizedImage : Buffer,
    sharp_thumbnail env imageBuffer = Ok resizedImage
    /\ String.length (binaryHash resizedImage) = List.length resizedImage
    /\ (forall (i : nat) (pixel : Byte.byte),
          nth_error resizedImage i = Some pixel ->
          get i (binaryHash resizedImage)
          = Some (if PrimFloat.leb (average resizedImage)
                                   (float_of_Z (byte_value pixel))
                  then "1"%char else "0"%char))
    /\ (List.length resizedImage = 1024%nat ->
        hashBuffer (binaryHash resizedImage)
        = Ok (pack_msb_first (binaryHash resizedImage))
        /\ List.length (pack_msb_first (binaryHash resizedImage)) = 128%nat
        /\ hash = Hex.encode (Md5.digest (pack_msb_first (binaryHash resizedImage))))
    /\ String.length hash = 32%nat
    /\ all_hex hash = true
    /\ (forall other : Buffer,
          other = imageBuffer -> generateImageHash env other = Ok hash).
Proof.
  intros H. unfold generateImageHash in H.
  destruct (sharp_thumbnail env imageBuffer) as [resizedImage | e] eqn:T;
    cbn [rbind] in H; [| discriminate].
  exists resizedImage. split; [reflexivity |].
  split; [apply threshold_length |].
  split; [intros i pixel Hi; apply threshold_get; exact Hi |].
  destruct (hashBuffer (binaryHash resizedImage)) as [bytes | e] eqn:B;
    cbn [rbind] in H; [| discriminate].
  injection H as <-.
  split.
  { intros L.
    destruct (hashBuffer_packs 127 (binaryHash resizedImage)) as (E & N).
    { unfold binaryHash. rewrite threshold_length, L. reflexivity. }
    rewrite B in E. injection E as ->.
    split; [reflexivity |]. split; [exact N | reflexivity]. }
  split; [rewrite encode_length, digest_length; reflexivity |].
  split; [apply encode_all_hex |].
  intros other ->. unfold generateImageHash. rewrite T. cbn [rbind].
  rewrite B. reflexivity.
Qed.

Lemma generateImageHash_packs_msb_first_witness :
  generateImageHash brightCorner (blob 204800)
  = Ok "2f9580f22554e6bba4269b3496906279"
  /\ hashBuffer (binaryHash brightCornerPixels)
     = Ok (pack_msb_first (binaryHash brightCornerPixels)).
Proof.
  assert (H : generateImageHash brightCorner (blob 204800)
              = Ok "2f9580f22554e6bba4269b3496906279")
    by (vm_compute; reflexivity).
  destruct (generateImageHash_packs_msb_first brightCorner (blob 204800) _ H)
    as (resizedImage & T & _ & _ & Hpack & _).
  injection T as <-.
  destruct (Hpack eq_refl) as (E & _).
  split; [exact H | exact E].
Defined.

(** A thumbnail whose first pixel alone reaches the average: the first byte
    of the packed buffer is 128, where the least-significant-bit-first
    packing of the specification has 1, and the two digests differ. *)
Lemma generateImageHash_not_lsb_first :
  sharp_thumbnail brightCorner (blob 204800) = Ok brightCornerPixels
  /\ hashBuffer (binaryHash brightCornerPixels) = Ok (128 :: repeat 0 127)
  /\ spec_pack_lsb_first (binaryHash brightCornerPixels) = 1 :: repeat 0 127
  /\ generateImageHash brightCorner (blob 204800)
     = Ok "2f9580f22554e6bba4269b3496906279"
  /\ Hex.encode (Md5.digest (spec_pack_lsb_first (binaryHash brightCornerPixels)))
     = "1d697ed4fbc9fc9a46dbd45d22969a25"
  /\ generateImageHash brightCorner (blob 204800)
     <> Ok (Hex.encode
              (Md5.digest (spec_pack_lsb_first (binaryHash brightCornerPixels)))).
Proof.
  split; [reflexivity |].
  split; [vm_compute; reflexivity |].
  split; [vm_compute; reflexivity |].
  split; [vm_compute; reflexivity |].
  split; [vm_compute; reflexivity |].
  vm_compute. discriminate.
Qed.

(** A hash of lowercase hexadecimal digits expands to four binary characters
    a digit, so two 32-digit hashes are compared over 128 positions. *)
Lemma hex_digit_value (c : ascii) :
  is_hex_digit c = true -> exists v, Hex.value c = Some v.
Proof.
  unfold is_hex_digit. cbn [existsb]. intros H.
  repeat (apply orb_true_iff in H;
          destruct H as [H | H];
          [apply Ascii.eqb_eq in H; subst c; eexists; reflexivity |]).
  discriminate.
Qed.

Lemma hexToBinary_length (h : string) :
  all_hex h = true ->
  String.length (hexToBinary h) = (4 * String.length h)%nat.
Proof.
  induction h as [| c h IH]; [reflexivity |].
  cbn [all_hex]. intros H. apply andb_true_iff in H as (Hc & Hh).
  destruct (hex_digit_value c Hc) as (v & Hv).
  cbn [hexToBinary String.length]. unfold nibble. rewrite Hv.
  cbn [append String.length]. rewrite (IH Hh). lia.
Qed.

(** An empty thumbnail makes the hash throw, under the wrapper's message. *)
Example generateImageHash_empty_thumbnail :
  generateImageHash
    (studio (Ok (dims 900 900)) (Ok (flat 60%float)) (Ok (flat 60%float))
            (Ok oneFace) (Ok []) (Ok (blob 204800)) None None)
    (blob 204800)
  = Throw (Js.error "Failed to generate image hash: Cannot read properties of null (reading 'map')").
Proof. vm_compute. reflexivity. Qed.

(** ** The older run of imageService.js *)

(** The run the controller calls has the size stage and the duplicate check
    only: the wide photograph that [processor.js] stops at the face stage
    goes through, and a message about a face is a processing_error. *)
Example service_run_groupPhoto :
  let '(result, w') := ImageService.processImage groupPhoto "n" (world [pendingRow]) in
  option_map status (match result with Ok r => r | Throw _ => None end)
  = Some PROCESSED
  /\ trace w'
     = [Updated "n" PROCESSING; Invoked SizeStage; Invoked HashStage;
        Invoked DuplicateStage; Updated "n" PROCESSED].
Proof. vm_compute. repeat split. Qed.

Example service_category_face :
  ImageService.validationError (Js.error "no face found") = processing_error
  /\ Processor.validationError (Js.error "no face found") = multiple_faces_detected.
Proof. split; reflexivity. Qed.

(** ** What a run may change *)

Section Triples.
Variable env : Env.

Lemma triple_ret {A} (P : World -> Prop) (a : A) (Q : A -> World -> Prop)
      (E : World -> Prop) :
  (forall w, P w -> Q a w) -> triple P (ret a) Q E.
Proof. intros H w Hw. exact (H w Hw). Qed.

Lemma triple_throw {A} (P : World -> Prop) (e : Error) (Q : A -> World -> Prop)
      (E : World -> Prop) :
  (forall w, P w -> E w) -> triple P (throw e) Q E.
Proof. intros H w Hw. exact (H w Hw). Qed.

Lemma triple_await {A} (P : World -> Prop) (r : Result A)
      (Q : A -> World -> Prop) (E : World -> Prop) :
  (forall a w, r = Ok a -> P w -> Q a w) -> (forall w, P w -> E w) ->
  triple P (await r) Q E.
Proof.
  intros HQ HE w Hw. unfold await.
  destruct r; [apply HQ; [reflexivity | exact Hw] | apply HE; exact Hw].
Qed.

Lemma triple_bind {A B} (P : World -> Prop) (m : M A) (k : A -> M B)
      (Q1 : A -> World -> Prop) (Q : B -> World -> Prop) (E : World -> Prop) :
  triple P m Q1 E -> (forall a, triple (Q1 a) (k a) Q E) ->
  triple P (Prisma.bind m k) Q E.
Proof.
  intros Hm Hk w Hw. unfold Prisma.bind. specialize (Hm w Hw).
  destruct (m w) as [[a | e] w']; [apply Hk; exact Hm | exact Hm].
Qed.

Lemma triple_tryCatch {A} (P : World -> Prop) (m : M A) (h : Error -> M A)
      (Q : A -> World -> Prop) (E1 E : World -> Prop) :
  triple P m Q E1 -> (forall e, triple E1 (h e) Q E) ->
  triple P (tryCatch m h) Q E.
Proof.
  intros Hm Hh w Hw. unfold tryCatch. specialize (Hm w Hw).
  destruct (m w) as [[a | e] w']; [exact Hm | apply Hh; exact Hm].
Qed.

Lemma triple_log (P : World -> Prop) (e : Event) (Q : unit -> World -> Prop)
      (E : World -> Prop) :
  (forall w, P w -> Q tt (logged e w)) -> triple P (log e) Q E.
Proof. intros H w Hw. exact (H w Hw). Qed.

Lemma triple_invoke {A} (P : World -> Prop) (s : Stage) (m : M A)
      (Q : A -> World -> Prop) (E : World -> Prop) :
  (forall w, P w -> P (logged (Invoked s) w)) -> triple P m Q E ->
  triple P (invoke s m) Q E.
Proof.
  intros Hlog Hm. unfold invoke.
  apply triple_bind with (Q1 := fun _ => P); [| intros _; exact Hm].
  apply triple_log. exact Hlog.
Qed.

Lemma triple_findUnique (P : World -> Prop) (i : string)
      (Q : option Image -> World -> Prop) (E : World -> Prop) :
  (forall w, P w -> Q (find (fun r => String.eqb (id r) i) (images w)) w) ->
  (forall w, P w -> E w) ->
  triple P (findUnique env i) Q E.
Proof.
  intros HQ HE w Hw. unfold findUnique.
  destruct (prismaFault env); [apply HE | apply HQ]; exact Hw.
Qed.

Lemma triple_update (P : World -> Prop) (i : string) (d : UpdateData)
      (Q : Image -> World -> Prop) (E : World -> Prop) :
  (forall w r, P w -> find (fun x => String.eqb (id x) i) (images w) = Some r ->
               Q (apply_update d r) (written i d r w)) ->
  (forall w, P w -> E w) ->
  triple P (update env i d) Q E.
Proof.
  intros HQ HE w Hw. unfold update.
  destruct (prismaFault env); [apply HE; exact Hw |].
  destruct (find _ (images w)) as [r |] eqn:F; [| apply HE; exact Hw].
  apply HQ; [exact Hw | exact F].
Qed.

Lemma triple_checkDuplicateImage (P : World -> Prop) (hash : string)
      (e : option string) (name : string)
      (Q : DuplicateCheck -> World -> Prop) (E : World -> Prop) :
  (forall a w, P w -> Q a w) ->
  triple P (checkDuplicateImage env hash e name) Q E.
Proof.
  intros HQ w Hw. unfold checkDuplicateImage, tryCatch, Prisma.bind, findProcessed.
  destruct (prismaFault env); [apply HQ; exact Hw |].
  destruct (if truthy name then _ else _); apply HQ; exact Hw.
Qed.

End Triples.

(** One step of a proof that a run keeps [I]: the rule for the head of the
    run, with [I] as the assertion between the steps. *)
Ltac invariant_step I :=
  first
    [ apply triple_ret; intros ? ?; assumption
    | apply triple_throw; intros ? ?; assumption
    | apply triple_await; intros; assumption
    | apply triple_checkDuplicateImage; intros; assumption
    | apply triple_findUnique; intros; assumption
    | apply triple_invoke; [solve [auto] |]
    | apply triple_update; [| intros; assumption]
    | apply triple_tryCatch with (E1 := I); [| intro]
    | apply triple_bind with (Q1 := fun _ => I); [| intro; cbv beta]
    | match goal with
      | |- triple _ (if ?b then _ else _) _ _ => destruct b
      | |- triple _ (match ?x with _ => _ end) _ _ => destruct x
      end ].

Section Footprint.
Variable env : Env.
Variable imageId : string.
Variable I : World -> Prop.
Hypothesis I_logged : forall w e, I w -> I (logged e w).
Hypothesis I_written :
  forall w d r, pipelineWrite d ->
    find (fun x => String.eqb (id x) imageId) (images w) = Some r ->
    I w -> I (written imageId d r w).

Lemma pipeline_footprint (image : Image) :
  triple I (Processor.pipeline env imageId image) (fun _ => I) I.
Proof.
  unfold Processor.pipeline, Processor.faceStage, Processor.accept,
    Processor.onError.
  repeat invariant_step I;
    intros; apply I_written; try assumption;
    solve [constructor | econstructor; reflexivity].
Qed.

Lemma processImage_footprint :
  triple I (Processor.processImage env imageId) (fun _ => I) I.
Proof.
  unfold Processor.processImage, Processor.onError.
  apply triple_bind with (Q1 := fun _ => I);
    [apply triple_findUnique; intros; assumption |].
  intros [image |]; [| apply triple_throw; intros; assumption].
  destruct (negb _); [apply triple_ret; intros; assumption |].
  apply triple_tryCatch with (E1 := I); [apply pipeline_footprint |].
  intros e. repeat invariant_step I.
  intros; apply I_written; try assumption; constructor.
Qed.

Lemma service_pipeline_footprint (image : Image) :
  triple I (ImageService.pipeline env imageId image) (fun _ => I) I.
Proof.
  unfold ImageService.pipeline.
  repeat invariant_step I;
    intros; apply I_written; try assumption;
    solve [constructor | econstructor; reflexivity].
Qed.

Lemma service_processImage_footprint :
  triple I (ImageService.processImage env imageId) (fun _ => I) I.
Proof.
  unfold ImageService.processImage, ImageService.onError.
  apply triple_bind with (Q1 := fun _ => I);
    [apply triple_findUnique; intros; assumption |].
  intros [image |]; [| apply triple_throw; intros; assumption].
  destruct (negb _); [apply triple_ret; intros; assumption |].
  apply triple_tryCatch with (E1 := I); [apply service_pipeline_footprint |].
  intros e. repeat invariant_step I.
  intros; apply I_written; try assumption; constructor.
Qed.

End Footprint.

(** ** The frame of a run *)

Lemma sameUpload_refl (r : Image) : sameUpload r r.
Proof. repeat split. Qed.

Lemma sameUpload_trans (a b c : Image) :
  sameUpload a b -> sameUpload b c -> sameUpload a c.
Proof.
  unfold sameUpload. intros (? & ? & ? & ? & ?) (? & ? & ? & ? & ?).
  repeat split; congruence.
Qed.

Lemma sameUpload_apply_update (d : UpdateData) (r : Image) :
  sameUpload r (apply_update d r).
Proof. repeat split. Qed.

Lemma pipelineWrite_status (d : UpdateData) (r : Image) :
  pipelineWrite d -> status (apply_update d r) <> PENDING.
Proof. intros []; cbn; discriminate. Qed.

Lemma touchesOnly_refl (rowId : string) (w : World) : touchesOnly rowId w w.
Proof.
  split; [| exists []; symmetry; apply app_nil_r].
  induction (images w) as [| r rows IH]; constructor; [| exact IH].
  split; [apply sameUpload_refl | split; reflexivity].
Qed.

Lemma touchesOnly_logged (rowId : string) (w0 w : World) (e : Event) :
  touchesOnly rowId w0 w -> touchesOnly rowId w0 (logged e w).
Proof.
  intros (H & t & Ht). split; [exact H |].
  exists (t ++ [e])%list. cbn [logged trace]. rewrite Ht. symmetry. apply app_assoc.
Qed.

Lemma touchesOnly_written
  (rowId : string) (w0 w : World) (d : UpdateData) (r : Image) :
  pipelineWrite d -> touchesOnly rowId w0 w ->
  touchesOnly rowId w0 (written rowId d r w).
Proof.
  intros Hd (H & t & Ht). split.
  - cbn [written images]. induction H as [| a b rows rows' (Hs & Hother & Hpending) HF IH];
      cbn [replace_row]; [constructor |].
    destruct (String.eqb_spec (id b) rowId) as [E | N].
    + constructor; [| exact HF].
      split; [exact (sameUpload_trans _ _ _ Hs (sameUpload_apply_update d b)) |].
      split.
      * intros Ha. destruct Hs as (Hid & _). congruence.
      * intros Hp. destruct (pipelineWrite_status d b Hd Hp).
    + constructor; [| exact IH]. exact (conj Hs (conj Hother Hpending)).
  - eexists. cbn [written trace]. rewrite Ht, <- app_assoc. reflexivity.
Qed.

(** X1. Whatever the collaborators answer, and whether or not the store
    works, a run of [processImage] (of processor.js and of imageService.js)
    on [imageId] leaves the table with the same rows in the same order;
    every row keeps its id, original name, size, path and file type; rows
    with another id are not changed at all; no row is moved to PENDING; and
    the trace is only extended. *)
Theorem processImage_touches_only_its_row
  (env : Env) (imageId : string) (w : World) :
  touchesOnly imageId w (snd (Processor.processImage env imageId w))
  /\ touchesOnly imageId w (snd (ImageService.processImage env imageId w)).
Proof.
  split.
  - pose proof (processImage_footprint env imageId (touchesOnly imageId w)
                  (fun w' e => touchesOnly_logged imageId w w' e)
                  (fun w' d r Hd _ => touchesOnly_written imageId w w' d r Hd)
                  w (touchesOnly_refl imageId w)) as H.
    destruct (Processor.processImage env imageId w) as [[a | e] w']; exact H.
  - pose proof (service_processImage_footprint env imageId (touchesOnly imageId w)
                  (fun w' e => touchesOnly_logged imageId w w' e)
                  (fun w' d r Hd _ => touchesOnly_written imageId w w' d r Hd)
                  w (touchesOnly_refl imageId w)) as H.
    destruct (ImageService.processImage env imageId w) as [[a | e] w']; exact H.
Qed.

Lemma complete_apply_update (d : UpdateData) (r : Image) :
  pipelineWrite d -> complete (apply_update d r).
Proof.
  intros [| m | m path size h Hh] Hst; try discriminate Hst.
  cbn. repeat split; try discriminate. exists m, h. split; [reflexivity | exact Hh].
Qed.

Lemma complete_written (rowId : string) (d : UpdateData) (rows : list Image) :
  pipelineWrite d -> Forall complete rows ->
  Forall complete (replace_row rowId d rows).
Proof.
  intros Hd H. induction H as [| r rows Hr HF IH]; cbn [replace_row]; [constructor |].
  destruct (String.eqb (id r) rowId); constructor;
    [apply complete_apply_update; exact Hd | exact HF | exact Hr | exact IH].
Qed.

(** X2. A PROCESSED row is complete when it has a processed path, a
    processed size and a metaData with a pHash.  If every PROCESSED row of
    the table is complete, so is every PROCESSED row after a run of
    [processImage] (either service), whatever the collaborators answer: the
    pipelines never leave a PROCESSED row without its derivative or its
    hash. *)
Theorem processImage_keeps_processed_rows_complete
  (env : Env) (imageId : string) (w : World) :
  Forall complete (images w) ->
  Forall complete (images (snd (Processor.processImage env imageId w)))
  /\ Forall complete (images (snd (ImageService.processImage env imageId w))).
Proof.
  intros H. split.
  - pose proof (processImage_footprint env imageId
                  (fun w' => Forall complete (images w'))
                  (fun w' e Hw => Hw)
                  (fun w' d r Hd _ Hw => complete_written imageId d (images w') Hd Hw)
                  w H) as K.
    destruct (Processor.processImage env imageId w) as [[a | e] w']; exact K.
  - pose proof (service_processImage_footprint env imageId
                  (fun w' => Forall complete (images w'))
                  (fun w' e Hw => Hw)
                  (fun w' d r Hd _ Hw => complete_written imageId d (images w') Hd Hw)
                  w H) as K.
    destruct (ImageService.processImage env imageId w) as [[a | e] w']; exact K.
Qed.

Lemma processImage_keeps_processed_rows_complete_witness :
  Forall complete
    (images (snd (Processor.processImage (portrait 900 900) "n"
                    (world [row "m" "dog.jpg" FAILED None; pendingRow]))))
  /\ Forall complete
       (images (snd (ImageService.processImage (portrait 900 900) "n"
                       (world [row "m" "dog.jpg" FAILED None; pendingRow])))).
Proof.
  apply (processImage_keeps_processed_rows_complete (portrait 900 900) "n"
           (world [row "m" "dog.jpg" FAILED None; pendingRow])).
  constructor; [intros H; discriminate H |].
  constructor; [intros H; discriminate H | constructor].
Defined.

(** ** Where a run ends *)

Lemma validateImageSize_reason (env : Env) (imageBuffer : Buffer) :
  SizeValidation.isValid (SizeValidation.validateImageSize env imageBuffer) = false ->
  exists s,
    SizeValidation.reason (SizeValidation.validateImageSize env imageBuffer) = Some s.
Proof.
  unfold SizeValidation.validateImageSize.
  destruct (sharp_metadata env imageBuffer) as [metadata | e];
    [| intros _; eexists; reflexivity].
  destruct (_ || _); [intros _; eexists; reflexivity |].
  destruct (_ <? _); [intros _; eexists; reflexivity | discriminate].
Qed.

Lemma validateFaceCount_body_reason
  (env : Env) (imageBuffer : Buffer) (v : FaceDetection.Validation) :
  FaceDetection.validateFaceCount_body env imageBuffer = Ok v ->
  FaceDetection.isValid v = false ->
  exists s, FaceDetection.reason v = Some s.
Proof.
  unfold FaceDetection.validateFaceCount_body, rbind.
  repeat match goal with
         | |- context [match ?x with _ => _ end] => destruct x
         end;
    intros [= <-]; cbn; try discriminate; intros _; eexists; reflexivity.
Qed.

Lemma validateFaceCount_reason (env : Env) (imageBuffer : Buffer) :
  FaceDetection.isValid (FaceDetection.validateFaceCount env imageBuffer) = false ->
  exists s,
    FaceDetection.reason (FaceDetection.validateFaceCount env imageBuffer) = Some s.
Proof.
  unfold FaceDetection.validateFaceCount.
  destruct (FaceDetection.validateFaceCount_body env imageBuffer) as [v | e] eqn:B;
    [| discriminate].
  apply (validateFaceCount_body_reason env imageBuffer v B).
Qed.

Lemma validateFacesWithOverride_reason (env : Env) (imageBuffer : Buffer) :
  FaceDetection.isValid (FaceDetection.validateFacesWithOverride env imageBuffer) = false ->
  exists s,
    FaceDetection.reason (FaceDetection.validateFacesWithOverride env imageBuffer)
    = Some s.
Proof.
  unfold FaceDetection.validateFacesWithOverride,
    FaceDetection.validateFacesWithOverride_body.
  destruct (FaceDetection.isValid (FaceDetection.validateFaceCount env imageBuffer))
    eqn:V; cbn [negb].
  - rewrite V. discriminate.
  - destruct (validateFaceCount_reason env imageBuffer V) as (s & Hs).
    unfold rbind.
    destruct (sharp_metadata env imageBuffer); [| discriminate].
    destruct (_ || _); [discriminate |].
    destruct (sharp_stats env imageBuffer); [| discriminate].
    destruct (PrimFloat.ltb _ _); [discriminate |].
    intros _. exists s. exact Hs.
Qed.

Lemma triple_bind_await {A B} (P : World -> Prop) (r : Result A) (k : A -> M B)
      (Q : B -> World -> Prop) (E : World -> Prop) :
  (forall a, r = Ok a -> triple P (k a) Q E) -> (forall w, P w -> E w) ->
  triple P (Prisma.bind (await r) k) Q E.
Proof.
  intros Hk HE w Hw. unfold Prisma.bind, await.
  destruct r as [a | e]; [apply (Hk a eq_refl w Hw) | apply HE; exact Hw].
Qed.

Lemma triple_bind_invoke_ret {A B} (P : World -> Prop) (s : Stage) (a : A)
      (k : A -> M B) (Q : B -> World -> Prop) (E : World -> Prop) :
  (forall w, P w -> P (logged (Invoked s) w)) -> triple P (k a) Q E ->
  triple P (Prisma.bind (invoke s (ret a)) k) Q E.
Proof. intros Hlog Hk w Hw. exact (Hk _ (Hlog w Hw)). Qed.

Lemma triple_bind_invoke_await {A B} (P : World -> Prop) (s : Stage)
      (r : Result A) (k : A -> M B) (Q : B -> World -> Prop) (E : World -> Prop) :
  (forall w, P w -> P (logged (Invoked s) w)) ->
  (forall a, r = Ok a -> triple P (k a) Q E) -> (forall w, P w -> E w) ->
  triple P (Prisma.bind (invoke s (await r)) k) Q E.
Proof.
  intros Hlog Hk HE w Hw. unfold Prisma.bind, invoke, await, log.
  destruct r as [a | e];
    [apply (Hk a eq_refl _ (Hlog w Hw)) | apply HE; exact (Hlog w Hw)].
Qed.

Section Settles.
Variable env : Env.
Hypothesis F : prismaFault env = None.
Variable imageId : string.
Variable image : Image.
Variable allowed : ValidationError -> Prop.

Lemma stored_logged (w : World) (e : Event) :
  stored imageId image w -> stored imageId image (logged e w).
Proof. intros H. exact H. Qed.

Lemma stored_processing (w : World) (r : Image) :
  stored imageId image w ->
  find (fun x => String.eqb (id x) imageId) (images w) = Some r ->
  stored imageId image (written imageId (Processor.setStatus PROCESSING) r w).
Proof.
  intros (r0 & Hf & Hs & Hp & Hz) _.
  exists (apply_update (Processor.setStatus PROCESSING) r0).
  split; [apply find_replace_row; exact Hf |].
  split; [exact (sameUpload_trans _ _ _ Hs (sameUpload_apply_update _ r0)) |].
  split; [exact Hp | exact Hz].
Qed.

Lemma reject_run (m : MetaData) (code : ValidationError) (reason : string)
      (w : World) :
  allowed code -> validationErrors m = Some [code] ->
  rejectionReason m = Some reason -> stored imageId image w ->
  exists r w',
    update env imageId (Processor.setFailed m) w = (Ok r, w')
    /\ findUnique env imageId w' = (Ok (Some r), w')
    /\ settled allowed imageId image (Some r) w'.
Proof.
  intros Ha Hc Hr (r0 & Hf & Hs & Hp & Hz).
  assert (Hf' := find_replace_row _ _ (Processor.setFailed m) _ Hf).
  exists (apply_update (Processor.setFailed m) r0),
    (written imageId (Processor.setFailed m) r0 w).
  split; [apply update_run; assumption |].
  split; [rewrite (findUnique_run _ _ _ F); cbn [written images]; rewrite Hf';
          reflexivity |].
  exists (apply_update (Processor.setFailed m) r0).
  split; [reflexivity |]. split; [exact Hf' |].
  split; [exact (sameUpload_trans _ _ _ Hs (sameUpload_apply_update _ r0)) |].
  left. exists code. split; [exact Ha |].
  split; [reflexivity |]. split; [exact Hp |]. split; [exact Hz |].
  exists m, reason. split; [reflexivity |]. split; assumption.
Qed.

Lemma triple_reject (m : MetaData) (code : ValidationError) (reason : string)
      (E : World -> Prop) :
  allowed code -> validationErrors m = Some [code] ->
  rejectionReason m = Some reason ->
  triple (stored imageId image)
         (Prisma.bind (update env imageId (Processor.setFailed m))
                      (fun _ => findUnique env imageId))
         (settled allowed imageId image) E.
Proof.
  intros Ha Hc Hr w Hw.
  destruct (reject_run m code reason w Ha Hc Hr Hw) as (r & w' & Hu & Hfu & Hs).
  unfold Prisma.bind. rewrite Hu, Hfu. exact Hs.
Qed.

Lemma faceStage_settles (imageBuffer : Buffer) :
  allowed multiple_faces_detected ->
  triple (stored imageId image) (Processor.faceStage env imageId imageBuffer)
         (fun outcome w =>
            match outcome with
            | inl result => settled allowed imageId image result w
            | inr _ => stored imageId image w
            end)
         (stored imageId image).
Proof.
  intros Ha w Hw. unfold Processor.faceStage. monad.
  destruct (FaceDetection.isValid _) eqn:V; [exact Hw |].
  destruct (validateFacesWithOverride_reason env imageBuffer V) as (s & Hs).
  destruct (reject_run (Processor.faceRejection
                          (FaceDetection.validateFacesWithOverride env imageBuffer))
              multiple_faces_detected s (logged (Invoked FaceStage) w)
              Ha eq_refl Hs Hw) as (r & w' & Hu & Hfu & Hset).
  unfold logged in Hu. rewrite Hu. rewrite Hfu. exact Hset.
Qed.

Lemma accept_settles (imageBuffer : Buffer) (imageHash : string)
      (faceValidation : FaceDetection.Validation) :
  triple (stored imageId image)
         (Processor.accept env imageId image imageBuffer imageHash faceValidation)
         (settled allowed imageId image) (stored imageId image).
Proof.
  unfold Processor.accept.
  apply triple_bind_await; [intros processedImageBuffer _ | auto].
  apply triple_bind_await; [intros metadata _ | auto].
  apply triple_bind_await; [intros path _ | auto].
  apply triple_bind
    with (Q1 := fun r w => settled allowed imageId image (Some r) w);
    [| intros r; apply triple_ret; auto].
  apply triple_update; [| auto].
  intros w r (r0 & Hf & Hs & _) Hr.
  assert (r = r0) as -> by congruence.
  eexists. split; [reflexivity |].
  split; [cbn [written images]; apply find_replace_row; exact Hf |].
  split; [exact (sameUpload_trans _ _ _ Hs (sameUpload_apply_update _ r0)) |].
  right. split; [reflexivity |].
  do 4 eexists. repeat split.
Qed.

Lemma pipeline_settles :
  (forall code, allowed code) ->
  triple (stored imageId image) (Processor.pipeline env imageId image)
         (settled allowed imageId image) (stored imageId image).
Proof.
  intros Hall. unfold Processor.pipeline.
  apply triple_bind with (Q1 := fun _ => stored imageId image).
  { apply triple_update; [| auto].
    intros w r Hw Hr. apply stored_processing; assumption. }
  intros _.
  apply triple_bind_await; [intros imageBuffer _ | auto].
  apply triple_bind_invoke_ret; [auto using stored_logged |].
  destruct (SizeValidation.isValid _) eqn:Hsz; cbn [negb].
  - eapply triple_bind; [apply faceStage_settles; apply Hall |].
    intros [result | faceValidation]; [apply triple_ret; auto |].
    apply triple_bind_invoke_ret; [auto using stored_logged |].
    destruct (BlurDetection.isBlurry _).
    + eapply triple_reject; [apply Hall | reflexivity | reflexivity].
    + apply triple_bind_invoke_await;
        [auto using stored_logged | intros imageHash _ | auto].
      apply triple_bind with (Q1 := fun _ => stored imageId image).
      { apply triple_invoke; [auto using stored_logged |].
        apply triple_checkDuplicateImage. auto. }
      intros duplicate.
      destruct (isDuplicate duplicate);
        [destruct (similarImage duplicate) as [similar |] |].
      * eapply triple_reject; [apply Hall | reflexivity | reflexivity].
      * apply triple_throw. auto.
      * apply accept_settles.
  - apply triple_bind_await; [intros forWidth _ | auto].
    apply triple_bind_await; [intros forHeight _ | auto].
    destruct (validateImageSize_reason env imageBuffer Hsz) as (s & Hs).
    eapply triple_reject; [apply Hall | reflexivity | exact Hs].
Qed.

Lemma processImage_run_settles (w : World) :
  (forall code, allowed code) ->
  find (fun r => String.eqb (id r) imageId) (images w) = Some image ->
  status image = PENDING ->
  exists r w',
    Processor.processImage env imageId w = (Ok (Some r), w')
    /\ settled allowed imageId image (Some r) w'.
Proof.
  intros Hall Hfind Hst.
  rewrite (processImage_pending env w imageId image F Hfind Hst).
  assert (T : triple (stored imageId image)
                (tryCatch (Processor.pipeline env imageId image)
                          (Processor.onError env imageId))
                (settled allowed imageId image) (fun _ => False)).
  { apply triple_tryCatch with (E1 := stored imageId image);
      [apply pipeline_settles; exact Hall |].
    intros e. unfold Processor.onError.
    eapply triple_reject; [apply Hall | reflexivity | reflexivity]. }
  assert (S0 : stored imageId image w).
  { exists image. split; [exact Hfind |]. split; [apply sameUpload_refl |].
    split; reflexivity. }
  specialize (T w S0).
  destruct (tryCatch _ _ w) as [[a | e] w']; [| destruct T].
  destruct T as (r & -> & T). exists r, w'. split; [reflexivity |].
  exists r. split; [reflexivity | exact T].
Qed.

End Settles.

(** X3. With a working store, a run of [processImage] (processor.js) on a
    PENDING record never throws and never leaves the record PENDING or
    PROCESSING.  It returns the row as it is now stored, which is still the
    same upload and is either rejected (FAILED, with a rejection reason,
    exactly one validation code, and the derivative columns untouched) or
    admitted (PROCESSED, with processed path and size, a pHash, and neither
    reason nor codes), whatever the collaborators answer. *)
Theorem processImage_settles
  (env : Env) (w : World) (imageId : string) (image : Image) :
  prismaFault env = None ->
  find (fun r => String.eqb (id r) imageId) (images w) = Some image ->
  status image = PENDING ->
  exists r w',
    Processor.processImage env imageId w = (Ok (Some r), w')
    /\ find (fun x => String.eqb (id x) imageId) (images w') = Some r
    /\ sameUpload image r
    /\ ((exists code, rejectedWith code image r) \/ admitted r).
Proof.
  intros F Hfind Hst.
  destruct (processImage_run_settles env F imageId image (fun _ => True) w
              (fun _ => Logic.I) Hfind Hst)
    as (r & w' & Hrun & r' & [= <-] & Hf & Hs & Hend).
  exists r, w'. split; [exact Hrun |]. split; [exact Hf |]. split; [exact Hs |].
  destruct Hend as [(code & _ & Hrej) | Hadm];
    [left; exists code; exact Hrej | right; exact Hadm].
Qed.

Lemma processImage_settles_witness :
  exists r w',
    Processor.processImage (portrait 500 500) "n" (world [pendingRow])
    = (Ok (Some r), w')
    /\ find (fun x => String.eqb (id x) "n") (images w') = Some r
    /\ sameUpload pendingRow r
    /\ ((exists code, rejectedWith code pendingRow r) \/ admitted r).
Proof.
  apply (processImage_settles (portrait 500 500) (world [pendingRow]) "n"
           pendingRow eq_refl eq_refl eq_refl).
Defined.

(** X4. Running [processImage] (processor.js) again right after a run
    returns what the first run returned and changes nothing: the first run
    leaves no PENDING record behind, and a run on a record that is not
    PENDING, on an unknown id or on a failing store only reports. *)
Theorem processImage_second_run_changes_nothing
  (env : Env) (imageId : string) (w : World) :
  let first := Processor.processImage env imageId w in
  Processor.processImage env imageId (snd first) = first.
Proof.
  cbv zeta.
  destruct (prismaFault env) as [fault |] eqn:F.
  { unfold Processor.processImage, Prisma.bind, findUnique. rewrite F.
    reflexivity. }
  destruct (find (fun r => String.eqb (id r) imageId) (images w))
    as [image |] eqn:Hfind.
  - destruct (status image) eqn:Hst.
    + destruct (processImage_run_settles env F imageId image (fun _ => True) w
                  (fun _ => Logic.I) Hfind Hst)
        as (r & w' & Hrun & r' & [= <-] & Hf & _ & Hend).
      rewrite Hrun. cbn [snd].
      unfold Processor.processImage, Prisma.bind.
      rewrite (findUnique_run env imageId w' F), Hf.
      destruct Hend as [(code & _ & Hfailed & _) | (Hprocessed & _)];
        [rewrite Hfailed | rewrite Hprocessed]; reflexivity.
    + unfold Processor.processImage, Prisma.bind.
      rewrite (findUnique_run env imageId w F), Hfind, Hst. cbn [snd negb status_eqb ret].
      rewrite (findUnique_run env imageId w F), Hfind, Hst. reflexivity.
    + unfold Processor.processImage, Prisma.bind.
      rewrite (findUnique_run env imageId w F), Hfind, Hst. cbn [snd negb status_eqb ret].
      rewrite (findUnique_run env imageId w F), Hfind, Hst. reflexivity.
    + unfold Processor.processImage, Prisma.bind.
      rewrite (findUnique_run env imageId w F), Hfind, Hst. cbn [snd negb status_eqb ret].
      rewrite (findUnique_run env imageId w F), Hfind, Hst. reflexivity.
  - unfold Processor.processImage, Prisma.bind.
    rewrite (findUnique_run env imageId w F), Hfind. cbn [snd throw].
    rewrite (findUnique_run env imageId w F), Hfind. reflexivity.
Qed.

(** ** The run of imageService.js *)

Lemma service_validationError_codes (error : Error) :
  ImageService.validationError error <> multiple_faces_detected
  /\ ImageService.validationError error <> blurry_image_detected.
Proof.
  unfold ImageService.validationError.
  repeat match goal with
         | |- context [if ?b then _ else _] => destruct b
         end; split; discriminate.
Qed.

Section ServiceSettles.
Variable env : Env.
Hypothesis F : prismaFault env = None.
Variable imageId : string.
Variable image : Image.

Let allowed (code : ValidationError) : Prop :=
  code <> multiple_faces_detected /\ code <> blurry_image_detected.

Lemma service_pipeline_settles :
  triple (stored imageId image) (ImageService.pipeline env imageId image)
         (settled allowed imageId image) (stored imageId image).
Proof.
  unfold ImageService.pipeline.
  apply triple_bind with (Q1 := fun _ => stored imageId image).
  { apply triple_update; [| auto].
    intros w r Hw Hr. apply stored_processing; assumption. }
  intros _.
  apply triple_bind_await; [intros imageBuffer _ | auto].
  apply triple_bind_invoke_ret; [auto using stored_logged |].
  destruct (SizeValidation.isValid _) eqn:Hsz; cbn [negb].
  - apply triple_bind_invoke_await;
      [auto using stored_logged | intros imageHash _ | auto].
    apply triple_bind with (Q1 := fun _ => stored imageId image).
    { apply triple_invoke; [auto using stored_logged |].
      apply triple_checkDuplicateImage. auto. }
    intros duplicate.
    destruct (isDuplicate duplicate);
      [destruct (similarImage duplicate) as [similar |] |].
    + eapply triple_reject; [exact F | | reflexivity | reflexivity];
        split; discriminate.
    + apply triple_throw. auto.
    + apply triple_bind_await; [intros processedImageBuffer _ | auto].
      apply triple_bind_await; [intros metadata _ | auto].
      apply triple_bind_await; [intros path _ | auto].
      apply triple_bind
        with (Q1 := fun r w => settled allowed imageId image (Some r) w);
        [| intros r; apply triple_ret; auto].
      apply triple_update; [| auto].
      intros w r (r0 & Hf & Hs & _) Hr.
      assert (r = r0) as -> by congruence.
      eexists. split; [reflexivity |].
      split; [cbn [written images]; apply find_replace_row; exact Hf |].
      split; [exact (sameUpload_trans _ _ _ Hs (sameUpload_apply_update _ r0)) |].
      right. split; [reflexivity |].
      do 4 eexists. repeat split.
  - apply triple_bind_await; [intros forWidth _ | auto].
    apply triple_bind_await; [intros forHeight _ | auto].
    destruct (validateImageSize_reason env imageBuffer Hsz) as (s & Hs).
    eapply triple_reject; [exact F | | reflexivity | exact Hs];
      split; discriminate.
Qed.

Lemma service_run_settles (w : World) :
  find (fun r => String.eqb (id r) imageId) (images w) = Some image ->
  status image = PENDING ->
  exists r w',
    ImageService.processImage env imageId w = (Ok (Some r), w')
    /\ settled allowed imageId image (Some r) w'.
Proof.
  intros Hfind Hst.
  unfold ImageService.processImage, Prisma.bind at 1.
  rewrite (findUnique_run env imageId w F), Hfind, Hst.
  cbn [negb status_eqb].
  assert (T : triple (stored imageId image)
                (tryCatch (ImageService.pipeline env imageId image)
                          (ImageService.onError env imageId))
                (settled allowed imageId image) (fun _ => False)).
  { apply triple_tryCatch with (E1 := stored imageId image);
      [apply service_pipeline_settles |].
    intros e. unfold ImageService.onError.
    eapply triple_reject; [exact F | | reflexivity | reflexivity];
      apply service_validationError_codes. }
  assert (S0 : stored imageId image w).
  { exists image. split; [exact Hfind |]. split; [apply sameUpload_refl |].
    split; reflexivity. }
  specialize (T w S0).
  destruct (tryCatch _ _ w) as [[a | e] w']; [| destruct T].
  destruct T as (r & -> & T). exists r, w'. split; [reflexivity |].
  exists r. split; [reflexivity | exact T].
Qed.

End ServiceSettles.

(** X5. The run the controller calls, [processImage] of imageService.js,
    settles a PENDING record in the same way (with a working store it never
    throws and leaves the record FAILED or PROCESSED), and a record it
    rejects never carries the code multiple_faces_detected or
    blurry_image_detected: that run has no face and no blur stage, and its
    error categories have no row for them. *)
Theorem service_processImage_settles
  (env : Env) (w : World) (imageId : string) (image : Image) :
  prismaFault env = None ->
  find (fun r => String.eqb (id r) imageId) (images w) = Some image ->
  status image = PENDING ->
  exists r w',
    ImageService.processImage env imageId w = (Ok (Some r), w')
    /\ find (fun x => String.eqb (id x) imageId) (images w') = Some r
    /\ sameUpload image r
    /\ ((exists code,
            code <> multiple_faces_detected /\ code <> blurry_image_detected
            /\ rejectedWith code image r)
        \/ admitted r).
Proof.
  intros F Hfind Hst.
  destruct (service_run_settles env F imageId image w Hfind Hst)
    as (r & w' & Hrun & r' & [= <-] & Hf & Hs & Hend).
  exists r, w'. split; [exact Hrun |]. split; [exact Hf |]. split; [exact Hs |].
  destruct Hend as [(code & (H1 & H2) & Hrej) | Hadm];
    [left; exists code; exact (conj H1 (conj H2 Hrej)) | right; exact Hadm].
Qed.

Lemma service_processImage_settles_witness :
  exists r w',
    ImageService.processImage groupPhoto "n" (world [pendingRow])
    = (Ok (Some r), w')
    /\ find (fun x => String.eqb (id x) "n") (images w') = Some r
    /\ sameUpload pendingRow r
    /\ ((exists code,
            code <> multiple_faces_detected /\ code <> blurry_image_detected
            /\ rejectedWith code pendingRow r)
        \/ admitted r).
Proof.
  apply (service_processImage_settles groupPhoto (world [pendingRow]) "n"
           pendingRow eq_refl eq_refl eq_refl).
Defined.

(** ** The accepting run *)

(** X6. When the original loads, the size, face and blur stages accept,
    the hash is computed, the duplicate check finds nothing and the
    derivative is produced, read back and saved, the run of processor.js
    ends PROCESSED: all five stages were called in order between the write
    of PROCESSING and the write of PROCESSED, and the row now names the
    saved path and the derivative's length and carries a metaData made of
    the hash, the derivative's width, height and format, the time and the
    face count, with no validationErrors and no rejectionReason. *)
Theorem processImage_admits
  (env : Env) (w : World) (imageId : string) (image : Image)
  (imageBuffer processedImageBuffer : Buffer) (imageHash savedPath : string)
  (metadata : Sharp.Metadata) (duplicate : DuplicateCheck) :
  prismaFault env = None ->
  find (fun r => String.eqb (id r) imageId) (images w) = Some image ->
  status image = PENDING ->
  getImageBuffer env (originalPath image) = Ok imageBuffer ->
  SizeValidation.isValid (SizeValidation.validateImageSize env imageBuffer) = true ->
  FaceDetection.isValid (FaceDetection.validateFacesWithOverride env imageBuffer)
  = true ->
  BlurDetection.isBlurry (BlurDetection.detectBlurryImage env imageBuffer) = false ->
  generateImageHash env imageBuffer = Ok imageHash ->
  fst (checkDuplicateImage env imageHash (Some imageId) (originalName image) w)
  = Ok duplicate ->
  isDuplicate duplicate = false ->
  sharp_derivative env imageBuffer = Ok processedImageBuffer ->
  sharp_metadata env processedImageBuffer = Ok metadata ->
  saveImageToStorage env processedImageBuffer
    (processedFilename env (originalName image)) "uploads/processed"
  = Ok savedPath ->
  exists r w',
    Processor.processImage env imageId w = (Ok (Some r), w')
    /\ find (fun x => String.eqb (id x) imageId) (images w') = Some r
    /\ status r = PROCESSED
    /\ processedPath r = Some savedPath
    /\ processedSize r = Some (buffer_length processedImageBuffer)
    /\ metaData r
       = Some {| rejectionReason := None; validationErrors := None;
                 pHash := Some imageHash; similarTo := None;
                 technicalError := None;
                 width := Some (Sharp.width metadata);
                 height := Some (Sharp.height metadata);
                 fileSize := None;
                 format := Some (Sharp.format metadata);
                 processingTime := Some (nowISO env);
                 faceCount :=
                   Some (Processor.faceCountOrZero
                           (FaceDetection.validateFacesWithOverride env imageBuffer));
                 faceData := None; blurDetails := None |}
    /\ sameUpload image r
    /\ trace w'
       = (trace w
          ++ [Updated imageId PROCESSING; Invoked SizeStage; Invoked FaceStage;
              Invoked BlurStage; Invoked HashStage; Invoked DuplicateStage;
              Updated imageId PROCESSED])%list.
Proof.
  intros F Hfind Hst Hbuf Hsz Hface Hblur Hhash Hdup Hnodup Hder Hmd Hsave.
  assert (Hfind1 := find_replace_row _ _ (Processor.setStatus PROCESSING) _ Hfind).
  rewrite (checkDuplicateImage_run _ _ _ _ w F) in Hdup.
  cbn [fst] in Hdup. injection Hdup as Hdup.
  rewrite (processImage_pending env w imageId image F Hfind Hst).
  unfold Processor.pipeline. monad.
  rewrite (update_run env imageId _ w image F Hfind). monad.
  rewrite Hbuf. monad. rewrite Hsz.
  unfold Processor.faceStage. monad. rewrite Hface, Hblur. monad.
  rewrite Hhash. monad.
  rewrite (checkDuplicateImage_run _ _ _ _ _ F). monad.
  rewrite (candidatesOf_replace_row _ _ _ _ _ Hfind), Hdup
    by (rewrite ?Hst; cbn; congruence).
  rewrite Hnodup.
  unfold Processor.accept. monad. rewrite Hder. monad. rewrite Hmd. monad.
  rewrite Hsave. monad.
  erewrite update_run; [| exact F | exact Hfind1]. monad.
  eexists. eexists. split; [reflexivity |].
  split; [cbn [images]; apply find_replace_row; exact Hfind1 |].
  split; [reflexivity |]. split; [reflexivity |]. split; [reflexivity |].
  split; [reflexivity |]. split; [repeat split |].
  cbn [trace]. rewrite <- !app_assoc. reflexivity.
Qed.

Lemma processImage_admits_witness :
  exists r w',
    Processor.processImage (portrait 900 900) "n" (world [pendingRow])
    = (Ok (Some r), w')
    /\ find (fun x => String.eqb (id x) "n") (images w') = Some r
    /\ status r = PROCESSED
    /\ processedPath r = Some "uploads/processed/cat-processed-1747558691000.jpg"
    /\ processedSize r = Some 2048.
Proof.
  destruct (processImage_admits (portrait 900 900) (world [pendingRow]) "n"
              pendingRow (blob 204800) (blob 2048) uniformHash
              "uploads/processed/cat-processed-1747558691000.jpg" (dims 900 900)
              {| isDuplicate := false; similarImage := None |}
              eq_refl eq_refl eq_refl eq_refl
              ltac:(vm_compute; reflexivity) ltac:(vm_compute; reflexivity)
              ltac:(vm_compute; reflexivity) ltac:(vm_compute; reflexivity)
              ltac:(vm_compute; reflexivity) eq_refl eq_refl eq_refl eq_refl)
    as (r & w' & Hrun & Hfind & Hst & Hpath & Hsize & _).
  exists r, w'. split; [exact Hrun |]. split; [exact Hfind |].
  split; [exact Hst |]. split; [exact Hpath |].
  rewrite Hsize. vm_compute. reflexivity.
Defined.

(** ** The bit distance *)

Lemma fold_left_fixed {A B} (f : A -> B -> A) (l : list B) (a : A) :
  (forall b, In b l -> f a b = a) -> fold_left f l a = a.
Proof.
  induction l as [| b l IH]; intros H; [reflexivity |].
  cbn [fold_left]. rewrite (H b (or_introl eq_refl)).
  apply IH. intros b' Hb'. apply H. right. exact Hb'.
Qed.

Lemma fold_left_counts {B} (f : Z -> B -> Z) (l : list B) (a : Z) :
  (forall x b, f x b = x \/ f x b = x + 1) ->
  a <= fold_left f l a <= a + Z.of_nat (List.length l).
Proof.
  intros H. revert a. induction l as [| b l IH]; intros a; cbn [fold_left List.length].
  - lia.
  - specialize (IH (f a b)). destruct (H a b) as [E | E]; rewrite E in *; lia.
Qed.

Lemma get_below (s : string) (i : nat) :
  (i < String.length s)%nat -> exists c, get i s = Some c.
Proof.
  revert i. induction s as [| c s IH]; intros i H; cbn in H; [lia |].
  destruct i as [| i]; [exists c; reflexivity |].
  cbn [get]. apply IH. lia.
Qed.

Lemma differing_same (b : string) : differing b b = 0.
Proof.
  unfold differing. apply fold_left_fixed.
  intros i Hi. apply in_seq in Hi. rewrite Nat.min_id in Hi.
  destruct (get_below b i) as (c & ->); [lia |].
  rewrite Ascii.eqb_refl. reflexivity.
Qed.

Lemma differing_sym (b1 b2 : string) : differing b1 b2 = differing b2 b1.
Proof.
  unfold differing. rewrite (Nat.min_comm (String.length b2)).
  apply fold_left_same. intros x i _.
  destruct (get i b1) as [c1 |], (get i b2) as [c2 |]; try reflexivity.
  rewrite (Ascii.eqb_sym c1 c2). reflexivity.
Qed.

Lemma differing_bounds (b1 b2 : string) :
  0 <= differing b1 b2
  <= Z.of_nat (Nat.min (String.length b1) (String.length b2)).
Proof.
  unfold differing.
  pose proof (fold_left_counts
                (fun distance i =>
                   match get i b1, get i b2 with
                   | Some c1, Some c2 =>
                       if Ascii.eqb c1 c2 then distance else distance + 1
                   | _, _ => distance + 1
                   end)
                (seq 0 (Nat.min (String.length b1) (String.length b2))) 0) as H.
  rewrite length_seq in H. apply H.
  intros x i. destruct (get i b1), (get i b2); try (right; reflexivity).
  destruct (Ascii.eqb _ _); [left | right]; reflexivity.
Qed.

(** X7. The distance the duplicate check computes between two hashes is
    zero between a hash and itself, does not depend on which of the two is
    the new one, and lies between zero and the number of positions compared
    (the shorter of the two binary expansions), whatever the strings are. *)
Theorem distance_is_a_bit_count (a b : string) :
  distance a a = 0
  /\ distance a b = distance b a
  /\ 0 <= distance a b
     <= Z.of_nat (Nat.min (String.length (hexToBinary a))
                          (String.length (hexToBinary b))).
Proof.
  unfold distance. split; [apply differing_same |].
  split; [apply differing_sym | apply differing_bounds].
Qed.

(** X8. With a working store, when a PROCESSED row that the query does not
    exclude stores exactly the hash that is being checked (a non-empty
    one), the duplicate check reports a duplicate and names a record,
    whatever the file name. *)
Theorem checkDuplicateImage_finds_equal_hash
  (env : Env) (w : World) (hash : string) (excludeId : option string)
  (originalFileName : string) (r : Image) (m : MetaData) :
  prismaFault env = None ->
  In r (images w) -> status r = PROCESSED -> excluded excludeId r = false ->
  metaData r = Some m -> pHash m = Some hash -> hash <> "" ->
  exists similar,
    checkDuplicateImage env hash excludeId originalFileName w
    = (Ok {| isDuplicate := true; similarImage := Some similar |}, w).
Proof.
  intros F Hin Hst Hex Hm Hh Hne.
  rewrite (checkDuplicateImage_run env hash excludeId originalFileName w F).
  unfold verdict.
  destruct (if truthy originalFileName then _ else _) as [exactMatch |];
    [exists exactMatch; reflexivity |].
  destruct (scan_first hash (candidatesOf excludeId (images w)))
    as [(l1 & c & l2 & _ & _ & _ & E) | (Hnone & _)];
    [exists c; rewrite E; reflexivity |].
  exfalso. apply (Hnone (select r)).
  - unfold candidatesOf. apply in_map. apply filter_In. split; [exact Hin |].
    rewrite Hst, Hex. reflexivity.
  - exists hash. split.
    + unfold storedHash. cbn [select Candidate.metaData]. rewrite Hm, Hh.
      apply truthy_true in Hne. rewrite Hne. reflexivity.
    + unfold distance. rewrite differing_same. discriminate.
Qed.

Lemma checkDuplicateImage_finds_equal_hash_witness :
  exists similar,
    checkDuplicateImage quietEnv uniformHash (Some "n") "new.jpg"
      (world [row "a" "cat.jpg" PROCESSED (hashed uniformHash); pendingRow])
    = (Ok {| isDuplicate := true; similarImage := Some similar |},
       world [row "a" "cat.jpg" PROCESSED (hashed uniformHash); pendingRow]).
Proof.
  apply (checkDuplicateImage_finds_equal_hash quietEnv
           (world [row "a" "cat.jpg" PROCESSED (hashed uniformHash); pendingRow])
           uniformHash (Some "n") "new.jpg"
           (row "a" "cat.jpg" PROCESSED (hashed uniformHash))
           {| rejectionReason := None; validationErrors := None;
              pHash := Some uniformHash; similarTo := None;
              technicalError := None; width := Some 800; height := Some 800;
              fileSize := None; format := Some "jpeg";
              processingTime := Some "2025-05-18T08:58:11.000Z";
              faceCount := Some 1; faceData := None; blurDetails := None |}
           eq_refl (or_introl eq_refl) eq_refl eq_refl eq_refl eq_refl).
  discriminate.
Defined.

(** ** Hashes of flat and of empty thumbnails *)

Lemma binaryHash_flat (b : Byte.byte) :
  binaryHash (repeat b 1024) = binaryHash (repeat Byte.x00 1024).
Proof. destruct b; vm_compute; reflexivity. Qed.

(** X9. Every thumbnail of 1024 equal pixels, whatever the grey level, gets
    the same hash: each pixel equals the average, so every bit is 1.  Two
    flat images of different colours are therefore duplicates of each
    other. *)
Theorem generateImageHash_flat
  (env : Env) (imageBuffer : Buffer) (grey : Byte.byte) :
  sharp_thumbnail env imageBuffer = Ok (repeat grey 1024) ->
  generateImageHash env imageBuffer = Ok uniformHash.
Proof.
  intros H. unfold generateImageHash. rewrite H. cbn [rbind].
  rewrite binaryHash_flat. vm_compute. reflexivity.
Qed.

Lemma generateImageHash_flat_witness :
  generateImageHash (portrait 900 900) (blob 204800) = Ok uniformHash.
Proof.
  apply (generateImageHash_flat (portrait 900 900) (blob 204800) Byte.x00 eq_refl).
Defined.

Lemma hashBuffer_nonempty (avg : float) (px : Byte.byte) (rest : Buffer) :
  exists bytes, hashBuffer (threshold avg (px :: rest)) = Ok bytes.
Proof.
  unfold hashBuffer. cbn [threshold String.length chunks].
  eexists. reflexivity.
Qed.

(** X10. [generateImageHash] returns a hash exactly when sharp delivers a
    thumbnail with at least one byte.  When sharp fails, or the thumbnail is
    empty, it throws a plain Error (no status code) whose message is
    "Failed to generate image hash: " followed by the message of the
    cause. *)
Theorem generateImageHash_succeeds_iff (env : Env) (imageBuffer : Buffer) :
  ((exists hash, generateImageHash env imageBuffer = Ok hash) <->
   (exists px rest, sharp_thumbnail env imageBuffer = Ok (px :: rest)))
  /\ (forall cause,
        sharp_thumbnail env imageBuffer = Throw cause ->
        generateImageHash env imageBuffer
        = Throw (Js.error ("Failed to generate image hash: "
                           ++ show_message (message cause))))
  /\ (forall e,
        generateImageHash env imageBuffer = Throw e ->
        statusCode e = None
        /\ exists text,
             message e = Some ("Failed to generate image hash: " ++ text)).
Proof.
  unfold generateImageHash.
  destruct (sharp_thumbnail env imageBuffer) as [[| px rest] | cause] eqn:T;
    cbn [rbind].
  - split; [split; [intros (h & H); discriminate H
                   | intros (px & rest & H); discriminate H] |].
    split; [discriminate |].
    intros e [= <-]. split; [reflexivity | eexists; reflexivity].
  - unfold binaryHash.
    destruct (hashBuffer_nonempty (average (px :: rest)) px rest) as (bytes & ->).
    cbn [rbind].
    split; [split; [intros _; exists px, rest; reflexivity
                   | intros _; eexists; reflexivity] |].
    split; discriminate.
  - split; [split; [intros (h & H); discriminate H
                   | intros (px & rest & H); discriminate H] |].
    split; [intros c [= <-]; reflexivity |].
    intros e [= <-]. split; [reflexivity | eexists; reflexivity].
Qed.

(** ** The blur verdict and its reason *)

Lemma advancedDetection_reason
  (env : Env) (imageBuffer : Buffer) (d : BlurDetection.Detection) :
  BlurDetection.advancedDetection env imageBuffer = Ok d ->
  (BlurDetection.isBlurry d = true <-> BlurDetection.reason d <> None)
  /\ BlurDetection.reason d <> Some "Multiple blur indicators detected"
  /\ BlurDetection.details d <> None.
Proof.
  unfold BlurDetection.advancedDetection, rbind.
  repeat match goal with
         | |- context [match ?x with Ok _ => _ | Throw _ => _ end] =>
             destruct x; [| discriminate]
         end.
  destruct (BlurDetection.countBlocks _ _ _ _) as [sharpBlockCount totalBlockCount].
  repeat match goal with
         | |- context [match ?x with Ok _ => _ | Throw _ => _ end] =>
             destruct x; [| discriminate]
         end.
  cbv zeta. intros [= <-].
  cbn [BlurDetection.isBlurry BlurDetection.reason BlurDetection.details].
  repeat match goal with
         | |- context [PrimFloat.ltb ?a ?b] => destruct (PrimFloat.ltb a b)
         end;
    cbn; (split; [split; [discriminate || congruence | congruence] |]);
    split; discriminate.
Qed.

Lemma fallbackDetection_reason
  (env : Env) (imageBuffer : Buffer) (d : BlurDetection.Detection) :
  BlurDetection.fallbackDetection env imageBuffer = Ok d ->
  (BlurDetection.isBlurry d = true <-> BlurDetection.reason d <> None)
  /\ BlurDetection.reason d <> Some "Multiple blur indicators detected"
  /\ BlurDetection.details d <> None.
Proof.
  unfold BlurDetection.fallbackDetection, rbind.
  destruct (sharp_grayscale_stats env imageBuffer); [| discriminate].
  destruct (BlurDetection.firstChannel _); [| discriminate].
  cbv zeta. intros [= <-].
  cbn [BlurDetection.isBlurry BlurDetection.reason BlurDetection.details].
  destruct (PrimFloat.ltb _ _);
    (split; [split; [discriminate || congruence | congruence] |]);
    split; discriminate.
Qed.

(** X11. Whichever of its three paths it takes, [detectBlurryImage]
    returns a reason exactly when it says the image is blurry, and always
    returns details.  The reason is never "Multiple blur indicators
    detected": two votes for blurry mean that one of the four methods voted
    so, and its own reason comes first. *)
Theorem detectBlurryImage_reason_matches_verdict
  (env : Env) (imageBuffer : Buffer) :
  let detection := BlurDetection.detectBlurryImage env imageBuffer in
  (BlurDetection.isBlurry detection = true
   <-> BlurDetection.reason detection <> None)
  /\ BlurDetection.reason detection <> Some "Multiple blur indicators detected"
  /\ BlurDetection.details detection <> None.
Proof.
  cbv zeta. unfold BlurDetection.detectBlurryImage.
  destruct (BlurDetection.advancedDetection env imageBuffer) as [d | e] eqn:A;
    [exact (advancedDetection_reason env imageBuffer d A) |].
  destruct (BlurDetection.fallbackDetection env imageBuffer) as [d | e'] eqn:B;
    [exact (fallbackDetection_reason env imageBuffer d B) |].
  cbn. split; [split; [discriminate | reflexivity] |]. split; discriminate.
Qed.

(** ** Face validation *)

(** X12. An image at most 1500 pixels wide and 1800 pixels high in which
    [detectFaces], when it answers, reports at most one face and at most
    fifteen regions is accepted by [validateFaceCount], and so by
    [validateFacesWithOverride], which returns an accepting verdict as it
    is. *)
Theorem validateFaceCount_accepts_small_single_face
  (env : Env) (imageBuffer : Buffer) (metadata : Sharp.Metadata) :
  sharp_metadata env imageBuffer = Ok metadata ->
  0 <= Sharp.width metadata <= 1500 ->
  0 <= Sharp.height metadata <= 1800 ->
  (forall faces,
      detectFaces env imageBuffer = Ok faces ->
      fd_faceCount faces <= 1 /\ (List.length (fd_details faces) <= 15)%nat) ->
  FaceDetection.isValid (FaceDetection.validateFaceCount env imageBuffer) = true
  /\ FaceDetection.validateFacesWithOverride env imageBuffer
     = FaceDetection.validateFaceCount env imageBuffer.
Proof.
  intros Hmd Hw Hh Hfaces.
  assert (V : FaceDetection.isValid (FaceDetection.validateFaceCount env imageBuffer)
              = true).
  { unfold FaceDetection.validateFaceCount, FaceDetection.validateFaceCount_body.
    rewrite Hmd. cbn [rbind]. cbv zeta.
    replace (3500 <=? Sharp.width metadata) with false by (symmetry; apply Z.leb_gt; lia).
    replace (3000 <=? Sharp.height metadata) with false by (symmetry; apply Z.leb_gt; lia).
    cbn [orb andb].
    replace (8000000 <? Sharp.width metadata * Sharp.height metadata) with false
      by (symmetry; apply Z.ltb_ge; nia).
    cbn [andb].
    destruct (detectFaces env imageBuffer) as [faces |] eqn:D; [| reflexivity].
    destruct (Hfaces faces eq_refl) as (Hcount & Hregions). cbn [rbind].
    replace (1 <? fd_faceCount faces) with false by (symmetry; apply Z.ltb_ge; lia).
    cbn [andb].
    replace (1500 <? Sharp.width metadata) with false by (symmetry; apply Z.ltb_ge; lia).
    replace (1800 <? Sharp.width metadata) with false by (symmetry; apply Z.ltb_ge; lia).
    replace (1800 <? Sharp.height metadata) with false by (symmetry; apply Z.ltb_ge; lia).
    replace (15 <? Z.of_nat (List.length (fd_details faces))) with false
      by (symmetry; apply Z.ltb_ge; lia).
    repeat first [rewrite andb_false_r | progress cbn [orb andb]].
    reflexivity. }
  split; [exact V |].
  unfold FaceDetection.validateFacesWithOverride,
    FaceDetection.validateFacesWithOverride_body.
  rewrite V. reflexivity.
Qed.

Lemma validateFaceCount_accepts_small_single_face_witness :
  FaceDetection.isValid
    (FaceDetection.validateFaceCount (portrait 1400 1700) (blob 204800)) = true
  /\ FaceDetection.validateFacesWithOverride (portrait 1400 1700) (blob 204800)
     = FaceDetection.validateFaceCount (portrait 1400 1700) (blob 204800).
Proof.
  apply (validateFaceCount_accepts_small_single_face (portrait 1400 1700)
           (blob 204800) (dims 1400 1700) eq_refl).
  - cbn. lia.
  - cbn. lia.
  - intros faces [= <-]. cbn. lia.
Defined.

Lemma fold_left_nan (channels : list Sharp.Channel) :
  fold_left (fun acc channel => (acc + FaceDetection.stddev channel)%float)
            channels nan
  = nan.
Proof.
  induction channels as [| ch rest IH]; [reflexivity |].
  cbn [fold_left]. exact IH.
Qed.

(** X13. [checkForPortraitWithSolidBackground] reads the key [stddev] of
    each channel, which the statistics do not have (theirs is [stdev]); the
    total contrast is then not a number and the test fails.  So the check
    answers false whenever the statistics list at least one channel, and
    also when they cannot be computed, and [validateFaceCount] then never
    takes its portrait branch: its reason is never the one for several
    faces in a portrait. *)
Theorem checkForPortraitWithSolidBackground_is_false
  (env : Env) (imageBuffer : Buffer) :
  (forall stats,
      sharp_stats env imageBuffer = Ok stats -> Sharp.channels stats <> []) ->
  FaceDetection.checkForPortraitWithSolidBackground env imageBuffer = false
  /\ FaceDetection.reason (FaceDetection.validateFaceCount env imageBuffer)
     <> Some "Multiple faces detected in portrait. Please upload photos with at most one face.".
Proof.
  intros Hch.
  assert (S : FaceDetection.checkForPortraitWithSolidBackground env imageBuffer
              = false).
  { unfold FaceDetection.checkForPortraitWithSolidBackground.
    destruct (sharp_stats env imageBuffer) as [stats |] eqn:St; [| reflexivity].
    specialize (Hch stats eq_refl). cbv zeta.
    destruct (Sharp.channels stats) as [| ch rest]; [destruct Hch; reflexivity |].
    cbn [fold_left].
    change (0 + FaceDetection.stddev ch)%float with nan.
    rewrite fold_left_nan. apply andb_false_r. }
  split; [exact S |].
  assert (B : forall v,
             FaceDetection.validateFaceCount_body env imageBuffer = Ok v ->
             FaceDetection.reason v
             <> Some "Multiple faces detected in portrait. Please upload photos with at most one face.").
  { intros v. unfold FaceDetection.validateFaceCount_body, rbind. rewrite S.
    destruct (sharp_metadata env imageBuffer) as [metadata |]; [| discriminate].
    cbv zeta.
    repeat match goal with
           | |- context [match ?x with _ => _ end] =>
               lazymatch x with
               | context [detectFaces] => fail
               | _ => destruct x; [intros [= <-]; discriminate |]
               end
           end.
    destruct (detectFaces env imageBuffer) as [faces |]; [| discriminate].
    rewrite !andb_false_r. cbn [andb negb].
    repeat match goal with
           | |- context [match ?x with _ => _ end] => destruct x
           end; intros [= <-]; discriminate. }
  unfold FaceDetection.validateFaceCount.
  destruct (FaceDetection.validateFaceCount_body env imageBuffer) as [v |] eqn:E;
    [exact (B v eq_refl) | discriminate].
Qed.

Lemma checkForPortraitWithSolidBackground_is_false_witness :
  FaceDetection.checkForPortraitWithSolidBackground
    (studio (Ok (dims 750 1000)) (Ok (flat 1%float)) (Ok (flat 1%float))
            (Ok twoFaces) (Ok (blob 1024)) (Ok (blob 204800)) None None)
    (blob 204800) = false
  /\ FaceDetection.reason
       (FaceDetection.validateFaceCount
          (studio (Ok (dims 750 1000)) (Ok (flat 1%float)) (Ok (flat 1%float))
                  (Ok twoFaces) (Ok (blob 1024)) (Ok (blob 204800)) None None)
          (blob 204800))
     <> Some "Multiple faces detected in portrait. Please upload photos with at most one face.".
Proof.
  apply (checkForPortraitWithSolidBackground_is_false
           (studio (Ok (dims 750 1000)) (Ok (flat 1%float)) (Ok (flat 1%float))
                   (Ok twoFaces) (Ok (blob 1024)) (Ok (blob 204800)) None None)
           (blob 204800)).
  intros stats [= <-]. discriminate.
Defined.

(** ** Storing, reading back and deleting files *)


(** A derivative saved on the local disk and read back; and a disk that
    refuses the write, on which saving throws and stores nothing. *)
Example save_and_read_back :
  let saved :=
    Storage.saveImageToStorage localConfig (blob 16) "cat-processed.jpg"
      "uploads/processed" noBlobs in
  fst saved = Ok "uploads/processed/cat-processed.jpg"
  /\ Storage.directories (snd saved) "/srv/app/uploads/processed" = true
  /\ Storage.getImageBuffer localConfig "uploads/processed/cat-processed.jpg"
       (snd saved) = Ok (blob 16)
  /\ Storage.getImageBuffer localConfig "uploads/processed/cat-processed.jpg"
       noBlobs
     = Throw (Js.error "ENOENT: no such file or directory, open '/srv/app/uploads/processed/cat-processed.jpg'").
Proof. repeat split. Qed.

(** An empty file name resolves to the directory itself, and the write
    throws. *)
Example save_without_a_name :
  fst (Storage.saveImageToStorage
         {| Storage.AWS_ACCESS_KEY_ID := None;
            Storage.STORAGE_TYPE := Some "local";
            Storage.S3_BUCKET_NAME := None;
            Storage.APP_URL := None;
            Storage.inWorkingDirectory :=
              fun p => if String.eqb p "uploads/processed/"
                       then "/srv/app/uploads/processed"
                       else "/srv/app/" ++ p;
            Storage.getSignedUrl := fun _ _ => Throw (Js.error "no credentials") |}
         (blob 16) "" "uploads/processed" noBlobs)
  = Throw (Js.error "EISDIR: illegal operation on a directory, open '/srv/app/uploads/processed'").
Proof. reflexivity. Qed.

Lemma remove_row_find (rowId : string) (rows : list Image) :
  NoDup (map id rows) ->
  find (fun r => String.eqb (id r) rowId) (Deletion.remove_row rowId rows) = None.
Proof.
  induction rows as [| r rows IH]; intros H; [reflexivity |].
  cbn [map] in H. apply NoDup_cons_iff in H as (Hr & H).
  cbn [Deletion.remove_row].
  destruct (String.eqb_spec (id r) rowId) as [E | N].
  - destruct (find _ rows) as [x |] eqn:Fx; [| reflexivity].
    apply find_some in Fx as (Hin & Hx). apply String.eqb_eq in Hx.
    destruct Hr. rewrite E, <- Hx. apply in_map. exact Hin.
  - cbn [find]. apply String.eqb_neq in N. rewrite N. apply IH. exact H.
Qed.

Lemma remove_row_others (rowId other : string) (rows : list Image) :
  other <> rowId ->
  find (fun r => String.eqb (id r) other) (Deletion.remove_row rowId rows)
  = find (fun r => String.eqb (id r) other) rows.
Proof.
  intros N. induction rows as [| r rows IH]; [reflexivity |].
  cbn [Deletion.remove_row find].
  destruct (String.eqb_spec (id r) rowId) as [E | _].
  - destruct (String.eqb_spec (id r) other) as [E' | _]; [congruence | reflexivity].
  - cbn [find]. rewrite IH. reflexivity.
Qed.

Lemma onlyRemoves_refl (s : Storage.Blobs) : onlyRemoves s s.
Proof. repeat split; intros; right; reflexivity. Qed.

Lemma onlyRemoves_trans (s1 s2 s3 : Storage.Blobs) :
  onlyRemoves s1 s2 -> onlyRemoves s2 s3 -> onlyRemoves s1 s3.
Proof.
  intros (D1 & R1 & F1 & O1) (D2 & R2 & F2 & O2).
  split; [congruence |]. split; [congruence |]. split.
  - intros q. destruct (F2 q) as [E | E]; [left; exact E | rewrite E; apply F1].
  - intros n k. destruct (O2 n k) as [E | E]; [left; exact E | rewrite E; apply O1].
Qed.

Lemma unlinkIfExists_spec
  (cfg : Storage.Config) (p : option string) (s : Storage.Blobs) :
  let r := Storage.unlinkIfExists cfg p s in
  onlyRemoves s (snd r)
  /\ Storage.s3 (snd r) = Storage.s3 s
  /\ (forall q,
        (forall p', p = Some p' -> q <> Storage.inWorkingDirectory cfg p') ->
        Storage.disk (snd r) q = Storage.disk s q)
  /\ (forall e, fst r = Throw e -> snd r = s)
  /\ (fst r = Ok tt ->
      forall p', p = Some p' -> p' <> "" ->
        Storage.disk (snd r) (Storage.inWorkingDirectory cfg p') = None
        /\ Storage.directories s (Storage.inWorkingDirectory cfg p') = false)
  /\ ((forall p', p = Some p' -> p' <> "" ->
         Storage.refuses s (Storage.Unlink (Storage.inWorkingDirectory cfg p')) = None
         /\ Storage.directories s (Storage.inWorkingDirectory cfg p') = false) ->
      fst r = Ok tt)
  /\ (forall p' e,
        p = Some p' -> p' <> "" ->
        Storage.existsSync (Storage.inWorkingDirectory cfg p') s = true ->
        Storage.refuses s (Storage.Unlink (Storage.inWorkingDirectory cfg p')) = Some e ->
        r = (Throw e, s)).
Proof.
  cbv zeta. unfold Storage.unlinkIfExists.
  assert (Same :
    onlyRemoves s s
    /\ Storage.s3 s = Storage.s3 s
    /\ (forall q,
          (forall p', p = Some p' -> q <> Storage.inWorkingDirectory cfg p') ->
          Storage.disk s q = Storage.disk s q)).
  { split; [apply onlyRemoves_refl |]. split; reflexivity. }
  destruct Same as (T1 & T2 & T3).
  destruct p as [p |].
  2:{ cbn [Storage.done fst snd].
      split; [exact T1 |]. split; [exact T2 |]. split; [exact T3 |].
      split; [discriminate |].
      split; [intros _ p' H; discriminate H |].
      split; [reflexivity |]. intros p' e H. discriminate H. }
  destruct (truthy p) eqn:T.
  2:{ cbn [Storage.done fst snd].
      assert (E : p = "").
      { destruct (string_dec p "") as [E | N]; [exact E |].
        apply truthy_true in N. congruence. }
      split; [exact T1 |]. split; [exact T2 |]. split; [exact T3 |].
      split; [discriminate |].
      split; [intros _ p' [= <-] N; destruct (N E) |].
      split; [reflexivity |]. intros p' e [= <-] N. destruct (N E). }
  set (target := Storage.inWorkingDirectory cfg p).
  assert (N : p <> "") by (intros ->; discriminate T).
  assert (Refused : forall e,
             Storage.refuses s (Storage.Unlink target) = Some e ->
             let r := (@Throw unit e, s) in
             onlyRemoves s (snd r)
             /\ Storage.s3 (snd r) = Storage.s3 s
             /\ (forall q,
                   (forall p', Some p = Some p' ->
                               q <> Storage.inWorkingDirectory cfg p') ->
                   Storage.disk (snd r) q = Storage.disk s q)
             /\ (forall e', fst r = Throw e' -> snd r = s)
             /\ (fst r = Ok tt ->
                 forall p', Some p = Some p' -> p' <> "" ->
                   Storage.disk (snd r) (Storage.inWorkingDirectory cfg p') = None
                   /\ Storage.directories s (Storage.inWorkingDirectory cfg p')
                      = false)
             /\ ((forall p', Some p = Some p' -> p' <> "" ->
                    Storage.refuses s
                      (Storage.Unlink (Storage.inWorkingDirectory cfg p')) = None
                    /\ Storage.directories s (Storage.inWorkingDirectory cfg p')
                       = false) ->
                 fst r = Ok tt)
             /\ (forall p' e',
                   Some p = Some p' -> p' <> "" ->
                   Storage.existsSync (Storage.inWorkingDirectory cfg p') s = true ->
                   Storage.refuses s
                     (Storage.Unlink (Storage.inWorkingDirectory cfg p')) = Some e' ->
                   r = (Throw e', s))).
  { intros e R. cbn [fst snd].
    split; [exact T1 |]. split; [exact T2 |]. split; [exact T3 |].
    split; [reflexivity |]. split; [discriminate |].
    split.
    - intros H. destruct (H p eq_refl N) as (H1 & _). fold target in H1. congruence.
    - intros p' e' [= <-] _ _. fold target. rewrite R. intros [= <-]. reflexivity. }
  assert (IsDirectory :
             Storage.refuses s (Storage.Unlink target) = None ->
             Storage.directories s target = true ->
             forall e0,
             let r := (@Throw unit e0, s) in
             onlyRemoves s (snd r)
             /\ Storage.s3 (snd r) = Storage.s3 s
             /\ (forall q,
                   (forall p', Some p = Some p' ->
                               q <> Storage.inWorkingDirectory cfg p') ->
                   Storage.disk (snd r) q = Storage.disk s q)
             /\ (forall e', fst r = Throw e' -> snd r = s)
             /\ (fst r = Ok tt ->
                 forall p', Some p = Some p' -> p' <> "" ->
                   Storage.disk (snd r) (Storage.inWorkingDirectory cfg p') = None
                   /\ Storage.directories s (Storage.inWorkingDirectory cfg p')
                      = false)
             /\ ((forall p', Some p = Some p' -> p' <> "" ->
                    Storage.refuses s
                      (Storage.Unlink (Storage.inWorkingDirectory cfg p')) = None
                    /\ Storage.directories s (Storage.inWorkingDirectory cfg p')
                       = false) ->
                 fst r = Ok tt)
             /\ (forall p' e',
                   Some p = Some p' -> p' <> "" ->
                   Storage.existsSync (Storage.inWorkingDirectory cfg p') s = true ->
                   Storage.refuses s
                     (Storage.Unlink (Storage.inWorkingDirectory cfg p')) = Some e' ->
                   r = (Throw e', s))).
  { intros R Dir e0. cbn [fst snd].
    split; [exact T1 |]. split; [exact T2 |]. split; [exact T3 |].
    split; [reflexivity |]. split; [discriminate |].
    split.
    - intros H. destruct (H p eq_refl N) as (_ & H1). fold target in H1. congruence.
    - intros p' e' [= <-] _ _. fold target. rewrite R. discriminate. }
  unfold Storage.existsSync, Storage.unlinkSync.
  destruct (Storage.disk s target) as [bytes |] eqn:D.
  - destruct (Storage.refuses s (Storage.Unlink target)) as [e |] eqn:R;
      [exact (Refused e eq_refl) |].
    destruct (Storage.directories s target) eqn:Dir;
      [exact (IsDirectory eq_refl eq_refl _) |].
    cbn [fst snd Storage.disk Storage.directories Storage.refuses Storage.s3].
    split.
    { split; [reflexivity |]. split; [reflexivity |]. split.
      - intros q. cbn [Storage.disk]. destruct (String.eqb q target); [left | right];
          reflexivity.
      - intros n k. right. reflexivity. }
    split; [reflexivity |].
    split.
    { intros q Hq. specialize (Hq p eq_refl). fold target in Hq.
      apply String.eqb_neq in Hq. rewrite Hq. reflexivity. }
    split; [discriminate |].
    split.
    { intros _ p' [= <-] _. fold target. rewrite String.eqb_refl.
      split; [reflexivity | exact Dir]. }
    split; [reflexivity |].
    intros p' e' [= <-] _ _. fold target. rewrite R. discriminate.
  - destruct (Storage.directories s target) eqn:Dir.
    + destruct (Storage.refuses s (Storage.Unlink target)) as [e |] eqn:R;
        [exact (Refused e eq_refl) | exact (IsDirectory eq_refl eq_refl _)].
    + cbn [fst snd].
      split; [exact T1 |]. split; [exact T2 |]. split; [exact T3 |].
      split; [discriminate |].
      split.
      { intros _ p' [= <-] _. fold target. split; [exact D | exact Dir]. }
      split; [reflexivity |].
      intros p' e' [= <-] _. fold target. rewrite D, Dir. discriminate.
Qed.

Lemma deleteIfNamed_spec (name : string) (p : option string) (s : Storage.Blobs) :
  let r := Storage.deleteIfNamed name p s in
  onlyRemoves s (snd r)
  /\ Storage.disk (snd r) = Storage.disk s
  /\ (forall n k,
        (forall p', p = Some p' -> k <> p') ->
        Storage.s3 (snd r) n k = Storage.s3 s n k)
  /\ (forall e, fst r = Throw e -> snd r = s)
  /\ (fst r = Ok tt ->
      forall p', p = Some p' -> p' <> "" -> Storage.s3 (snd r) name p' = None)
  /\ ((forall p', p = Some p' -> p' <> "" ->
         Storage.refuses s (Storage.DeleteObject name p') = None) ->
      fst r = Ok tt)
  /\ (forall p' e,
        p = Some p' -> p' <> "" ->
        Storage.refuses s (Storage.DeleteObject name p') = Some e ->
        r = (Throw e, s)).
Proof.
  cbv zeta. unfold Storage.deleteIfNamed.
  pose proof (onlyRemoves_refl s) as T1.
  destruct p as [p |].
  2:{ cbn [Storage.done fst snd].
      split; [exact T1 |]. split; [reflexivity |]. split; [reflexivity |].
      split; [discriminate |].
      split; [intros _ p' H; discriminate H |].
      split; [reflexivity |]. intros p' e H. discriminate H. }
  destruct (truthy p) eqn:T.
  2:{ cbn [Storage.done fst snd].
      assert (E : p = "").
      { destruct (string_dec p "") as [E | N]; [exact E |].
        apply truthy_true in N. congruence. }
      split; [exact T1 |]. split; [reflexivity |]. split; [reflexivity |].
      split; [discriminate |].
      split; [intros _ p' [= <-] N; destruct (N E) |].
      split; [reflexivity |]. intros p' e [= <-] N. destruct (N E). }
  assert (N : p <> "") by (intros ->; discriminate T).
  unfold Storage.deleteObject.
  destruct (Storage.refuses s (Storage.DeleteObject name p)) as [e |] eqn:R;
    cbn [fst snd Storage.disk Storage.directories Storage.refuses Storage.s3].
  - split; [exact T1 |]. split; [reflexivity |]. split; [reflexivity |].
    split; [reflexivity |]. split; [discriminate |].
    split.
    + intros H. specialize (H p eq_refl N). congruence.
    + intros p' e' [= <-] _. rewrite R. intros [= <-]. reflexivity.
  - split.
    { split; [reflexivity |]. split; [reflexivity |]. split.
      - intros q. right. reflexivity.
      - intros n k. cbn [Storage.s3].
        destruct (String.eqb n name && String.eqb k p); [left | right]; reflexivity. }
    split; [reflexivity |].
    split.
    { intros n k Hk. specialize (Hk p eq_refl). apply String.eqb_neq in Hk.
      rewrite Hk, andb_false_r. reflexivity. }
    split; [discriminate |].
    split.
    { intros _ p' [= <-] _. rewrite !String.eqb_refl. reflexivity. }
    split; [reflexivity |].
    intros p' e' [= <-] _. rewrite R. discriminate.
Qed.

(** [deleteImageFiles]: what it may change, what cannot be read after it
    returned, when it returns, and that a refused deletion of the original
    is thrown on with nothing changed. *)
Lemma deleteImageFiles_spec
  (cfg : Storage.Config) (originalPath : string) (processedPath : option string)
  (s : Storage.Blobs) :
  let r := Storage.deleteImageFiles cfg originalPath processedPath s in
  let named p := p = originalPath \/ Some p = processedPath in
  onlyRemoves s (snd r)
  /\ (forall q,
        (forall p, named p -> q <> Storage.inWorkingDirectory cfg p) ->
        Storage.disk (snd r) q = Storage.disk s q)
  /\ (forall n k,
        (forall p, named p -> k <> p) ->
        Storage.s3 (snd r) n k = Storage.s3 s n k)
  /\ (fst r = Ok tt ->
      Storage.useLocalStorage cfg = true
      \/ Storage.present (Storage.S3_BUCKET_NAME cfg) = true ->
      forall p, named p -> p <> "" ->
        exists e, Storage.getImageBuffer cfg p (snd r) = Throw e)
  /\ ((forall p, named p -> p <> "" ->
         Storage.refuses s (Storage.Unlink (Storage.inWorkingDirectory cfg p)) = None
         /\ Storage.directories s (Storage.inWorkingDirectory cfg p) = false
         /\ forall bucketName,
              Storage.refuses s (Storage.DeleteObject bucketName p) = None) ->
      fst r = Ok tt)
  /\ (forall e,
        originalPath <> "" ->
        (if Storage.useLocalStorage cfg
         then Storage.existsSync (Storage.inWorkingDirectory cfg originalPath) s = true
              /\ Storage.refuses s
                   (Storage.Unlink (Storage.inWorkingDirectory cfg originalPath))
                 = Some e
         else exists bucketName,
                Storage.S3_BUCKET_NAME cfg = Some bucketName
                /\ bucketName <> ""
                /\ Storage.refuses s (Storage.DeleteObject bucketName originalPath)
                   = Some e) ->
        r = (Throw e, s)).
Proof.
  cbv zeta.
  unfold Storage.deleteImageFiles, Storage.getImageBuffer, Storage.present,
    Storage.andThen.
  destruct (Storage.useLocalStorage cfg) eqn:L.
  - destruct (unlinkIfExists_spec cfg (Some originalPath) s)
      as (A1 & A2 & A3 & A4 & A5 & A6 & A7).
    destruct (Storage.unlinkIfExists cfg (Some originalPath) s) as [[[] | e1] s1];
      cbn [fst snd] in *.
    + destruct (unlinkIfExists_spec cfg processedPath s1)
        as (B1 & B2 & B3 & B4 & B5 & B6 & B7).
      destruct (Storage.unlinkIfExists cfg processedPath s1) as [[[] | e2] s2];
        cbn [fst snd] in *.
      * split; [exact (onlyRemoves_trans _ _ _ A1 B1) |].
        split.
        { intros q Hq. rewrite B3, A3; [reflexivity | |].
          - intros p' [= <-]. apply Hq. left. reflexivity.
          - intros p' ->. apply Hq. right. reflexivity. }
        split; [intros n k _; rewrite B2, A2; reflexivity |].
        split.
        { intros _ _ p Hp N. unfold Storage.readFileSync.
          destruct B1 as (Bd & Br & Bf & _). destruct A1 as (Ad & Ar & _).
          assert (G : Storage.disk s2 (Storage.inWorkingDirectory cfg p) = None
                      /\ Storage.directories s2 (Storage.inWorkingDirectory cfg p)
                         = false).
          { destruct Hp as [-> | <-].
            - destruct (A5 eq_refl originalPath eq_refl N) as (G1 & G2).
              split; [| rewrite Bd, Ad; exact G2].
              destruct (Bf (Storage.inWorkingDirectory cfg originalPath)) as [E | E];
                [exact E | rewrite E; exact G1].
            - destruct (B5 eq_refl p eq_refl N) as (G1 & G2).
              split; [exact G1 | rewrite Bd; exact G2]. }
          destruct G as (G1 & G2). rewrite G1, G2.
          destruct (Storage.refuses s2 _); eexists; reflexivity. }
        split; [reflexivity |].
        intros e N (Hex & Hr). exfalso.
        assert (H := A7 originalPath e eq_refl N Hex Hr). discriminate H.
      * split; [exact (onlyRemoves_trans _ _ _ A1 B1) |].
        split.
        { intros q Hq. rewrite B3, A3; [reflexivity | |].
          - intros p' [= <-]. apply Hq. left. reflexivity.
          - intros p' ->. apply Hq. right. reflexivity. }
        split; [intros n k _; rewrite B2, A2; reflexivity |].
        split; [discriminate |].
        split.
        { intros H. exfalso.
          assert (G : @Throw unit e2 = Ok tt); [| discriminate G].
          apply B6. intros p' -> N.
          destruct (H p' (or_intror eq_refl) N) as (H1 & H2 & _).
          destruct A1 as (Ad & Ar & _). rewrite Ad, Ar. split; assumption. }
        intros e N (Hex & Hr). exfalso.
        assert (H := A7 originalPath e eq_refl N Hex Hr). discriminate H.
    + split; [exact A1 |].
      split.
      { intros q Hq. apply A3. intros p' [= <-]. apply Hq. left. reflexivity. }
      split; [intros n k _; rewrite A2; reflexivity |].
      split; [discriminate |].
      split.
      { intros H. apply A6. intros p' [= <-] N.
        destruct (H originalPath (or_introl eq_refl) N) as (H1 & H2 & _).
        split; assumption. }
      intros e N (Hex & Hr). exact (A7 originalPath e eq_refl N Hex Hr).
  - destruct (Storage.S3_BUCKET_NAME cfg) as [bucketName |] eqn:Bn.
    2:{ cbn [Storage.done fst snd].
        split; [apply onlyRemoves_refl |]. split; [reflexivity |].
        split; [reflexivity |].
        split; [intros _ [H | H]; discriminate H |].
        split; [reflexivity |].
        intros e _ (b & H & _). discriminate H. }
    destruct (truthy bucketName) eqn:T.
    2:{ cbn [Storage.done fst snd].
        split; [apply onlyRemoves_refl |]. split; [reflexivity |].
        split; [reflexivity |].
        split; [intros _ [H | H]; discriminate H |].
        split; [reflexivity |].
        intros e _ (b & [= <-] & N & _). apply truthy_true in N. congruence. }
    destruct (deleteIfNamed_spec bucketName (Some originalPath) s)
      as (A1 & A2 & A3 & A4 & A5 & A6 & A7).
    destruct (Storage.deleteIfNamed bucketName (Some originalPath) s)
      as [[[] | e1] s1]; cbn [fst snd] in *.
    + destruct (deleteIfNamed_spec bucketName processedPath s1)
        as (B1 & B2 & B3 & B4 & B5 & B6 & B7).
      destruct (Storage.deleteIfNamed bucketName processedPath s1)
        as [[[] | e2] s2]; cbn [fst snd] in *.
      * split; [exact (onlyRemoves_trans _ _ _ A1 B1) |].
        split; [intros q _; rewrite B2, A2; reflexivity |].
        split.
        { intros n k Hk. rewrite B3, A3; [reflexivity | |].
          - intros p' [= <-]. apply Hk. left. reflexivity.
          - intros p' ->. apply Hk. right. reflexivity. }
        split.
        { intros _ _ p Hp N. unfold Storage.getObject.
          destruct B1 as (_ & _ & _ & Bo).
          assert (G : Storage.s3 s2 bucketName p = None).
          { destruct Hp as [-> | <-].
            - destruct (Bo bucketName originalPath) as [E | E];
                [exact E | rewrite E; exact (A5 eq_refl originalPath eq_refl N)].
            - exact (B5 eq_refl p eq_refl N). }
          rewrite G. destruct (Storage.refuses s2 _); eexists; reflexivity. }
        split; [reflexivity |].
        intros e N (b & [= <-] & _ & Hr). exfalso.
        assert (H := A7 originalPath e eq_refl N Hr). discriminate H.
      * split; [exact (onlyRemoves_trans _ _ _ A1 B1) |].
        split; [intros q _; rewrite B2, A2; reflexivity |].
        split.
        { intros n k Hk. rewrite B3, A3; [reflexivity | |].
          - intros p' [= <-]. apply Hk. left. reflexivity.
          - intros p' ->. apply Hk. right. reflexivity. }
        split; [discriminate |].
        split.
        { intros H. exfalso.
          assert (G : @Throw unit e2 = Ok tt); [| discriminate G].
          apply B6. intros p' -> N.
          destruct (H p' (or_intror eq_refl) N) as (_ & _ & H3).
          destruct A1 as (_ & Ar & _). rewrite Ar. apply H3. }
        intros e N (b & [= <-] & _ & Hr). exfalso.
        assert (H := A7 originalPath e eq_refl N Hr). discriminate H.
    + split; [exact A1 |].
      split; [intros q _; rewrite A2; reflexivity |].
      split.
      { intros n k Hk. apply A3. intros p' [= <-]. apply Hk. left. reflexivity. }
      split; [discriminate |].
      split.
      { intros H. apply A6. intros p' [= <-] N.
        destruct (H originalPath (or_introl eq_refl) N) as (_ & _ & H3). apply H3. }
      intros e N (b & [= <-] & _ & Hr). exact (A7 originalPath e eq_refl N Hr).
Qed.

Lemma service_deleteImage_same
  (env : Env) (cfg : Storage.Config) (imageId : string) (s : Deletion.System) :
  Deletion.service_deleteImage env cfg imageId s
  = Deletion.deleteImage env cfg imageId s.
Proof.
  unfold Deletion.service_deleteImage, Deletion.deleteImage,
    Storage.deleteImageFiles.
  destruct (findUnique env imageId (Deletion.table s)) as [[[image |] | e] w];
    try reflexivity.
  destruct (Storage.useLocalStorage cfg); [reflexivity |].
  destruct (Storage.S3_BUCKET_NAME cfg) as [bucketName |]; [| reflexivity].
  destruct (truthy bucketName); reflexivity.
Qed.

Lemma deleteImage_run
  (env : Env) (cfg : Storage.Config) (imageId : string) (s : Deletion.System)
  (image : Image) :
  prismaFault env = None ->
  find (fun r => String.eqb (id r) imageId) (images (Deletion.table s)) = Some image ->
  Deletion.deleteImage env cfg imageId s
  = match Storage.deleteImageFiles cfg (originalPath image) (processedPath image)
            (Deletion.blobs s) with
    | (Throw error, b) =>
        (Throw error, {| Deletion.table := Deletion.table s; Deletion.blobs := b |})
    | (Ok _, b) =>
        (Ok tt,
         {| Deletion.table :=
              {| images := Deletion.remove_row imageId (images (Deletion.table s));
                 trace := trace (Deletion.table s) |};
            Deletion.blobs := b |})
    end.
Proof.
  intros F Hfind. unfold Deletion.deleteImage.
  rewrite (findUnique_run env imageId _ F), Hfind.
  destruct (Storage.deleteImageFiles cfg (originalPath image)
              (processedPath image) (Deletion.blobs s)) as [[[] | e] b];
    [| reflexivity].
  unfold Deletion.delete. rewrite F, Hfind. reflexivity.
Qed.

(** X15. [deleteImage] of processor.js, with [deleteImageFiles] of
    storage.js, on a stored image, with a working record store and unique
    ids; [deleteImage] of imageService.js does the same.  The files are
    deleted first.  When that throws, [deleteImage] throws the same error
    and the table is as it was: the record stays.  When it returns, the
    record is deleted: no row has the id, every other id finds what it found
    before, and neither the original nor the processed path can be read
    (when the storage is usable and the path is not empty).  Files and
    objects at other locations are never touched.  Deleting the files
    returns when no deletion is refused and neither path is a directory;
    and when the deletion of the original is refused, [deleteImage] throws
    that error and nothing at all has changed. *)
Theorem deleteImage_removes_record_and_files
  (env : Env) (cfg : Storage.Config) (imageId : string) (s : Deletion.System)
  (image : Image) :
  prismaFault env = None ->
  NoDup (map id (images (Deletion.table s))) ->
  find (fun r => String.eqb (id r) imageId) (images (Deletion.table s)) = Some image ->
  let files :=
    Storage.deleteImageFiles cfg (originalPath image) (processedPath image)
      (Deletion.blobs s) in
  let run := Deletion.deleteImage env cfg imageId s in
  let named p := p = originalPath image \/ Some p = processedPath image in
  Deletion.service_deleteImage env cfg imageId s = run
  /\ Deletion.blobs (snd run) = snd files
  /\ (forall e,
        fst files = Throw e ->
        fst run = Throw e /\ Deletion.table (snd run) = Deletion.table s)
  /\ (fst files = Ok tt ->
      fst run = Ok tt
      /\ find (fun r => String.eqb (id r) imageId)
              (images (Deletion.table (snd run))) = None
      /\ (forall other,
            other <> imageId ->
            find (fun r => String.eqb (id r) other)
                 (images (Deletion.table (snd run)))
            = find (fun r => String.eqb (id r) other) (images (Deletion.table s)))
      /\ (Storage.useLocalStorage cfg = true
          \/ Storage.present (Storage.S3_BUCKET_NAME cfg) = true ->
          forall p, named p -> p <> "" ->
            exists e,
              Storage.getImageBuffer cfg p (Deletion.blobs (snd run)) = Throw e))
  /\ (forall q,
        (forall p, named p -> q <> Storage.inWorkingDirectory cfg p) ->
        Storage.disk (Deletion.blobs (snd run)) q = Storage.disk (Deletion.blobs s) q)
  /\ (forall n k,
        (forall p, named p -> k <> p) ->
        Storage.s3 (Deletion.blobs (snd run)) n k
        = Storage.s3 (Deletion.blobs s) n k)
  /\ ((forall p, named p -> p <> "" ->
         Storage.refuses (Deletion.blobs s)
           (Storage.Unlink (Storage.inWorkingDirectory cfg p)) = None
         /\ Storage.directories (Deletion.blobs s)
              (Storage.inWorkingDirectory cfg p) = false
         /\ forall bucketName,
              Storage.refuses (Deletion.blobs s)
                (Storage.DeleteObject bucketName p) = None) ->
      fst files = Ok tt)
  /\ (forall e,
        originalPath image <> "" ->
        (if Storage.useLocalStorage cfg
         then Storage.existsSync
                (Storage.inWorkingDirectory cfg (originalPath image))
                (Deletion.blobs s) = true
              /\ Storage.refuses (Deletion.blobs s)
                   (Storage.Unlink
                      (Storage.inWorkingDirectory cfg (originalPath image)))
                 = Some e
         else exists bucketName,
                Storage.S3_BUCKET_NAME cfg = Some bucketName
                /\ bucketName <> ""
                /\ Storage.refuses (Deletion.blobs s)
                     (Storage.DeleteObject bucketName (originalPath image))
                   = Some e) ->
        run = (Throw e, s)).
Proof.
  intros F Hids Hfind files run named.
  split; [apply service_deleteImage_same |].
  destruct (deleteImageFiles_spec cfg (originalPath image) (processedPath image)
              (Deletion.blobs s)) as (_ & S2 & S3 & S4 & S5 & S6).
  fold files in S2, S3, S4, S5, S6.
  assert (Hrun := deleteImage_run env cfg imageId s image F Hfind).
  fold files run in Hrun.
  rewrite Hrun. clear Hrun.
  destruct files as [[[] | e] b] eqn:Hfiles; cbn [fst snd] in *;
    cbn [fst snd Deletion.table Deletion.blobs images].
  - split; [reflexivity |].
    split; [discriminate |].
    split.
    { intros _. split; [reflexivity |].
      split; [apply remove_row_find; exact Hids |].
      split; [intros other N; apply remove_row_others; exact N |].
      intros Huse p Hp N. exact (S4 eq_refl Huse p Hp N). }
    split; [exact S2 |]. split; [exact S3 |]. split; [exact S5 |].
    intros e N H. discriminate (S6 e N H).
  - split; [reflexivity |].
    split; [intros e' [= <-]; split; reflexivity |].
    split; [discriminate |].
    split; [exact S2 |]. split; [exact S3 |]. split; [exact S5 |].
    intros e' N H. specialize (S6 e' N H). injection S6 as -> ->.
    destruct s; reflexivity.
Qed.

Lemma deleteImage_removes_record_and_files_witness :
  fst (Deletion.deleteImage quietEnv localConfig "n" shelf) = Ok tt
  /\ find (fun r => String.eqb (id r) "n")
          (images (Deletion.table
                     (snd (Deletion.deleteImage quietEnv localConfig "n" shelf))))
     = None
  /\ (exists e,
        Storage.getImageBuffer localConfig "uploads/original/n.jpg"
          (Deletion.blobs (snd (Deletion.deleteImage quietEnv localConfig "n" shelf)))
        = Throw e).
Proof.
  destruct (deleteImage_removes_record_and_files quietEnv localConfig "n" shelf
              pendingRow eq_refl)
    as (_ & _ & _ & Hdone & _).
  - constructor; [intros [H | []]; discriminate H |].
    constructor; [intros [] | constructor].
  - reflexivity.
  - destruct (Hdone eq_refl) as (Hrun & Hgone & _ & Hfiles).
    split; [exact Hrun |]. split; [exact Hgone |].
    apply Hfiles; [left; reflexivity | left; reflexivity | discriminate].
Defined.

(** On a disk that does not let the file be unlinked, [deleteImage] throws
    the error of [unlinkSync], and record and file are still there. *)
Example deleteImage_keeps_record_when_unlink_fails :
  Deletion.deleteImage quietEnv localConfig "n" readOnlyShelf
  = (Throw (Js.error "EACCES: permission denied, unlink '/srv/app/uploads/original/n.jpg'"),
     readOnlyShelf)
  /\ find (fun r => String.eqb (id r) "n")
          (images (Deletion.table readOnlyShelf)) = Some pendingRow
  /\ Storage.getImageBuffer localConfig "uploads/original/n.jpg"
       (Deletion.blobs readOnlyShelf) = Ok (blob 16).
Proof. repeat split. Qed.

(** ** The handlers for one image *)

Lemma getImageUrl_run
  (env : Env) (cfg : Storage.Config) (imageId type : string) (w : World)
  (image : Image) (imagePath : string) :
  prismaFault env = None ->
  find (fun r => String.eqb (id r) imageId) (images w) = Some image ->
  (if String.eqb type "original" then Some (originalPath image)
   else processedPath image) = Some imagePath ->
  imagePath <> "" ->
  Storage.getImageUrl cfg env imageId type w
  = (if Storage.useLocalStorage cfg
     then Ok (Storage.appUrl cfg ++ "/" ++ imagePath)
     else match Storage.S3_BUCKET_NAME cfg with
          | Some bucketName =>
              if truthy bucketName
              then Storage.getSignedUrl cfg bucketName imagePath
              else Ok (Storage.appUrl cfg ++ "/fallback-image")
          | None => Ok (Storage.appUrl cfg ++ "/fallback-image")
          end,
     w).
Proof.
  intros F Hfind Hpath N. unfold Storage.getImageUrl, Prisma.bind.
  rewrite (findUnique_run env imageId w F), Hfind, Hpath.
  apply truthy_true in N. rewrite N. cbn [negb].
  destruct (Storage.useLocalStorage cfg); [reflexivity |].
  destruct (Storage.S3_BUCKET_NAME cfg) as [bucketName |]; [| reflexivity].
  destruct (truthy bucketName); reflexivity.
Qed.

(** X16. [GET /api/images/:id] with a working store.  An unknown id is
    answered 404 "Image not found".  For a stored image whose original path
    is not empty and with the local storage, the answer is 200 with the
    row, the original URL [base/originalPath] and a processed URL
    [base/processedPath] exactly when the row has a non-empty processed
    path, [base] being APP_URL or, failing it, http://localhost:3001; the
    table is not changed.  With the bucket storage and no bucket named,
    every URL is [base/fallback-image]. *)
Theorem getImageById_answers
  (env : Env) (cfg : Storage.Config) (imageId : string) (w : World) :
  prismaFault env = None ->
  (find (fun r => String.eqb (id r) imageId) (images w) = None ->
   Handlers.getImageById env cfg imageId w
   = (Handlers.Next (apiError 404 "Image not found"), w)
   /\ Handlers.httpStatus (fst (Handlers.getImageById env cfg imageId w)) = 404)
  /\ (forall image,
        find (fun r => String.eqb (id r) imageId) (images w) = Some image ->
        originalPath image <> "" ->
        let url (p : string) :=
          if Storage.useLocalStorage cfg then Storage.appUrl cfg ++ "/" ++ p
          else Storage.appUrl cfg ++ "/fallback-image" in
        Storage.useLocalStorage cfg = true
        \/ Storage.present (Storage.S3_BUCKET_NAME cfg) = false ->
        Handlers.getImageById env cfg imageId w
        = (Handlers.ImageWithUrls image (url (originalPath image))
             match processedPath image with
             | Some p => if truthy p then Some (url p) else None
             | None => None
             end,
           w)).
Proof.
  intros F. split.
  - intros Hnone. unfold Handlers.getImageById, Prisma.bind.
    rewrite (findUnique_run env imageId w F), Hnone. split; reflexivity.
  - intros image Hfind N url Hmode.
    assert (U : forall type p,
               (if String.eqb type "original" then Some (originalPath image)
                else processedPath image) = Some p ->
               p <> "" ->
               Storage.getImageUrl cfg env imageId type w = (Ok (url p), w)).
    { intros type p Hp Np.
      rewrite (getImageUrl_run env cfg imageId type w image p F Hfind Hp Np).
      subst url. cbv beta. unfold Storage.present in Hmode.
      destruct (Storage.useLocalStorage cfg); [reflexivity |].
      destruct Hmode as [H | H]; [discriminate H |].
      destruct (Storage.S3_BUCKET_NAME cfg) as [bucketName |]; [| reflexivity].
      rewrite H. reflexivity. }
    unfold Handlers.getImageById, Prisma.bind.
    rewrite (findUnique_run env imageId w F), Hfind.
    rewrite (U "original" (originalPath image) eq_refl N).
    destruct (processedPath image) as [p |] eqn:P; [| reflexivity].
    destruct (truthy p) eqn:T; [| reflexivity].
    rewrite (U "processed" p); [reflexivity | reflexivity |].
    apply truthy_true. exact T.
Qed.

Lemma getImageById_answers_witness :
  Handlers.getImageById quietEnv localConfig "n" (world [pendingRow])
  = (Handlers.ImageWithUrls pendingRow
       "http://localhost:3001/uploads/original/n.jpg" None,
     world [pendingRow])
  /\ Handlers.httpStatus
       (fst (Handlers.getImageById quietEnv localConfig "x" (world [pendingRow])))
     = 404.
Proof.
  destruct (getImageById_answers quietEnv localConfig "n" (world [pendingRow])
              eq_refl) as (_ & Hknown).
  destruct (getImageById_answers quietEnv localConfig "x" (world [pendingRow])
              eq_refl) as (Hunknown & _).
  split.
  - apply (Hknown pendingRow eq_refl); [discriminate | left; reflexivity].
  - apply (Hunknown eq_refl).
Defined.

(** X17. [DELETE /api/images/:id] with a working record store and unique
    ids.  An unknown id is answered 404 and nothing changes.  For a stored
    image the files are deleted first.  When that returns, the answer is
    200 "Image deleted successfully"; the row is then gone, the rows with
    other ids are as before, and the same request made again is answered
    404.  When deleting the files throws, the error goes to [next] (a 500
    for an error without a status of its own) and the row is still in the
    table. *)
Theorem deleteImage_answers
  (env : Env) (cfg : Storage.Config) (imageId : string) (s : Deletion.System) :
  prismaFault env = None ->
  NoDup (map id (images (Deletion.table s))) ->
  (find (fun r => String.eqb (id r) imageId) (images (Deletion.table s)) = None ->
   Handlers.deleteImage env cfg imageId s
   = (Handlers.Next (apiError 404 "Image not found"), s)
   /\ Handlers.httpStatus (fst (Handlers.deleteImage env cfg imageId s)) = 404)
  /\ (forall image,
        find (fun r => String.eqb (id r) imageId) (images (Deletion.table s))
        = Some image ->
        let files :=
          Storage.deleteImageFiles cfg (originalPath image) (processedPath image)
            (Deletion.blobs s) in
        (fst files = Ok tt ->
         exists s',
           Handlers.deleteImage env cfg imageId s
           = (Handlers.Message 200 "Image deleted successfully", s')
           /\ Deletion.blobs s' = snd files
           /\ find (fun r => String.eqb (id r) imageId)
                   (images (Deletion.table s')) = None
           /\ (forall other,
                 other <> imageId ->
                 find (fun r => String.eqb (id r) other)
                      (images (Deletion.table s'))
                 = find (fun r => String.eqb (id r) other)
                        (images (Deletion.table s)))
           /\ Handlers.httpStatus (fst (Handlers.deleteImage env cfg imageId s'))
              = 404)
        /\ (forall e,
              fst files = Throw e ->
              Handlers.deleteImage env cfg imageId s
              = (Handlers.Next e,
                 {| Deletion.table := Deletion.table s;
                    Deletion.blobs := snd files |})
              /\ (statusCode e = None ->
                  Handlers.httpStatus
                    (fst (Handlers.deleteImage env cfg imageId s)) = 500))).
Proof.
  intros F Hids.
  assert (Unknown : forall s0,
             find (fun r => String.eqb (id r) imageId)
                  (images (Deletion.table s0)) = None ->
             Handlers.deleteImage env cfg imageId s0
             = (Handlers.Next (apiError 404 "Image not found"), s0)).
  { intros s0 Hnone. unfold Handlers.deleteImage.
    rewrite (findUnique_run env imageId _ F), Hnone. destruct s0; reflexivity. }
  split.
  - intros Hnone. rewrite (Unknown s Hnone). split; reflexivity.
  - intros image Hfind files.
    assert (Hgone := remove_row_find imageId (images (Deletion.table s)) Hids).
    assert (Hrun :
      Handlers.deleteImage env cfg imageId s
      = match Deletion.deleteImage env cfg imageId s with
        | (Ok _, s') => (Handlers.Message 200 "Image deleted successfully", s')
        | (Throw error, s') => (Handlers.Next error, s')
        end).
    { unfold Handlers.deleteImage.
      rewrite (findUnique_run env imageId _ F), Hfind.
      rewrite service_deleteImage_same. destruct s; reflexivity. }
    rewrite Hrun, (deleteImage_run env cfg imageId s image F Hfind).
    fold files. clear Hrun.
    destruct files as [[[] | e] b]; cbn [fst snd].
    + split; [intros _ | discriminate].
      eexists. split; [reflexivity |].
      cbn [Deletion.table Deletion.blobs images].
      split; [reflexivity |]. split; [exact Hgone |].
      split; [intros other N; apply remove_row_others; exact N |].
      rewrite Unknown; [reflexivity | exact Hgone].
    + split; [discriminate |].
      intros e' [= <-]. split; [reflexivity |].
      intros Hcode. cbn [fst Handlers.httpStatus Handlers.errorHandler].
      rewrite Hcode. reflexivity.
Qed.

Lemma deleteImage_answers_witness :
  exists s',
    Handlers.deleteImage quietEnv localConfig "n" shelf
    = (Handlers.Message 200 "Image deleted successfully", s')
    /\ Handlers.httpStatus (fst (Handlers.deleteImage quietEnv localConfig "n" s'))
       = 404.
Proof.
  destruct (deleteImage_answers quietEnv localConfig "n" shelf eq_refl)
    as (_ & Hknown).
  - constructor; [intros [H | []]; discriminate H |].
    constructor; [intros [] | constructor].
  - destruct (Hknown pendingRow eq_refl) as (Hdone & _).
    destruct (Hdone eq_refl) as (s' & Hrun & _ & _ & _ & Hagain).
    exists s'. split; [exact Hrun | exact Hagain].
Defined.

(** The same request on a disk that does not let the file be unlinked: the
    answer is a 500 and the table still holds the row. *)
Example deleteImage_answers_500_when_unlink_fails :
  Handlers.deleteImage quietEnv localConfig "n" readOnlyShelf
  = (Handlers.Next
       (Js.error "EACCES: permission denied, unlink '/srv/app/uploads/original/n.jpg'"),
     readOnlyShelf)
  /\ Handlers.httpStatus
       (fst (Handlers.deleteImage quietEnv localConfig "n" readOnlyShelf)) = 500.
Proof. split; reflexivity. Qed.

(** ** Grouping regions *)

Lemma has_In (i : nat) (used : list nat) :
  RegionGrouping.has i used = true <-> In i used.
Proof.
  unfold RegionGrouping.has. rewrite existsb_exists. split.
  - intros (k & Hk & E). apply Nat.eqb_eq in E. subst k. exact Hk.
  - intros H. exists i. split; [exact H | apply Nat.eqb_refl].
Qed.

Lemma map_nth_seq {A} (l : list A) (d : A) :
  map (fun k => nth k l d) (seq 0 (List.length l)) = l.
Proof.
  induction l as [| a l IH]; [reflexivity |].
  cbn [List.length seq map nth]. f_equal.
  rewrite <- seq_shift, map_map. exact IH.
Qed.

Section Grouping.
Variable pow2 : float -> float.
Variable regions : list RegionGrouping.Region.
Variable d : RegionGrouping.Region.

Lemma absorb_loop (ri : RegionGrouping.Region) (base : list RegionGrouping.Region)
      (js : list nat) :
  forall (g : list RegionGrouping.Region) (u : list nat)
         (g' : list RegionGrouping.Region) (u' : list nat),
    fold_left (RegionGrouping.absorb pow2 regions ri) js (g, u) = (g', u') ->
    NoDup u -> (forall k, In k u -> (k < List.length regions)%nat) ->
    Permutation (base ++ g) (map (fun k => nth k regions d) u) ->
    (exists rest,
        g = ri :: rest
        /\ Forall (fun r => RegionGrouping.near pow2 ri r = true) rest) ->
    NoDup u'
    /\ (forall k, In k u' -> (k < List.length regions)%nat)
    /\ Permutation (base ++ g') (map (fun k => nth k regions d) u')
    /\ (exists rest,
          g' = ri :: rest
          /\ Forall (fun r => RegionGrouping.near pow2 ri r = true) rest)
    /\ incl u u'.
Proof.
  induction js as [| j js IH]; intros g u g' u' Hrun Hnd Hlt Hperm Hgroup.
  - cbn in Hrun. injection Hrun as <- <-.
    repeat split; try assumption. apply incl_refl.
  - cbn [fold_left] in Hrun. unfold RegionGrouping.absorb at 2 in Hrun.
    destruct (RegionGrouping.has j u) eqn:Hj;
      [exact (IH g u g' u' Hrun Hnd Hlt Hperm Hgroup) |].
    destruct (nth_error regions j) as [rj |] eqn:Hrj;
      [| exact (IH g u g' u' Hrun Hnd Hlt Hperm Hgroup)].
    destruct (RegionGrouping.near pow2 ri rj) eqn:Hnear;
      [| exact (IH g u g' u' Hrun Hnd Hlt Hperm Hgroup)].
    assert (Hnot : ~ In j u).
    { intros Hin. apply has_In in Hin. congruence. }
    destruct (IH (g ++ [rj])%list (j :: u) g' u' Hrun) as (A & B & C & D & E).
    + constructor; assumption.
    + intros k [<- | Hk]; [| apply Hlt; exact Hk].
      apply nth_error_Some. congruence.
    + cbn [map]. rewrite (nth_error_nth regions j d Hrj).
      rewrite app_assoc. apply Permutation_sym, Permutation_cons_app.
      rewrite app_nil_r. apply Permutation_sym. exact Hperm.
    + destruct Hgroup as (rest & -> & Hrest). exists (rest ++ [rj])%list.
      split; [reflexivity |]. apply Forall_app. split; [exact Hrest |].
      constructor; [exact Hnear | constructor].
    + repeat split; try assumption.
      intros k Hk. apply E. right. exact Hk.
Qed.

Lemma startGroup_loop (indices : list nat) :
  forall (groups : list (list RegionGrouping.Region)) (used : list nat)
         (groups' : list (list RegionGrouping.Region)) (used' : list nat),
    fold_left (RegionGrouping.startGroup pow2 regions) indices (groups, used)
    = (groups', used') ->
    (forall i, In i indices -> (i < List.length regions)%nat) ->
    NoDup used -> (forall k, In k used -> (k < List.length regions)%nat) ->
    Permutation (List.concat groups) (map (fun k => nth k regions d) used) ->
    Forall (fun g => exists r0 rest,
                g = r0 :: rest
                /\ Forall (fun r => RegionGrouping.near pow2 r0 r = true) rest)
           groups ->
    (List.length groups <= List.length used)%nat ->
    NoDup used'
    /\ (forall k, In k used' -> (k < List.length regions)%nat)
    /\ Permutation (List.concat groups') (map (fun k => nth k regions d) used')
    /\ Forall (fun g => exists r0 rest,
                  g = r0 :: rest
                  /\ Forall (fun r => RegionGrouping.near pow2 r0 r = true) rest)
              groups'
    /\ (List.length groups' <= List.length used')%nat
    /\ incl used used'
    /\ (forall i, In i indices -> In i used').
Proof.
  induction indices as [| i indices IH];
    intros groups used groups' used' Hrun His Hnd Hlt Hperm Hgroups Hlen.
  - cbn in Hrun. injection Hrun as <- <-.
    repeat split; try assumption; [apply incl_refl | intros i []].
  - cbn [fold_left] in Hrun.
    assert (His' : forall k, In k indices -> (k < List.length regions)%nat)
      by (intros k Hk; apply His; right; exact Hk).
    unfold RegionGrouping.startGroup at 2 in Hrun.
    destruct (RegionGrouping.has i used) eqn:Hi.
    { destruct (IH groups used groups' used' Hrun His' Hnd Hlt Hperm Hgroups Hlen)
        as (A & B & C & D & E & G & H).
      repeat split; try assumption.
      intros k [<- | Hk]; [apply G; apply has_In; exact Hi | apply H; exact Hk]. }
    destruct (nth_error regions i) as [ri |] eqn:Hri.
    2:{ exfalso. apply nth_error_None in Hri.
        specialize (His i (or_introl eq_refl)). lia. }
    assert (Hnot : ~ In i used).
    { intros Hin. apply has_In in Hin. congruence. }
    destruct (fold_left (RegionGrouping.absorb pow2 regions ri) _ ([ri], i :: used))
      as [g u] eqn:Hinner.
    destruct (absorb_loop ri (List.concat groups) _ _ _ _ _ Hinner)
      as (A1 & B1 & C1 & (rest & -> & Hrest) & E1).
    + constructor; assumption.
    + intros k [<- | Hk]; [apply His; left; reflexivity | apply Hlt; exact Hk].
    + cbn [map]. rewrite (nth_error_nth regions i d Hri).
      apply Permutation_sym, Permutation_cons_app.
      rewrite app_nil_r. apply Permutation_sym. exact Hperm.
    + exists []. split; [reflexivity | constructor].
    + destruct (IH (groups ++ [ri :: rest])%list u groups' used' Hrun His' A1 B1)
        as (A & B & C & D & E & G & H).
      * rewrite concat_app. cbn [List.concat]. rewrite app_nil_r. exact C1.
      * apply Forall_app. split; [exact Hgroups |].
        constructor; [exists ri, rest; split; [reflexivity | exact Hrest]
                     | constructor].
      * rewrite length_app. cbn [List.length].
        pose proof (NoDup_incl_length (NoDup_cons i Hnot Hnd) E1) as L.
        cbn [List.length] in L. lia.
      * repeat split; try assumption.
        -- intros k Hk. apply G. apply E1. right. exact Hk.
        -- intros k [<- | Hk]; [apply G; apply E1; left; reflexivity
                               | apply H; exact Hk].
Qed.

End Grouping.

(** X18. [groupNearbyRegions] partitions the regions: the groups put
    together are the regions, each taken once; no group is empty; there
    are at most as many groups as regions; and every region of a group is
    nearer than 60 to the region the group started from (which is its
    first). *)
Theorem groupNearbyRegions_partitions
  (pow2 : float -> float) (regions : list RegionGrouping.Region) :
  let groups := RegionGrouping.groupNearbyRegions pow2 regions in
  Permutation (List.concat groups) regions
  /\ Forall (fun g => exists r0 rest,
                g = r0 :: rest
                /\ Forall (fun r => RegionGrouping.near pow2 r0 r = true) rest)
            groups
  /\ (List.length groups <= List.length regions)%nat
  /\ (regions <> [] -> groups <> []).
Proof.
  cbv zeta. unfold RegionGrouping.groupNearbyRegions.
  destruct (fold_left _ _ _) as [groups used] eqn:Hrun. cbn [fst].
  set (d := {| RegionGrouping.x := 0%float; RegionGrouping.y := 0%float;
               RegionGrouping.contrast := 0%float;
               RegionGrouping.confidence := 0%float |}).
  destruct (startGroup_loop pow2 regions d _ _ _ _ _ Hrun)
    as (A & B & C & D & E & _ & H).
  - intros i Hi. apply in_seq in Hi. lia.
  - constructor.
  - intros k [].
  - constructor.
  - constructor.
  - cbn. lia.
  - assert (P : Permutation used (seq 0 (List.length regions))).
    { apply NoDup_Permutation; [exact A | apply seq_NoDup |].
      intros k. split; [intros Hk; apply in_seq; specialize (B k Hk); lia | apply H]. }
    assert (R : Permutation (List.concat groups) regions).
    { apply (Permutation_trans C).
      apply (Permutation_trans
               (Permutation_map (fun k => nth k regions d) P)).
      rewrite map_nth_seq. apply Permutation_refl. }
    split; [exact R |]. split; [exact D |].
    split; [rewrite (Permutation_length P), length_seq in E; exact E |].
    intros N Hg. subst groups. cbn in R. apply Permutation_nil in R.
    destruct N. exact R.
Qed.

(** ** Manual reprocessing, end to end *)

(** X19. [POST /api/images/:id/process] on a PENDING record, with a
    working store, is answered 202 and leaves the record FAILED or
    PROCESSED.  The same request made again does not change the table: it
    is answered 202 when the record was rejected, and passed on as the
    error 400 "Image already processed" when it was admitted. *)
Theorem reprocess_settles_pending_record
  (env : Env) (w : World) (imageId : string) (image : Image) :
  prismaFault env = None ->
  find (fun r => String.eqb (id r) imageId) (images w) = Some image ->
  status image = PENDING ->
  let accepted := ImageController.Json 202 true "Image processing started" imageId in
  exists r w',
    ImageController.processImage env imageId w = (accepted, w')
    /\ find (fun x => String.eqb (id x) imageId) (images w') = Some r
    /\ ((status r = FAILED
         /\ ImageController.processImage env imageId w' = (accepted, w'))
        \/ (status r = PROCESSED
            /\ ImageController.processImage env imageId w'
               = (ImageController.Next (apiError 400 "Image already processed"),
                  w'))).
Proof.
  intros F Hfind Hst accepted.
  destruct (service_run_settles env F imageId image w Hfind Hst)
    as (r & w' & Hrun & r' & [= <-] & Hf & _ & Hend).
  exists r, w'.
  split.
  { rewrite (controller_run env w imageId F), Hfind, Hst, Hrun. reflexivity. }
  split; [exact Hf |].
  rewrite (controller_run env w' imageId F), Hf.
  destruct Hend as [(code & _ & Hfailed & _) | (Hprocessed & _)].
  - left. split; [exact Hfailed |]. rewrite Hfailed. cbn [status_eqb].
    unfold ImageService.processImage, Prisma.bind.
    rewrite (findUnique_run env imageId w' F), Hf, Hfailed. reflexivity.
  - right. split; [exact Hprocessed |]. rewrite Hprocessed. reflexivity.
Qed.

Lemma reprocess_settles_pending_record_witness :
  exists r w',
    ImageController.processImage (portrait 500 500) "n" (world [pendingRow])
    = (ImageController.Json 202 true "Image processing started" "n", w')
    /\ find (fun x => String.eqb (id x) "n") (images w') = Some r
    /\ ((status r = FAILED
         /\ ImageController.processImage (portrait 500 500) "n" w'
            = (ImageController.Json 202 true "Image processing started" "n", w'))
        \/ (status r = PROCESSED
            /\ ImageController.processImage (portrait 500 500) "n" w'
               = (ImageController.Next (apiError 400 "Image already processed"),
                  w'))).
Proof.
  apply (reprocess_settles_pending_record (portrait 500 500) (world [pendingRow])
           "n" pendingRow eq_refl eq_refl eq_refl).
Defined.

(** ** Derivatives belong to PROCESSED rows *)

Lemma touchesOnly_ids (rowId : string) (w w' : World) :
  touchesOnly rowId w w' -> map id (images w') = map id (images w).
Proof.
  intros (H & _). induction H as [| r r' l l' (Hs & _) _ IH]; [reflexivity |].
  cbn [map]. destruct Hs as (Hid & _). rewrite Hid, IH. reflexivity.
Qed.

Lemma touchesOnly_find_other (rowId other : string) (w w' : World) :
  touchesOnly rowId w w' -> other <> rowId ->
  find (fun x => String.eqb (id x) other) (images w')
  = find (fun x => String.eqb (id x) other) (images w).
Proof.
  intros (H & _) N.
  induction H as [| r r' l l' (Hs & Hother & _) _ IH]; [reflexivity |].
  cbn [find]. destruct Hs as (Hid & _). rewrite Hid.
  destruct (String.eqb_spec (id r) other) as [E | _]; [| exact IH].
  rewrite Hother; [reflexivity | congruence].
Qed.

Lemma Forall2_In_right {A B} (R : A -> B -> Prop) (l : list A) (l' : list B) :
  Forall2 R l l' -> forall b, In b l' -> exists a, In a l /\ R a b.
Proof.
  intros H. induction H as [| a b0 l l' Hab _ IH]; intros b Hb; [destruct Hb |].
  destruct Hb as [<- | Hb].
  - exists a. split; [left; reflexivity | exact Hab].
  - destruct (IH b Hb) as (a' & Ha' & Hr). exists a'. split; [right |]; assumption.
Qed.

Lemma find_by_unique_id (rows : list Image) (r : Image) :
  NoDup (map id rows) -> In r rows ->
  find (fun x => String.eqb (id x) (id r)) rows = Some r.
Proof.
  induction rows as [| a rows IH]; intros Hnd Hin; [destruct Hin |].
  cbn [map] in Hnd. apply NoDup_cons_iff in Hnd as (Hn & Hnd). cbn [find].
  destruct Hin as [-> | Hin]; [rewrite String.eqb_refl; reflexivity |].
  destruct (String.eqb_spec (id a) (id r)) as [E | _]; [| apply IH; assumption].
  destruct Hn. rewrite E. apply in_map. exact Hin.
Qed.

Lemma processImage_frame (env : Env) (imageId : string) (w : World) :
  touchesOnly imageId w (snd (Processor.processImage env imageId w)).
Proof.
  pose proof (processImage_footprint env imageId (touchesOnly imageId w)
                (fun w' e => touchesOnly_logged imageId w w' e)
                (fun w' d r Hd _ => touchesOnly_written imageId w w' d r Hd)
                w (touchesOnly_refl imageId w)) as H.
  destruct (Processor.processImage env imageId w) as [[a | e] w']; exact H.
Qed.

(** X20. In a table with unique ids in which only PROCESSED rows have a
    processed path, a run of [processImage] (processor.js) keeps both: the
    ids stay unique, and afterwards a row has a processed path only if it
    is PROCESSED, whatever the collaborators answer. *)
Theorem processImage_keeps_derivatives_for_processed
  (env : Env) (imageId : string) (w : World) :
  NoDup (map id (images w)) ->
  Forall derivativeMeansProcessed (images w) ->
  NoDup (map id (images (snd (Processor.processImage env imageId w))))
  /\ Forall derivativeMeansProcessed
            (images (snd (Processor.processImage env imageId w))).
Proof.
  intros Hnd HJ.
  pose proof (processImage_frame env imageId w) as T.
  assert (Hnd' : NoDup (map id (images (snd (Processor.processImage env imageId w)))))
    by (rewrite (touchesOnly_ids _ _ _ T); exact Hnd).
  split; [exact Hnd' |].
  destruct (prismaFault env) as [fault |] eqn:F.
  { unfold Processor.processImage, Prisma.bind, findUnique. rewrite F. exact HJ. }
  destruct (find (fun r => String.eqb (id r) imageId) (images w))
    as [image |] eqn:Hfind.
  2:{ unfold Processor.processImage, Prisma.bind.
      rewrite (findUnique_run env imageId w F), Hfind. exact HJ. }
  destruct (status image) eqn:Hst;
    try (unfold Processor.processImage, Prisma.bind;
         rewrite (findUnique_run env imageId w F), Hfind, Hst; exact HJ).
  destruct (processImage_run_settles env F imageId image (fun _ => True) w
              (fun _ => Logic.I) Hfind Hst)
    as (r & w' & Hrun & r0 & [= <-] & Hf & _ & Hend).
  rewrite Hrun in *. cbn [snd] in *.
  apply Forall_forall. intros r' Hin'.
  destruct (Forall2_In_right _ _ _ (proj1 T) r' Hin')
    as (a & Hin & (Hid & _) & Hother & _).
  destruct (String.eqb_spec (id a) imageId) as [E | N].
  - assert (r' = r) as ->.
    { pose proof (find_by_unique_id (images w') r' Hnd' Hin') as U.
      rewrite Hid, E, Hf in U. congruence. }
    destruct Hend as [(code & _ & Hfailed & Hpath & _) | (Hprocessed & _)];
      [| intros _; exact Hprocessed].
    intros Hp. rewrite Hpath in Hp.
    apply find_some in Hfind as (Himage & _).
    rewrite Forall_forall in HJ. specialize (HJ image Himage Hp). congruence.
  - rewrite (Hother N). rewrite Forall_forall in HJ. apply HJ. exact Hin.
Qed.

Lemma processImage_keeps_derivatives_for_processed_witness :
  NoDup (map id (images (snd (Processor.processImage (portrait 900 900) "a"
                                twoCopies))))
  /\ Forall derivativeMeansProcessed
            (images (snd (Processor.processImage (portrait 900 900) "a" twoCopies))).
Proof.
  apply (processImage_keeps_derivatives_for_processed (portrait 900 900) "a"
           twoCopies).
  - constructor; [intros [H | []]; discriminate H |].
    constructor; [intros [] | constructor].
  - constructor; [intros H; destruct H; reflexivity |].
    constructor; [intros H; destruct H; reflexivity | constructor].
Defined.

(** ** The same file uploaded twice *)

Lemma generateImageHash_nonempty (env : Env) (imageBuffer : Buffer) (h : string) :
  generateImageHash env imageBuffer = Ok h -> h <> "".
Proof.
  unfold generateImageHash, rbind.
  destruct (sharp_thumbnail env imageBuffer) as [pixels |]; [| discriminate].
  destruct (hashBuffer (binaryHash pixels)) as [bytes |]; [| discriminate].
  intros [= <-] E.
  pose proof (encode_length (Md5.digest bytes)) as L.
  rewrite E, digest_length in L. discriminate L.
Qed.

Lemma In_replace_row_other (rows : list Image) (i : string) (d : UpdateData)
      (r : Image) :
  In r rows -> id r <> i -> In r (replace_row i d rows).
Proof.
  intros Hin N. induction rows as [| a rows IH]; [destruct Hin |].
  cbn [replace_row]. destruct (String.eqb_spec (id a) i) as [E | _].
  - destruct Hin as [-> | Hin]; [destruct (N E) | right; exact Hin].
  - destruct Hin as [-> | Hin]; [left; reflexivity | right; apply IH; exact Hin].
Qed.

(** A candidate with exactly the hash makes the verdict a duplicate. *)
Lemma verdict_equal_hash
  (hash name : string) (e : option string) (rows : list Image) (r : Image)
  (m : MetaData) :
  In r rows -> status r = PROCESSED -> excluded e r = false ->
  metaData r = Some m -> pHash m = Some hash -> hash <> "" ->
  exists similar,
    verdict hash name (candidatesOf e rows)
    = {| isDuplicate := true; similarImage := Some similar |}.
Proof.
  intros Hin Hst Hex Hm Hh Hne. unfold verdict.
  destruct (if truthy name then _ else _) as [exactMatch |];
    [exists exactMatch; reflexivity |].
  destruct (scan_first hash (candidatesOf e rows))
    as [(l1 & c & l2 & _ & _ & _ & E) | (Hnone & _)];
    [exists c; exact E |].
  exfalso. apply (Hnone (select r)).
  - unfold candidatesOf. apply in_map. apply filter_In. split; [exact Hin |].
    rewrite Hst, Hex. reflexivity.
  - exists hash. split.
    + unfold storedHash. cbn [select Candidate.metaData]. rewrite Hm, Hh.
      apply truthy_true in Hne. rewrite Hne. reflexivity.
    + unfold distance. rewrite differing_same. discriminate.
Qed.

Lemma triple_assume {A} (P : World -> Prop) (R : Prop) (m : M A)
      (Q : A -> World -> Prop) (E : World -> Prop) :
  (R -> triple P m Q E) -> triple (fun w => P w /\ R) m Q E.
Proof. intros H w (Hw & HR). exact (H HR w Hw). Qed.

Section Outcome.
Variable env : Env.
Hypothesis F : prismaFault env = None.
Variable imageId : string.
Variable image : Image.
Variable imageBuffer : Buffer.
Hypothesis Hbuf : getImageBuffer env (originalPath image) = Ok imageBuffer.

Lemma reject_run_failed (m : MetaData) (w : World) :
  stored imageId image w ->
  exists r w',
    update env imageId (Processor.setFailed m) w = (Ok r, w')
    /\ findUnique env imageId w' = (Ok (Some r), w')
    /\ find (fun x => String.eqb (id x) imageId) (images w') = Some r
    /\ status r = FAILED.
Proof.
  intros (r0 & Hf & _).
  assert (Hf' := find_replace_row _ _ (Processor.setFailed m) _ Hf).
  exists (apply_update (Processor.setFailed m) r0),
    (written imageId (Processor.setFailed m) r0 w).
  split; [apply update_run; assumption |].
  split; [rewrite (findUnique_run _ _ _ F); cbn [written images]; rewrite Hf';
          reflexivity |].
  split; [exact Hf' | reflexivity].
Qed.

Lemma triple_reject_failed (m : MetaData) (E : World -> Prop) :
  triple (stored imageId image)
         (Prisma.bind (update env imageId (Processor.setFailed m))
                      (fun _ => findUnique env imageId))
         (fun result w =>
            exists r,
              result = Some r
              /\ find (fun x => String.eqb (id x) imageId) (images w) = Some r
              /\ (status r = FAILED
                  \/ (status r = PROCESSED /\ passedBy env imageBuffer r)))
         E.
Proof.
  intros w Hw.
  destruct (reject_run_failed m w Hw) as (r & w' & Hu & Hfu & Hf & Hst).
  unfold Prisma.bind. rewrite Hu, Hfu.
  exists r. split; [reflexivity |]. split; [exact Hf | left; exact Hst].
Qed.

Lemma pipeline_outcome :
  triple (stored imageId image) (Processor.pipeline env imageId image)
         (fun result w =>
            exists r,
              result = Some r
              /\ find (fun x => String.eqb (id x) imageId) (images w) = Some r
              /\ (status r = FAILED
                  \/ (status r = PROCESSED /\ passedBy env imageBuffer r)))
         (stored imageId image).
Proof.
  unfold Processor.pipeline.
  apply triple_bind with (Q1 := fun _ => stored imageId image).
  { apply triple_update; [| auto].
    intros w r Hw Hr. apply stored_processing; assumption. }
  intros _.
  apply triple_bind_await; [intros b Hb | auto].
  assert (b = imageBuffer) as -> by congruence.
  apply triple_bind_invoke_ret; [auto using stored_logged |].
  destruct (SizeValidation.isValid _) eqn:Hsz; cbn [negb].
  - apply triple_bind
      with (Q1 := fun outcome w =>
                    match outcome with
                    | inl result =>
                        exists r,
                          result = Some r
                          /\ find (fun x => String.eqb (id x) imageId) (images w)
                             = Some r
                          /\ (status r = FAILED
                              \/ (status r = PROCESSED
                                  /\ passedBy env imageBuffer r))
                    | inr _ =>
                        stored imageId image w
                        /\ FaceDetection.isValid
                             (FaceDetection.validateFacesWithOverride env
                                imageBuffer) = true
                    end).
    { intros w Hw. unfold Processor.faceStage. monad.
      destruct (FaceDetection.isValid _) eqn:V; [split; [exact Hw | reflexivity] |].
      destruct (reject_run_failed
                  (Processor.faceRejection
                     (FaceDetection.validateFacesWithOverride env imageBuffer))
                  (logged (Invoked FaceStage) w) Hw)
        as (r & w' & Hu & Hfu & Hf & Hst).
      unfold logged in Hu. rewrite Hu, Hfu.
      exists r. split; [reflexivity |]. split; [exact Hf | left; exact Hst]. }
    intros [result | faceValidation]; [apply triple_ret; auto |].
    apply triple_assume. intros V.
    apply triple_bind_invoke_ret; [auto using stored_logged |].
    destruct (BlurDetection.isBlurry _) eqn:Hblur;
      [apply triple_reject_failed |].
    apply triple_bind_invoke_await;
      [auto using stored_logged | intros imageHash Hh | auto].
    apply triple_bind with (Q1 := fun _ => stored imageId image).
    { apply triple_invoke; [auto using stored_logged |].
      apply triple_checkDuplicateImage. auto. }
    intros duplicate.
    destruct (isDuplicate duplicate);
      [destruct (similarImage duplicate) as [similar |];
       [apply triple_reject_failed | apply triple_throw; auto] |].
    unfold Processor.accept.
    apply triple_bind_await; [intros processedImageBuffer _ | auto].
    apply triple_bind_await; [intros metadata _ | auto].
    apply triple_bind_await; [intros path _ | auto].
    apply triple_bind
      with (Q1 := fun row w =>
                    find (fun x => String.eqb (id x) imageId) (images w) = Some row
                    /\ status row = PROCESSED /\ passedBy env imageBuffer row).
    { apply triple_update; [| auto].
      intros w r (r0 & Hf & _) Hr. assert (r = r0) as -> by congruence.
      split; [cbn [written images]; apply find_replace_row; exact Hf |].
      split; [reflexivity |].
      split; [exact Hsz |]. split; [exact V |]. split; [exact Hblur |].
      eexists. exists imageHash. split; [exact Hh |]. split; reflexivity. }
    intros row. apply triple_ret. intros w (Hf & Hst & Hp).
    exists row. split; [reflexivity |]. split; [exact Hf |]. right. split; assumption.
  - apply triple_bind_await; [intros forWidth _ | auto].
    apply triple_bind_await; [intros forHeight _ | auto].
    apply triple_reject_failed.
Qed.

Lemma processImage_outcome (w : World) :
  find (fun r => String.eqb (id r) imageId) (images w) = Some image ->
  status image = PENDING ->
  exists r w',
    Processor.processImage env imageId w = (Ok (Some r), w')
    /\ find (fun x => String.eqb (id x) imageId) (images w') = Some r
    /\ (status r = FAILED \/ (status r = PROCESSED /\ passedBy env imageBuffer r)).
Proof.
  intros Hfind Hst.
  rewrite (processImage_pending env w imageId image F Hfind Hst).
  assert (T : triple (stored imageId image)
                (tryCatch (Processor.pipeline env imageId image)
                          (Processor.onError env imageId))
                (fun result w =>
                   exists r,
                     result = Some r
                     /\ find (fun x => String.eqb (id x) imageId) (images w)
                        = Some r
                     /\ (status r = FAILED
                         \/ (status r = PROCESSED /\ passedBy env imageBuffer r)))
                (fun _ => False)).
  { apply triple_tryCatch with (E1 := stored imageId image);
      [apply pipeline_outcome |].
    intros e. unfold Processor.onError. apply triple_reject_failed. }
  assert (S0 : stored imageId image w).
  { exists image. split; [exact Hfind |]. split; [apply sameUpload_refl |].
    split; reflexivity. }
  specialize (T w S0).
  destruct (tryCatch _ _ w) as [[a | e] w']; [| destruct T].
  destruct T as (r & -> & T). exists r, w'. split; [reflexivity | exact T].
Qed.

End Outcome.

(** X21. The same file uploaded twice: when the run of processor.js on
    the first upload ends PROCESSED, the run on a second, still PENDING
    upload with the same bytes ends FAILED with the single code
    duplicate_image_detected, its metaData naming a similar record and
    holding the same hash as the first upload's row. *)
Theorem second_copy_is_rejected
  (env : Env) (w : World) (first second : string) (imageA imageB : Image)
  (imageBuffer : Buffer) :
  prismaFault env = None ->
  first <> second ->
  find (fun r => String.eqb (id r) first) (images w) = Some imageA ->
  status imageA = PENDING ->
  find (fun r => String.eqb (id r) second) (images w) = Some imageB ->
  status imageB = PENDING ->
  getImageBuffer env (originalPath imageA) = Ok imageBuffer ->
  getImageBuffer env (originalPath imageB) = Ok imageBuffer ->
  let firstRun := Processor.processImage env first w in
  (exists r1, fst firstRun = Ok (Some r1) /\ status r1 = PROCESSED) ->
  exists r2 w2 m similar h,
    Processor.processImage env second (snd firstRun) = (Ok (Some r2), w2)
    /\ find (fun r => String.eqb (id r) second) (images w2) = Some r2
    /\ status r2 = FAILED
    /\ metaData r2 = Some m
    /\ validationErrors m = Some [duplicate_image_detected]
    /\ similarTo m = Some similar
    /\ pHash m = Some h
    /\ generateImageHash env imageBuffer = Ok h.
Proof.
  intros F N HfA HstA HfB HstB HbufA HbufB firstRun (r1 & Hr1 & Hst1).
  pose proof (processImage_frame env first w) as T. fold firstRun in T.
  destruct (processImage_outcome env F first imageA imageBuffer HbufA w HfA HstA)
    as (r & w1 & Hrun & Hf1 & Hout).
  subst firstRun. rewrite Hrun in *. cbn [fst snd] in *.
  injection Hr1 as <-.
  destruct Hout as [Hfailed | (_ & Hsz & Hface & Hblur & m1 & h & Hh & Hm1 & Hp1)];
    [congruence |].
  assert (HfB1 : find (fun r => String.eqb (id r) second) (images w1) = Some imageB).
  { rewrite (touchesOnly_find_other first second w w1 T); [exact HfB | congruence]. }
  assert (Hfind1 := find_replace_row _ _ (Processor.setStatus PROCESSING) _ HfB1).
  apply find_some in Hf1 as (Hin1 & Hid1). apply String.eqb_eq in Hid1.
  destruct (verdict_equal_hash h (originalName imageB) (Some second)
              (replace_row second (Processor.setStatus PROCESSING) (images w1))
              r m1) as (similar & Hverdict).
  { apply In_replace_row_other; [exact Hin1 | congruence]. }
  { exact Hst1. }
  { unfold excluded. apply andb_false_intro2. apply String.eqb_neq. congruence. }
  { exact Hm1. }
  { exact Hp1. }
  { exact (generateImageHash_nonempty env imageBuffer h Hh). }
  rewrite (processImage_pending env w1 second imageB F HfB1 HstB).
  unfold Processor.pipeline. monad.
  rewrite (update_run env second _ w1 imageB F HfB1). monad.
  rewrite HbufB. monad. rewrite Hsz.
  unfold Processor.faceStage. monad. rewrite Hface, Hblur. monad.
  rewrite Hh. monad.
  rewrite (checkDuplicateImage_run _ _ _ _ _ F). monad.
  rewrite Hverdict. cbn [isDuplicate similarImage].
  erewrite update_run; [| exact F | exact Hfind1]. monad.
  rewrite (findUnique_run _ _ _ F). monad.
  rewrite (find_replace_row _ _ _ _ Hfind1).
  eexists. eexists. exists (Processor.duplicateRejection h similar).
  exists (Candidate.id similar), h.
  split; [reflexivity |].
  split; [apply find_replace_row; exact Hfind1 |].
  repeat split.
Qed.

Lemma second_copy_is_rejected_witness :
  exists r2 w2 m similar h,
    Processor.processImage (portrait 900 900) "b"
      (snd (Processor.processImage (portrait 900 900) "a" twoCopies))
    = (Ok (Some r2), w2)
    /\ find (fun r => String.eqb (id r) "b") (images w2) = Some r2
    /\ status r2 = FAILED
    /\ metaData r2 = Some m
    /\ validationErrors m = Some [duplicate_image_detected]
    /\ similarTo m = Some similar
    /\ pHash m = Some h
    /\ generateImageHash (portrait 900 900) (blob 204800) = Ok h.
Proof.
  apply (second_copy_is_rejected (portrait 900 900) twoCopies "a" "b"
           (row "a" "cat.jpg" PENDING None) (row "b" "cat-copy.jpg" PENDING None)
           (blob 204800) eq_refl).
  - discriminate.
  - reflexivity.
  - reflexivity.
  - reflexivity.
  - reflexivity.
  - reflexivity.
  - reflexivity.
  - eexists. split; vm_compute; reflexivity.
Defined.
